(** * Search backend: keyword engine and TF-IDF index of [backend.py]

    A shallow embedding of the search core of [backend.py]:
    [_looks_like_id], [keyword_match_mask], [keyword_search],
    [TfIdfSemantic.build], [TfIdfSemantic.search] and the routes [/load]
    and [/search].

    Python values are modelled as follows.
    - [str] is a list of Unicode code points ([pystr]).
    - [int] is [Z]; [Optional[int]] is [option Z].
    - [Dict[str, V]] is an insertion-ordered association list with unique
      keys ([dict V]); [d[k] = v] is [dict_set].
    - a [pandas.DataFrame] is its column labels and its rows in order.
    - a call that may raise returns a [result].

    What the file does not define itself (how [str()] prints a cell,
    [str.lower], the Unicode decimal digits, the regular-expression
    compiler behind [Series.str.contains], scikit-learn's vectorizer and
    numpy's [argsort], the reader of an uploaded file) is a field of a
    class: [Runtime] for the keyword engine, [SemLib] for the semantic
    index, [Loader] for the upload, [TextLib] for the white space that
    [str.strip] removes. *)

From Stdlib Require Import Ascii String.
From Stdlib Require Import List ZArith NArith Lia Bool.
From Stdlib Require Import Sorted Permutation.
From Stdlib Require DecimalString.
Import ListNotations.

Set Implicit Arguments.

(** ** Strings *)

Definition codepoint := N.
Definition pystr := list codepoint.

(** A string literal of the development as a Python [str]. *)
Definition of_string (s : string) : pystr :=
  map N_of_ascii (list_ascii_of_string s).

Fixpoint pystr_eqb (a b : pystr) : bool :=
  match a, b with
  | [], [] => true
  | x :: a', y :: b' => N.eqb x y && pystr_eqb a' b'
  | _, _ => false
  end.

(** [a <= b] as Python compares two [str]: code point by code point. *)
Fixpoint pystr_leb (a b : pystr) : bool :=
  match a, b with
  | [], _ => true
  | _ :: _, [] => false
  | x :: a', y :: b' => N.ltb x y || (N.eqb x y && pystr_leb a' b')
  end.

(** [sep.join(parts)] *)
Fixpoint join (sep : pystr) (parts : list pystr) : pystr :=
  match parts with
  | [] => []
  | [p] => p
  | p :: rest => p ++ sep ++ join sep rest
  end.

(** ** Exceptions *)

Inductive exn := ReError | IndexError | KeyError | ValueError.

Inductive result (A : Type) :=
| Ok (a : A)
| Raise (e : exn).
Arguments Ok {A} a.
Arguments Raise {A} e.

Definition bind {A B} (m : result A) (f : A -> result B) : result B :=
  match m with
  | Ok a => f a
  | Raise e => Raise e
  end.

Notation "x <- m ;; k" := (bind m (fun x => k))
  (at level 61, m at next level, right associativity).
Notation "' p <- m ;; k" := (bind m (fun x => let p := x in k))
  (at level 61, p pattern, m at next level, right associativity).

(** A list comprehension whose body may raise. *)
Fixpoint mapM {A B} (f : A -> result B) (l : list A) : result (list B) :=
  match l with
  | [] => Ok []
  | x :: l' => y <- f x ;; ys <- mapM f l' ;; Ok (y :: ys)
  end.

(** A [for] loop over [l] that threads [acc] and stops at the first raise. *)
Fixpoint foldM {A S} (f : S -> A -> result S) (l : list A) (acc : S) : result S :=
  match l with
  | [] => Ok acc
  | x :: l' => acc' <- f acc x ;; foldM f l' acc'
  end.

(** ** Dictionaries *)

Definition dict (V : Type) := list (pystr * V).

Fixpoint dict_get {V} (k : pystr) (d : dict V) : option V :=
  match d with
  | [] => None
  | (k', v) :: d' => if pystr_eqb k' k then Some v else dict_get k d'
  end.

(** [d[k] = v]: an existing key keeps its position, a new key goes last. *)
Fixpoint dict_set {V} (k : pystr) (v : V) (d : dict V) : dict V :=
  match d with
  | [] => [(k, v)]
  | (k', v') :: d' =>
      if pystr_eqb k' k then (k, v) :: d' else (k', v') :: dict_set k v d'
  end.

Definition keys {V} (d : dict V) : list pystr := map fst d.
Definition values {V} (d : dict V) : list V := map snd d.

(** [d[k]] *)
Definition dict_item {V} (k : pystr) (d : dict V) : result V :=
  match dict_get k d with
  | Some v => Ok v
  | None => Raise KeyError
  end.

(** ** Sequences *)

(** [l[:n]], which is also [DataFrame.head(n)]: the first [n] items, or
    all but the last [-n] when [n] is negative. *)
Definition slice_to {A} (n : Z) (l : list A) : list A :=
  if (0 <=? n)%Z then firstn (Z.to_nat n) l
  else firstn (length l - Z.to_nat (- n)) l.

Definition zsum (l : list Z) : Z := fold_right Z.add 0%Z l.

(** [sorted(names)] for strings: insertion from the left, equal keys keep
    their order. *)
Fixpoint insert_sorted (x : pystr) (l : list pystr) : list pystr :=
  match l with
  | [] => [x]
  | y :: l' => if pystr_leb x y then x :: l else y :: insert_sorted x l'
  end.

Definition sorted (l : list pystr) : list pystr :=
  fold_right insert_sorted [] l.

(** ** Regular expressions

    The part of Python's [re] that the fixed pattern of [_looks_like_id]
    needs, with the matcher written as a backtracking search in
    continuation style. [bol] tells whether the position is the start of
    the string. *)

Module Re.

Inductive cset :=
| CChar (c : codepoint)
| CRange (lo hi : codepoint)
| CDigit.                        (* \d *)

Inductive regex :=
| Eps
| Bol                            (* ^ *)
| Eol                            (* $ *)
| AnyChar                        (* . *)
| Lit (c : codepoint)
| Cls (neg : bool) (items : list cset)   (* [...] and [^...] *)
| Seq (r1 r2 : regex)
| Alt (r1 r2 : regex)
| Star (r : regex).

Definition Plus (r : regex) : regex := Seq r (Star r).
Definition Opt (r : regex) : regex := Alt r Eps.

Section Matcher.

  (** [decimal c]: [c] is a Unicode decimal digit.  [variants c]: the
      characters that count as [c] under the flags in force, [c] itself
      first; without flags that is [[c]], with [re.IGNORECASE] also its
      other cases. *)
  Variable decimal : codepoint -> bool.
  Variable variants : codepoint -> list codepoint.

Definition in_cset (c : codepoint) (i : cset) : bool :=
  match i with
  | CChar a => existsb (N.eqb a) (variants c)
  | CRange lo hi =>
      existsb (fun c' => N.leb lo c' && N.leb c' hi) (variants c)
  | CDigit => decimal c
  end.

Definition newline : codepoint := 10%N.

Definition at_eol (s : pystr) : bool :=
  match s with
  | [] => true
  | [c] => N.eqb c newline
  | _ => false
  end.

Definition cont := bool -> pystr -> bool.

Fixpoint star_loop (body : bool -> pystr -> cont -> bool)
         (fuel : nat) (bol : bool) (s : pystr) (k : cont) : bool :=
  k bol s ||
  match fuel with
  | O => false
  | S fuel' =>
      body bol s (fun b s' =>
        (length s' <? length s)%nat && star_loop body fuel' b s' k)
  end.

Fixpoint run (r : regex) (bol : bool) (s : pystr) (k : cont) : bool :=
  match r with
  | Eps => k bol s
  | Bol => bol && k bol s
  | Eol => at_eol s && k bol s
  | AnyChar =>
      match s with
      | c :: s' => negb (N.eqb c newline) && k false s'
      | [] => false
      end
  | Lit a =>
      match s with
      | c :: s' => existsb (N.eqb a) (variants c) && k false s'
      | [] => false
      end
  | Cls neg items =>
      match s with
      | c :: s' => xorb neg (existsb (in_cset c) items) && k false s'
      | [] => false
      end
  | Seq r1 r2 => run r1 bol s (fun b s' => run r2 b s' k)
  | Alt r1 r2 => run r1 bol s k || run r2 bol s k
  | Star r' => star_loop (run r') (length s) bol s k
  end.

(** [re.match(r, s) is not None] *)
Definition matches (r : regex) (s : pystr) : bool :=
  run r true s (fun _ _ => true).

Fixpoint search_from (r : regex) (bol : bool) (s : pystr) : bool :=
  run r bol s (fun _ _ => true) ||
  match s with
  | [] => false
  | _ :: s' => search_from r false s'
  end.

(** [re.search(r, s) is not None] *)
Definition finds (r : regex) (s : pystr) : bool := search_from r true s.

End Matcher.

(** Without flags a character is only itself. *)
Definition plain (c : codepoint) : list codepoint := [c].

End Re.

(** ** The runtime the keyword engine calls into *)

Class Runtime := {
  (** the type of a DataFrame cell *)
  cell : Type;
  (** [str(x)], which [DataFrame.astype(str)] applies to every cell *)
  py_str : cell -> pystr;
  (** [s.lower()] *)
  str_lower : pystr -> pystr;
  (** the characters [\d] matches in a [str] pattern *)
  is_decimal : codepoint -> bool;
  (** a compiled pattern *)
  pattern : Type;
  (** [re.compile(pat, flags=re.IGNORECASE)]; [None] when it raises
      [re.error] *)
  re_compile : pystr -> option pattern;
  (** [pat.search(x) is not None] *)
  re_search : pattern -> pystr -> bool
}.

Definition ch (a : ascii) : codepoint := N_of_ascii a.

(** ** DataFrames *)

Record DataFrame (C : Type) := {
  columns : list pystr;
  rows : list (list C)
}.

(** [len(df)] *)
Definition df_len {C} (df : DataFrame C) : Z := Z.of_nat (length (rows df)).

(** [df.empty]: some axis has length 0. *)
Definition df_empty {C} (df : DataFrame C) : bool :=
  (length (columns df) =? 0)%nat || (length (rows df) =? 0)%nat.

(** [df.head(n)] *)
Definition df_head {C} (n : Z) (df : DataFrame C) : DataFrame C :=
  {| columns := columns df; rows := slice_to n (rows df) |}.

(** [df.loc[mask]] for a boolean [mask] over the rows of [df]. *)
Fixpoint select {A} (mask : list bool) (l : list A) : list A :=
  match mask, l with
  | b :: mask', x :: l' => if b then x :: select mask' l' else select mask' l'
  | _, _ => []
  end.

Definition df_loc {C} (df : DataFrame C) (mask : list bool) : DataFrame C :=
  {| columns := columns df; rows := select mask (rows df) |}.

(** [sdf[c]] for the column label at position [c]: the column as a
    Series, [None] where a row has no such cell, which no row of a table
    does. *)
Definition column {C} (df : DataFrame C) (c : nat) : list (option C) :=
  map (fun row => nth_error row c) (rows df).

(** [m1 | m2] on boolean Series over the same index. *)
Fixpoint series_or (m1 m2 : list bool) : list bool :=
  match m1, m2 with
  | a :: m1', b :: m2' => (a || b) :: series_or m1' m2'
  | _, _ => []
  end.

(** [int(mask.sum())] *)
Definition mask_sum (mask : list bool) : Z :=
  Z.of_nat (length (filter (fun b => b) mask)).

(** Every row has one cell per column label. *)
Definition rectangular {C} (df : DataFrame C) : Prop :=
  Forall (fun row => length row = length (columns df)) (rows df).

(** ** Keyword search helpers *)

Section Keyword.

  Context {R : Runtime}.

  Import Re.

(** The pattern [^[A-Za-z]+0*\d+$]. *)
Definition id_pattern : regex :=
  Seq Bol
    (Seq (Plus (Cls false [CRange (ch "A") (ch "Z"); CRange (ch "a") (ch "z")]))
      (Seq (Star (Lit (ch "0")))
        (Seq (Plus (Cls false [CDigit]))
          Eol))).

Definition _looks_like_id (s : pystr) : bool :=
  matches is_decimal plain id_pattern s.

(** [df.astype(str)] followed by [fillna] with the empty string: after
    [astype(str)] every cell is a [str], so [fillna] finds nothing to
    fill. *)
Definition _coerce_to_str (df : DataFrame cell) : DataFrame pystr :=
  {| columns := columns df; rows := map (map py_str) (rows df) |}.

(** [series.str.lower() == ql], element by element. *)
Definition str_lower_eq (series : list (option pystr)) (ql : pystr) : list bool :=
  map (fun x => match x with
                | Some s => pystr_eqb (str_lower s) ql
                | None => false
                end) series.

(** [series.str.contains(q, case=False, na=False)]: [regex] keeps its
    default [True], so [q] is compiled as a pattern. *)
Definition str_contains (series : list (option pystr)) (q : pystr)
  : result (list bool) :=
  match re_compile q with
  | None => Raise ReError
  | Some pat =>
      Ok (map (fun x => match x with
                        | Some s => re_search pat s
                        | None => false
                        end) series)
  end.

Definition keyword_match_mask (df : DataFrame cell) (query : pystr)
  : result (list bool) :=
  let sdf := _coerce_to_str df in
  let q := query in
  let cols := seq 0 (length (columns sdf)) in
  col_hits <-
    (if _looks_like_id q then
       let ql := str_lower q in
       Ok (map (fun c => str_lower_eq (column sdf c) ql) cols)
     else
       mapM (fun c => str_contains (column sdf c) q) cols) ;;
  match col_hits with
  | [] => Raise IndexError
  | mask :: rest => Ok (fold_left series_or rest mask)
  end.

(** ** [keyword_search] *)

Definition kw_state : Type := dict (DataFrame cell) * dict Z * Z.

(** One turn of the loop over [sheets.items()]. *)
Definition scan_sheet (query : pystr) (per_sheet_cap : Z)
           (st : kw_state) (item : pystr * DataFrame cell) : result kw_state :=
  let '(results, counts, total) := st in
  let '(name, df) := item in
  if df_empty df then
    Ok (results, dict_set name 0%Z counts, total)
  else
    mask <- keyword_match_mask df query ;;
    let count := mask_sum mask in
    let counts := dict_set name count counts in
    let total := (total + count)%Z in
    if (0 <? count)%Z then
      Ok (dict_set name (df_head per_sheet_cap (df_loc df mask)) results,
          counts, total)
    else Ok (results, counts, total).

(** The first loop: candidate results, counts and total. *)
Definition scan (sheets : dict (DataFrame cell)) (query : pystr)
           (per_sheet_cap : Z) : result kw_state :=
  foldM (scan_sheet query per_sheet_cap) sheets ([], [], 0%Z).

(** The loop over [sorted(results.keys())]. *)
Fixpoint trim (names : list pystr) (results : dict (DataFrame cell))
         (remaining : Z) (trimmed : dict (DataFrame cell))
  : result (dict (DataFrame cell)) :=
  match names with
  | [] => Ok trimmed
  | name :: names' =>
      if (remaining <=? 0)%Z then Ok trimmed
      else
        dfm <- dict_item name results ;;
        if (df_len dfm <=? remaining)%Z then
          trim names' results (remaining - df_len dfm)%Z
               (dict_set name dfm trimmed)
        else
          trim names' results 0%Z
               (dict_set name (df_head remaining dfm) trimmed)
  end.

Definition keyword_search (sheets : dict (DataFrame cell)) (query : pystr)
           (per_sheet_cap : Z) (total_cap : option Z) : result kw_state :=
  '(results, counts, total) <- scan sheets query per_sheet_cap ;;
  match total_cap with
  | Some cap =>
      if (cap <? total)%Z then
        trimmed <- trim (sorted (keys results)) results cap [] ;;
        Ok (trimmed, counts, total)
      else Ok (results, counts, total)
  | None => Ok (results, counts, total)
  end.

End Keyword.


(** ** The libraries the semantic index calls into *)

Class SemLib := {
  (** a fitted [TfidfVectorizer] *)
  vectorizer : Type;
  (** the sparse document-term matrix it returns *)
  matrix : Type;
  (** a similarity score *)
  score : Type;
  (** the order of scores that [argsort] sorts by *)
  score_leb : score -> score -> bool;
  (** [vec = TfidfVectorizer(max_features=200000); X = vec.fit_transform(texts)];
      raises [ValueError] on an empty vocabulary *)
  fit_transform : list pystr -> result (vectorizer * matrix);
  (** [X.shape[0]] *)
  shape0 : matrix -> nat;
  (** [cosine_similarity(X, vec.transform([query])).ravel()] *)
  similarities : vectorizer -> matrix -> pystr -> list score;
  (** [sims.argsort()] *)
  argsort : list score -> list nat
}.

(** [df.iloc[idx]] for a list of positions. *)
Definition df_iloc {C} (df : DataFrame C) (idx : list nat) : result (DataFrame C) :=
  picked <- mapM (fun i => match nth_error (rows df) i with
                           | Some row => Ok row
                           | None => Raise IndexError
                           end) idx ;;
  Ok {| columns := columns df; rows := picked |}.

(** [a[idx]] for an array and a list of positions. *)
Definition take {A} (a : list A) (idx : list nat) : result (list A) :=
  mapM (fun i => match nth_error a i with
                 | Some x => Ok x
                 | None => Raise IndexError
                 end) idx.

(** [df.insert(0, label, vals)]: a new first column, refused when the
    label is already a column or the lengths differ. *)
Definition df_insert0 {S C} (label : pystr) (vals : list S) (df : DataFrame C)
  : result (DataFrame (S + C)) :=
  if existsb (pystr_eqb label) (columns df) then Raise ValueError
  else if negb (length vals =? length (rows df))%nat then Raise ValueError
  else Ok {| columns := label :: columns df;
             rows := map (fun p => inl (fst p) :: map inr (snd p))
                         (combine vals (rows df)) |}.

Definition semantic_score : pystr := of_string "_semantic_score".

Module TfIdfSemantic.

Section Index.

  Context {R : Runtime} {L : SemLib}.

(** [" | ".join(r.values.tolist())] for every row of [df.astype(str)]. *)
Definition row_texts (df : DataFrame cell) : list pystr :=
  map (fun row => join (of_string " | ") (map py_str row)) (rows df).

Record t := {
  vectorizers : dict vectorizer;
  matrices : dict matrix;
  rows : dict (DataFrame cell)
}.

(** [__init__] *)
Definition init : t := {| vectorizers := []; matrices := []; rows := [] |}.

(** The loop of [build] over [sheets.items()]; the index keeps what was
    stored before a raise. *)
Fixpoint build_loop (items : dict (DataFrame cell)) (per_sheet_limit : option Z)
         (self : t) : t * result unit :=
  match items with
  | [] => (self, Ok tt)
  | (name, df) :: items' =>
      let use_df := match per_sheet_limit with
                    | None => df
                    | Some n => df_head n df
                    end in
      let texts := row_texts use_df in
      match texts with
      | [] => build_loop items' per_sheet_limit self
      | _ :: _ =>
          match fit_transform texts with
          | Raise e => (self, Raise e)
          | Ok (vec, X) =>
              build_loop items' per_sheet_limit
                {| vectorizers := dict_set name vec (vectorizers self);
                   matrices := dict_set name X (matrices self);
                   rows := dict_set name use_df (rows self) |}
          end
      end
  end.

Definition build (self : t) (sheets : dict (DataFrame cell))
           (per_sheet_limit : option Z) : t * result unit :=
  (* the three [clear()] *)
  let self := {| vectorizers := []; matrices := []; rows := [] |} in
  build_loop sheets per_sheet_limit self.

(** One turn of the loop of [search] over [self.vectorizers.items()]. *)
Definition search_sheet (self : t) (query : pystr) (top_k_per_sheet : Z)
           (out : dict (DataFrame (score + cell))) (item : pystr * vectorizer)
  : result (dict (DataFrame (score + cell))) :=
  let '(name, vec) := item in
  X <- dict_item name (matrices self) ;;
  if (shape0 X =? 0)%nat then Ok out
  else
    let sims := similarities vec X query in
    let idx := slice_to top_k_per_sheet (rev (argsort sims)) in
    stored <- dict_item name (rows self) ;;
    picked <- df_iloc stored idx ;;
    scores <- take sims idx ;;
    scored <- df_insert0 semantic_score scores picked ;;
    Ok (dict_set name scored out).

Definition search (self : t) (query : pystr) (top_k_per_sheet : Z)
  : result (dict (DataFrame (score + cell))) :=
  foldM (search_sheet self query top_k_per_sheet) (vectorizers self) [].

End Index.

End TfIdfSemantic.

(** ** App state and the [/load] route *)

Class Loader {R : Runtime} := {
  (** the bytes of an upload *)
  upload : Type;
  (** [pd.read_excel(io.BytesIO(raw), sheet_name=None, engine="openpyxl")] *)
  read_excel : upload -> result (dict (DataFrame cell))
}.

Section App.

  Context {R : Runtime} {L : SemLib} {Ld : Loader}.

(** The module-level [SHEETS] and [SEM]. *)
Record app_state := {
  SHEETS : dict (DataFrame cell);
  SEM : TfIdfSemantic.t
}.

Definition app_start : app_state := {| SHEETS := []; SEM := TfIdfSemantic.init |}.

Inductive response :=
| sheet_names (names : list pystr)
| error_400.

Definition read_workbook_bytes (raw : upload) : result (dict (DataFrame cell)) :=
  read_excel raw.

(** [load_workbook]: the assignment to [SHEETS] and every store into
    [SEM] made before a raise stay in place when the handler answers 400. *)
Definition load_workbook (st : app_state) (raw : upload)
  : app_state * response :=
  match read_workbook_bytes raw with
  | Raise _ => (st, error_400)
  | Ok sheets =>
      let '(sem, built) := TfIdfSemantic.build (SEM st) sheets (Some 5000%Z) in
      let st' := {| SHEETS := sheets; SEM := sem |} in
      match built with
      | Ok _ => (st', sheet_names (keys sheets))
      | Raise _ => (st', error_400)
      end
  end.

End App.

(** ** The [/search] route

    The route is modelled up to the content it hands to
    [JSONResponse]: an answer is the status and message of an error, or
    the content of the answer with status 200.  How that content is
    rendered as JSON, and whether a value in it can be, is outside the
    model. *)

Class TextLib := {
  (** [c.isspace()] for one character: what [str.strip()] removes *)
  is_space : codepoint -> bool
}.

(** [str(n)] for an [int], as an f-string prints it. *)
Definition int_str (n : Z) : pystr :=
  of_string (DecimalString.NilZero.string_of_int (Z.to_int n)).

(** [s.lstrip()] for the characters that [p] accepts. *)
Fixpoint lstrip_by (p : codepoint -> bool) (s : pystr) : pystr :=
  match s with
  | [] => []
  | c :: s' => if p c then lstrip_by p s' else s
  end.

(** [df.to_dict(orient="records")]: one mapping from column label to
    value per row. *)
Definition to_records {C} (df : DataFrame C) : list (dict C) :=
  map (fun row =>
         fold_left (fun d p => dict_set (fst p) (snd p) d)
                   (combine (columns df) row) [])
      (rows df).

(** [{name: f(v) for name, v in d.items()}] *)
Definition dict_comp {A B} (f : A -> B) (d : dict A) : dict B :=
  fold_left (fun acc p => dict_set (fst p) (f (snd p)) acc) d [].

(** [SearchRequest]; a request that names no [run_semantic] carries [True]. *)
Record SearchRequest := {
  query : pystr;
  run_semantic : bool
}.

Section Route.

  Context {R : Runtime} {L : SemLib} {T : TextLib}.

(** [s.strip()] *)
Definition strip (s : pystr) : pystr :=
  rev (lstrip_by is_space (rev (lstrip_by is_space s))).

Record keyword_part := {
  kw_summary : pystr;
  kw_csv_url : option pystr;
  kw_results : dict (list (dict cell))
}.

Record semantic_part := {
  sem_summary : pystr;
  sem_csv_url : option pystr;
  sem_results : dict (list (dict (score + cell)))
}.

Inductive answer :=
| error_answer (status_code : Z) (error : pystr)
| search_answer (keyword : keyword_part) (semantic : option semantic_part).

(** The lines [f"- {k}: {kw_counts[k]}"] for the sorted sheet names. *)
Definition count_lines (kw_counts : dict Z) : result (list pystr) :=
  mapM (fun k =>
          n <- dict_item k kw_counts ;;
          Ok (of_string "- " ++ k ++ of_string ": " ++ int_str n))
       (sorted (keys kw_counts)).

Definition search (st : app_state) (payload : SearchRequest) : result answer :=
  match SHEETS st with
  | [] =>
      Ok (error_answer 400%Z (of_string "No workbook loaded. POST /load first."))
  | _ :: _ =>
      let q := strip (query payload) in
      match q with
      | [] => Ok (error_answer 400%Z (of_string "Empty query."))
      | _ :: _ =>
          ' (kw_results, kw_counts, kw_total) <-
            keyword_search (SHEETS st) q 100%Z (Some 1000%Z) ;;
          lines <- count_lines kw_counts ;;
          let kw_summary :=
            join [Re.newline]
                 ((of_string "Total keyword matches (pre-cap): " ++ int_str kw_total)
                    :: lines) in
          let kw_json := dict_comp to_records kw_results in
          let keyword := {| kw_summary := kw_summary;
                            kw_csv_url := None;
                            kw_results := kw_json |} in
          if run_semantic payload then
            sem_results <- TfIdfSemantic.search (SEM st) q 30%Z ;;
            let sem_total := zsum (map (fun df => df_len df) (values sem_results)) in
            let sem_summary :=
              of_string "Semantic hits (top 30 per sheet): " ++ int_str sem_total in
            let sem_json := dict_comp to_records sem_results in
            Ok (search_answer keyword
                  (Some {| sem_summary := sem_summary;
                           sem_csv_url := None;
                           sem_results := sem_json |}))
          else Ok (search_answer keyword None)
      end
  end.

End Route.

(** ** Vocabulary of the properties *)

Section Vocabulary.

  Context {R : Runtime}.

(** The test that [keyword_match_mask] applies to the string form of a
    cell, once the policy for [q] is chosen; raising when the query does
    not compile. *)
Definition cell_test (q : pystr) : result (pystr -> bool) :=
  if _looks_like_id q then
    Ok (fun s => pystr_eqb (str_lower s) (str_lower q))
  else
    match re_compile q with
    | Some pat => Ok (re_search pat)
    | None => Raise ReError
    end.

Definition cell_matches (q s : pystr) : bool :=
  match cell_test q with
  | Ok t => t s
  | Raise _ => false
  end.

(** A row matches when one of its cells does. *)
Definition row_matches (q : pystr) (row : list cell) : bool :=
  existsb (fun c => cell_matches q (py_str c)) row.

(** The pre-cap matching set of a sheet, in row order. *)
Definition matching_rows (q : pystr) (df : DataFrame cell) : list (list cell) :=
  filter (row_matches q) (rows df).

Definition sheet_count (q : pystr) (df : DataFrame cell) : Z :=
  Z.of_nat (length (matching_rows q df)).

(** A sheet's candidate result: its matching rows cut to the per-sheet cap. *)
Definition candidate (q : pystr) (per_sheet_cap : Z) (df : DataFrame cell)
  : DataFrame cell :=
  {| columns := columns df;
     rows := slice_to per_sheet_cap (matching_rows q df) |}.

(** A workbook: sheet names are unique and every sheet is a table. *)
Definition workbook (sheets : dict (DataFrame cell)) : Prop :=
  NoDup (keys sheets) /\ Forall (fun item => rectangular (snd item)) sheets.

(** The rows a result mapping holds for a sheet; none when the sheet is
    not a key. *)
Definition rows_of (d : dict (DataFrame cell)) (name : pystr) : list (list cell) :=
  match dict_get name d with
  | Some t => rows t
  | None => []
  end.

(** [sum(len(df) for df in d.values())] *)
Definition total_rows (d : dict (DataFrame cell)) : Z :=
  zsum (map (fun t => df_len t) (values d)).

(** The identifier pattern in the words of the specification: one or more
    letters, then zero or more zeros, then one or more digits, and
    nothing else. *)
Definition is_letter (c : codepoint) : bool :=
  (N.leb (ch "A") c && N.leb c (ch "Z")) || (N.leb (ch "a") c && N.leb c (ch "z")).

Definition identifier_like (q : pystr) : Prop :=
  exists letters zeros digits,
    q = letters ++ zeros ++ digits /\
    letters <> [] /\ Forall (fun c => is_letter c = true) letters /\
    Forall (fun c => c = ch "0") zeros /\
    digits <> [] /\ Forall (fun c => is_decimal c = true) digits.

(** A pattern that reads one character, accepted by [p]. *)
Definition reads_one (decimal : codepoint -> bool) (a : Re.regex)
           (p : codepoint -> bool) : Prop :=
  forall bol c s k,
    Re.run decimal Re.plain a bol (c :: s) k = p c && k false s.

(** The global cap in the words of the specification, for sheet names
    taken in order with [remaining] rows of budget left: a sheet that
    fits is kept whole, the first that does not fit keeps its leading
    rows up to the budget, and every sheet after it is dropped. *)
Inductive greedy_fill (cands results : dict (DataFrame cell))
  : Z -> list pystr -> Prop :=
| fill_done remaining :
    greedy_fill cands results remaining []
| fill_whole remaining name names :
    (Z.of_nat (length (rows_of cands name)) <= remaining)%Z ->
    rows_of results name = rows_of cands name ->
    greedy_fill cands results
      (remaining - Z.of_nat (length (rows_of cands name)))%Z names ->
    greedy_fill cands results remaining (name :: names)
| fill_cut remaining name names :
    (remaining < Z.of_nat (length (rows_of cands name)))%Z ->
    rows_of results name = firstn (Z.to_nat remaining) (rows_of cands name) ->
    (forall later, In later names -> dict_get later results = None) ->
    greedy_fill cands results remaining (name :: names).

(** The first loop in closed form: every sheet's uncapped count, and the
    candidates of the sheets that have a match. *)
Definition counts_of (q : pystr) (sheets : dict (DataFrame cell)) : dict Z :=
  map (fun item => (fst item, sheet_count q (snd item))) sheets.

Definition cands_of (q : pystr) (per_sheet_cap : Z)
           (sheets : dict (DataFrame cell)) : dict (DataFrame cell) :=
  flat_map (fun item =>
              if (0 <? sheet_count q (snd item))%Z
              then [(fst item, candidate q per_sheet_cap (snd item))]
              else []) sheets.

Definition all_empty (sheets : dict (DataFrame cell)) : bool :=
  forallb (fun item => df_empty (snd item)) sheets.

(** The second loop in closed form. *)
Fixpoint fill (cands : dict (DataFrame cell)) (names : list pystr)
         (remaining : Z) : dict (DataFrame cell) :=
  match names with
  | [] => []
  | name :: names' =>
      if (remaining <=? 0)%Z then []
      else
        match dict_get name cands with
        | None => []
        | Some dfm =>
            if (df_len dfm <=? remaining)%Z then
              (name, dfm) :: fill cands names' (remaining - df_len dfm)%Z
            else [(name, df_head remaining dfm)]
        end
  end.

(** The result mapping that [keyword_search] returns for given candidates. *)
Definition capped (cands : dict (DataFrame cell)) (total : Z)
           (total_cap : option Z) : dict (DataFrame cell) :=
  match total_cap with
  | Some cap =>
      if (cap <? total)%Z then fill cands (sorted (keys cands)) cap else cands
  | None => cands
  end.

(** What a call of [keyword_search] comes to: a triple with the property
    [P], or the raise of a query that does not compile, met on a sheet
    that is not empty. *)
Definition search_gives (sheets : dict (DataFrame cell)) (q : pystr)
           (per_sheet_cap : Z) (total_cap : option Z)
           (P : dict (DataFrame cell) -> dict Z -> Z -> Prop) : Prop :=
  match keyword_search sheets q per_sheet_cap total_cap with
  | Ok (results, counts, total) => P results counts total
  | Raise e => cell_test q = Raise e /\ all_empty sheets = false
  end.

Definition lex_le (a b : pystr) : Prop := pystr_leb a b = true.

(** The bounds of the caps as the specification states them, for every
    [per_sheet_cap] and [total_cap]. *)
Definition caps_as_stated (sheets : dict (DataFrame cell)) (q : pystr)
           (per_sheet_cap : Z) (total_cap : option Z) : Prop :=
  search_gives sheets q per_sheet_cap total_cap (fun results counts total =>
    (forall name t, dict_get name results = Some t ->
                    (df_len t <= per_sheet_cap)%Z) /\
    (forall cap, total_cap = Some cap -> (total_rows results <= cap)%Z)).

(** [s] holds [q] as a substring. *)
Fixpoint starts_with (q s : pystr) : bool :=
  match q, s with
  | [], _ => true
  | _ :: _, [] => false
  | a :: q', b :: s' => N.eqb a b && starts_with q' s'
  end.

Fixpoint has_substring (q s : pystr) : bool :=
  starts_with q s ||
  match s with
  | [] => false
  | _ :: s' => has_substring q s'
  end.

(** The substring policy in the words of the specification: the string
    form of the cell contains the query, case apart. *)
Definition contains_ignoring_case (q s : pystr) : bool :=
  has_substring (str_lower q) (str_lower s).

End Vocabulary.

(** ** Vocabulary of the semantic index *)

Section SemVocabulary.

  Context {R : Runtime} {L : SemLib}.

(** In [a], the value at position [i] is at most the value at [j]. *)
Definition key_le (a : list score) (i j : nat) : Prop :=
  forall x y, nth_error a i = Some x -> nth_error a j = Some y ->
              score_leb x y = true.

(** What the index relies on from scikit-learn and numpy: the matrix has
    one row per document, there is one similarity per matrix row, and
    [argsort] lists every position once, smallest value first. *)
Record SemLaws : Prop := {
  fit_rows : forall texts vec X,
      fit_transform texts = Ok (vec, X) -> shape0 X = length texts;
  sims_rows : forall vec X q, length (similarities vec X q) = shape0 X;
  argsort_perm : forall a, Permutation (argsort a) (seq 0 (length a));
  argsort_sorted : forall a, Sorted (key_le a) (argsort a)
}.

(** The rows of a sheet that [build] indexes. *)
Definition use_df (per_sheet_limit : option Z) (df : DataFrame cell) : DataFrame cell :=
  match per_sheet_limit with
  | None => df
  | Some n => df_head n df
  end.

(** What [build] stores for a sheet. *)
Record entry := {
  e_vec : vectorizer;
  e_matrix : matrix;
  e_rows : DataFrame cell
}.

(** The loop of [build] in closed form: the entries stored, in order,
    and how the loop ended. *)
Fixpoint entries (items : dict (DataFrame cell)) (per_sheet_limit : option Z)
  : dict entry * result unit :=
  match items with
  | [] => ([], Ok tt)
  | (name, df) :: items' =>
      match TfIdfSemantic.row_texts (use_df per_sheet_limit df) with
      | [] => entries items' per_sheet_limit
      | texts =>
          match fit_transform texts with
          | Raise e => ([], Raise e)
          | Ok (vec, X) =>
              let '(es, r) := entries items' per_sheet_limit in
              ((name, {| e_vec := vec; e_matrix := X;
                         e_rows := use_df per_sheet_limit df |}) :: es, r)
          end
      end
  end.

(** An entry as [build] stores it. *)
Definition built (e : entry) : Prop :=
  TfIdfSemantic.row_texts (e_rows e) <> [] /\
  fit_transform (TfIdfSemantic.row_texts (e_rows e)) = Ok (e_vec e, e_matrix e).

(** The stored rows already have a column named [_semantic_score]. *)
Definition clashes (e : entry) : bool :=
  existsb (pystr_eqb semantic_score) (columns (e_rows e)).

Definition index_of (es : dict entry) : TfIdfSemantic.t :=
  {| TfIdfSemantic.vectorizers := map (fun p => (fst p, e_vec (snd p))) es;
     TfIdfSemantic.matrices := map (fun p => (fst p, e_matrix (snd p))) es;
     TfIdfSemantic.rows := map (fun p => (fst p, e_rows (snd p))) es |}.

(** The leading field of a returned row, when it is a score. *)
Definition row_score (row : list (score + cell)) : option score :=
  match row with
  | inl s :: _ => Some s
  | _ => None
  end.

Definition leading_scores (t : DataFrame (score + cell)) : list score :=
  flat_map (fun row => match row_score row with
                       | Some s => [s]
                       | None => []
                       end) (rows t).

(** The items of [a] at the positions [idx] that exist. *)
Definition pick {A} (a : list A) (idx : list nat) : list A :=
  flat_map (fun i => match nth_error a i with
                     | Some x => [x]
                     | None => []
                     end) idx.

(** The positions [search] keeps for an entry, best first. *)
Definition ranked (e : entry) (query : pystr) (top_k : Z) : list nat :=
  slice_to top_k (rev (argsort (similarities (e_vec e) (e_matrix e) query))).

(** The table [search] returns for an entry: the stored rows at the
    ranked positions, each behind its similarity. *)
Definition scored_table (e : entry) (query : pystr) (top_k : Z)
  : DataFrame (score + cell) :=
  let sims := similarities (e_vec e) (e_matrix e) query in
  let idx := ranked e query top_k in
  {| columns := semantic_score :: columns (e_rows e);
     rows := map (fun p => inl (fst p) :: map inr (snd p))
                 (combine (pick sims idx) (pick (rows (e_rows e)) idx)) |}.

(** A table made of the stored rows at the positions [idx], in that
    order, each behind the similarity at its position. *)
Definition scored_rows (vec : vectorizer) (X : matrix) (stored : DataFrame cell)
           (query : pystr) (idx : list nat) (t : DataFrame (score + cell)) : Prop :=
  columns t = semantic_score :: columns stored /\
  Forall2 (fun i row =>
             exists sc orig,
               nth_error (similarities vec X query) i = Some sc /\
               nth_error (rows stored) i = Some orig /\
               row = inl sc :: map inr orig)
          idx (rows t).

(** The index holds nothing and no workbook is loaded. *)
Definition no_workbook (st : app_state) : Prop :=
  SHEETS st = [] /\ SEM st = TfIdfSemantic.init.

End SemVocabulary.

(** ** A runtime for ASCII text

    The examples run on a runtime whose strings are ASCII: [lower] and
    the comparison under [re.IGNORECASE] only know the letters A-Z, and
    [\d] only the digits 0-9.  Its pattern compiler reads the part of
    the pattern syntax listed at [Parse.parse]. *)

Module Ascii.

Definition is_upper (c : codepoint) : bool := N.leb (ch "A") c && N.leb c (ch "Z").
Definition is_lower (c : codepoint) : bool := N.leb (ch "a") c && N.leb c (ch "z").
Definition is_digit (c : codepoint) : bool := N.leb (ch "0") c && N.leb c (ch "9").

Definition lower_char (c : codepoint) : codepoint :=
  if is_upper c then (c + 32)%N else c.

Definition lower (s : pystr) : pystr := map lower_char s.

(** The characters equal to [c] when case is ignored. *)
Definition variants (c : codepoint) : list codepoint :=
  if is_upper c then [c; (c + 32)%N]
  else if is_lower c then [c; (c - 32)%N]
  else [c].

End Ascii.

(** The pattern syntax covered: literal characters, [.], [^], [$],
    [\d], a backslash before a character that is not an ASCII letter or
    digit, the greedy repeats [*], [+] and [?], [|] and plain groups.
    The errors of that syntax are the ones [re.compile] reports: a
    parenthesis without its partner, a repeat with nothing to repeat, a
    repeat of a repeat, a backslash at the end.  Every other construct
    (character sets, counted and lazy repeats, group extensions, the
    other escapes) is answered [NotCovered]. *)

Module Parse.

Import Re.

Inductive parsed :=
| Compiled (r : regex)
| Malformed
| NotCovered.

Inductive kind := Atom | Anchor | Repeat.

(** An open group: its finished alternatives and the items of the
    alternative being read, both last first. *)
Record frame := {
  alts : list regex;
  items : list (regex * kind)
}.

Definition no_frame : frame := {| alts := []; items := [] |}.

Definition branch (its : list (regex * kind)) : regex :=
  fold_left (fun acc it => Seq (fst it) acc) its Eps.

Definition close (f : frame) : regex :=
  fold_left (fun acc r => Alt r acc) (alts f) (branch (items f)).

Definition push (r : regex) (k : kind) (f : frame) : frame :=
  {| alts := alts f; items := (r, k) :: items f |}.

Definition next_branch (f : frame) : frame :=
  {| alts := branch (items f) :: alts f; items := [] |}.

Definition is_repeat (c : codepoint) : bool :=
  N.eqb c (ch "*") || N.eqb c (ch "+") || N.eqb c (ch "?").

Definition quantify (c : codepoint) (r : regex) : regex :=
  if N.eqb c (ch "*") then Star r
  else if N.eqb c (ch "+") then Plus r
  else Opt r.

Definition is_alnum (c : codepoint) : bool :=
  Ascii.is_upper c || Ascii.is_lower c || Ascii.is_digit c.

Fixpoint parse_loop (s : pystr) (cur : frame) (stack : list frame) : parsed :=
  match s with
  | [] =>
      match stack with
      | [] => Compiled (close cur)
      | _ :: _ => Malformed                    (* missing ) *)
      end
  | c :: s' =>
      if N.eqb c (ch "(") then
        match s' with
        | d :: _ => if N.eqb d (ch "?") then NotCovered
                    else parse_loop s' no_frame (cur :: stack)
        | [] => parse_loop s' no_frame (cur :: stack)
        end
      else if N.eqb c (ch ")") then
        match stack with
        | [] => Malformed                      (* unbalanced parenthesis *)
        | parent :: stack' => parse_loop s' (push (close cur) Atom parent) stack'
        end
      else if N.eqb c (ch "|") then parse_loop s' (next_branch cur) stack
      else if is_repeat c then
        match items cur with
        | (r, Atom) :: rest =>
            match s' with
            | d :: _ =>
                if N.eqb d (ch "?") || N.eqb d (ch "+") then NotCovered
                else parse_loop s'
                       {| alts := alts cur; items := (quantify c r, Repeat) :: rest |}
                       stack
            | [] => parse_loop s'
                      {| alts := alts cur; items := (quantify c r, Repeat) :: rest |}
                      stack
            end
        | _ => Malformed                       (* nothing to repeat, multiple repeat *)
        end
      else if N.eqb c (ch "\") then
        match s' with
        | [] => Malformed                      (* bad escape (end of pattern) *)
        | e :: s'' =>
            if N.eqb e (ch "d") then parse_loop s'' (push (Cls false [CDigit]) Atom cur) stack
            else if is_alnum e then NotCovered
            else parse_loop s'' (push (Lit e) Atom cur) stack
        end
      else if N.eqb c (ch ".") then parse_loop s' (push AnyChar Atom cur) stack
      else if N.eqb c (ch "^") then parse_loop s' (push Bol Anchor cur) stack
      else if N.eqb c (ch "$") then parse_loop s' (push Eol Anchor cur) stack
      else if N.eqb c (ch "[") || N.eqb c (ch "{") then NotCovered
      else parse_loop s' (push (Lit c) Atom cur) stack
  end.

Definition parse (pat : pystr) : parsed := parse_loop pat no_frame [].

(** A character with no meaning of its own in a pattern. *)
Definition plain_char (c : codepoint) : bool :=
  negb (N.eqb c (ch "(") || N.eqb c (ch ")") || N.eqb c (ch "|") ||
        is_repeat c || N.eqb c (ch "\") || N.eqb c (ch ".") ||
        N.eqb c (ch "^") || N.eqb c (ch "$") ||
        N.eqb c (ch "[") || N.eqb c (ch "{")).

(** The pattern of a word: its characters one after the other. *)
Definition word (q : pystr) : regex :=
  fold_right (fun c acc => Seq (Lit c) acc) Eps q.

End Parse.

(** [re.compile] of the ASCII runtime.  A pattern outside the covered
    syntax is answered like a malformed one; the examples only use
    patterns that are covered. *)
Definition ascii_compile (pat : pystr) : option Re.regex :=
  match Parse.parse pat with
  | Parse.Compiled r => Some r
  | _ => None
  end.

Definition ascii_runtime : Runtime := {|
  cell := pystr;
  py_str := fun s => s;
  str_lower := Ascii.lower;
  is_decimal := Ascii.is_digit;
  pattern := Re.regex;
  re_compile := ascii_compile;
  re_search := Re.finds Ascii.is_digit Ascii.variants
|}.

(** ** A small vectorizer for the examples

    Documents are split as [TfidfVectorizer] splits them by default:
    lower-cased runs of two or more word characters (here ASCII letters,
    digits and the underscore).  Fitting documents that hold no such run
    raises [ValueError], as an empty vocabulary does.  The score of a
    row is the number of query terms it holds: an integer that stands in
    for the cosine similarity, which the properties below never
    inspect. *)

Module Terms.

Definition is_word (c : codepoint) : bool :=
  Parse.is_alnum c || N.eqb c (ch "_").

Definition flush (cur : pystr) : list pystr :=
  if (2 <=? length cur)%nat then [rev cur] else [].

Fixpoint tokens_from (s : pystr) (cur : pystr) : list pystr :=
  match s with
  | [] => flush cur
  | c :: s' =>
      if is_word c then tokens_from s' (Ascii.lower_char c :: cur)
      else flush cur ++ tokens_from s' []
  end.

Definition tokens (s : pystr) : list pystr := tokens_from s [].

Definition has_term (doc : list pystr) (term : pystr) : bool :=
  existsb (pystr_eqb term) doc.

Definition fit (texts : list pystr) : result (list pystr * list (list pystr)) :=
  let docs := map tokens texts in
  match concat docs with
  | [] => Raise ValueError
  | vocabulary => Ok (vocabulary, docs)
  end.

Definition overlap (vocabulary : list pystr) (docs : list (list pystr))
           (query : pystr) : list nat :=
  let terms := filter (has_term vocabulary) (tokens query) in
  map (fun doc => length (filter (has_term doc) terms)) docs.

(** Positions sorted by their value, smallest first. *)
Fixpoint insert_by (a : list nat) (i : nat) (sorted_idx : list nat) : list nat :=
  match sorted_idx with
  | [] => [i]
  | j :: rest =>
      if (nth i a 0 <=? nth j a 0)%nat then i :: sorted_idx
      else j :: insert_by a i rest
  end.

Definition argsort (a : list nat) : list nat :=
  fold_right (insert_by a) [] (seq 0 (length a)).

End Terms.

Definition term_lib : SemLib := {|
  vectorizer := list pystr;
  matrix := list (list pystr);
  score := nat;
  score_leb := Nat.leb;
  fit_transform := Terms.fit;
  shape0 := fun X => length X;
  similarities := Terms.overlap;
  argsort := Terms.argsort
|}.

(** An upload is a workbook already parsed, or a file that cannot be. *)
Definition read_parsed (raw : option (dict (DataFrame pystr)))
  : result (dict (DataFrame (@cell ascii_runtime))) :=
  match raw with
  | Some sheets => Ok sheets
  | None => Raise ValueError
  end.

Definition parsed_loader : @Loader ascii_runtime :=
  @Build_Loader ascii_runtime (option (dict (DataFrame pystr))) read_parsed.

(** ** Example workbooks *)

Local Open Scope string_scope.

Definition table (cols : list string) (cells : list (list string)) : DataFrame pystr :=
  {| columns := map of_string cols; rows := map (map of_string) cells |}.

(** The sheet of the specification's example. *)
Definition parts : DataFrame pystr :=
  table ["id"; "name"]
        [["AB007"; "Bolt"]; ["AB107"; "Bolt Long"]; ["CD007"; "Nut"]].

Definition parts_book : dict (DataFrame pystr) := [(of_string "Parts", parts)].

(** Two sheets with two matches of [bolt] each. *)
Definition two_sheets : dict (DataFrame pystr) :=
  [(of_string "B", table ["name"] [["bolt"]; ["nut"]; ["Bolt M4"]]);
   (of_string "A", table ["name"] [["Bolt"]; ["bolted"]])].

(** A workbook whose second sheet holds single characters only. *)
Definition letters_book : dict (DataFrame pystr) :=
  [(of_string "A", table ["name"] [["steel bolt"]; ["nut"]]);
   (of_string "B", table ["grade"] [["x"]; ["y"]])].

(** A sheet with a cell that the pattern [a.c] matches, and one with a
    cell that holds [a+b]. *)
Definition codes_book : dict (DataFrame pystr) :=
  [(of_string "Codes", table ["code"] [["abc"]; ["a+b"]])].

(** The sheet [Parts] beside a sheet that has a column and no row. *)
Definition mixed_book : dict (DataFrame pystr) :=
  [(of_string "Parts", parts); (of_string "Empty", table ["id"] [])].

(** The state that loading the sheet [Parts] leaves. *)
Definition parts_state : @app_state ascii_runtime term_lib :=
  @Build_app_state ascii_runtime term_lib parts_book
    (fst (@TfIdfSemantic.build ascii_runtime term_lib
            (@TfIdfSemantic.init ascii_runtime term_lib) parts_book (Some 5000%Z))).

(** The two sheets loaded, with nothing indexed. *)
Definition two_sheets_state : @app_state ascii_runtime term_lib :=
  @Build_app_state ascii_runtime term_lib two_sheets
    (@TfIdfSemantic.init ascii_runtime term_lib).

Local Close Scope string_scope.

(** [c.isspace()] on the ASCII runtime: tab to carriage return, the four
    separators and the space. *)
Definition ascii_is_space (c : codepoint) : bool :=
  (N.leb 9 c && N.leb c 13) || (N.leb 28 c && N.leb c 32).

Definition ascii_text : TextLib := {| is_space := ascii_is_space |}.

(** * Properties *)

Unset Implicit Arguments.

(** ** Strings and dictionaries *)

Lemma pystr_eqb_eq (a b : pystr) : pystr_eqb a b = true <-> a = b.
Proof.
  revert b; induction a as [|x a IH]; intros [|y b]; simpl; split;
    try congruence; try reflexivity.
  - intros H. apply andb_true_iff in H as [Hx Hab].
    apply N.eqb_eq in Hx. apply IH in Hab. congruence.
  - intros H. injection H as -> ->. rewrite N.eqb_refl. simpl.
    apply IH. reflexivity.
Qed.

Lemma pystr_eqb_refl (a : pystr) : pystr_eqb a a = true.
Proof. apply pystr_eqb_eq. reflexivity. Qed.

Lemma pystr_eqb_neq (a b : pystr) : a <> b -> pystr_eqb a b = false.
Proof.
  intros H. destruct (pystr_eqb a b) eqn:E; [|reflexivity].
  apply pystr_eqb_eq in E. contradiction.
Qed.

Section DictFacts.

  Variable V : Type.
  Implicit Types (d : dict V) (k : pystr) (v : V).

Lemma dict_get_set_same k v d : dict_get k (dict_set k v d) = Some v.
Proof.
  induction d as [|[k' v'] d IH]; simpl.
  - rewrite pystr_eqb_refl. reflexivity.
  - destruct (pystr_eqb k' k) eqn:E; simpl.
    + rewrite pystr_eqb_refl. reflexivity.
    + rewrite E. exact IH.
Qed.

Lemma dict_get_set_other k k' v d :
  k' <> k -> dict_get k' (dict_set k v d) = dict_get k' d.
Proof.
  intros Hne. induction d as [|[k0 v0] d IH]; simpl.
  - rewrite pystr_eqb_neq by congruence. reflexivity.
  - destruct (pystr_eqb k0 k) eqn:E; simpl.
    + apply pystr_eqb_eq in E. subst k0.
      rewrite !pystr_eqb_neq by congruence. reflexivity.
    + destruct (pystr_eqb k0 k'); [reflexivity | exact IH].
Qed.

Lemma dict_get_None k d : dict_get k d = None <-> ~ In k (keys d).
Proof.
  induction d as [|[k' v'] d IH]; simpl.
  - tauto.
  - destruct (pystr_eqb k' k) eqn:E.
    + apply pystr_eqb_eq in E. split; [discriminate | tauto].
    + assert (k' <> k) by (intros ->; rewrite pystr_eqb_refl in E; discriminate).
      tauto.
Qed.

Lemma dict_get_Some_In k v d : dict_get k d = Some v -> In (k, v) d.
Proof.
  induction d as [|[k' v'] d IH]; simpl; [discriminate|].
  destruct (pystr_eqb k' k) eqn:E.
  - apply pystr_eqb_eq in E. intros [= ->]. left. congruence.
  - auto.
Qed.

Lemma dict_get_In k v d : NoDup (keys d) -> In (k, v) d -> dict_get k d = Some v.
Proof.
  induction d as [|[k' v'] d IH]; simpl; [tauto|].
  intros Hnd [Heq | Hin].
  - injection Heq as -> ->. rewrite pystr_eqb_refl. reflexivity.
  - inversion Hnd as [|? ? Hnotin Hnd']; subst.
    rewrite pystr_eqb_neq; [auto|].
    intros ->. apply Hnotin. apply (in_map fst) in Hin. exact Hin.
Qed.

Lemma dict_set_fresh k v d : ~ In k (keys d) -> dict_set k v d = d ++ [(k, v)].
Proof.
  induction d as [|[k' v'] d IH]; simpl; [reflexivity|].
  intros Hn. rewrite pystr_eqb_neq by tauto. rewrite IH by tauto. reflexivity.
Qed.

Lemma keys_app d1 d2 : keys (d1 ++ d2) = keys d1 ++ keys d2.
Proof. apply map_app. Qed.

End DictFacts.

(** ** Sequences *)

Lemma slice_to_length_le {A} (n : Z) (l : list A) :
  (length (slice_to n l) <= length l)%nat.
Proof.
  unfold slice_to. destruct (0 <=? n)%Z; rewrite length_firstn; lia.
Qed.

Lemma slice_to_bound {A} (n : Z) (l : list A) :
  (0 <= n)%Z -> (Z.of_nat (length (slice_to n l)) <= n)%Z.
Proof.
  intros Hn. unfold slice_to.
  destruct (0 <=? n)%Z eqn:E; [|apply Z.leb_gt in E; lia].
  rewrite length_firstn. lia.
Qed.

Lemma slice_to_prefix {A} (n : Z) (l : list A) :
  exists k, slice_to n l = firstn k l.
Proof. unfold slice_to. destruct (0 <=? n)%Z; eexists; reflexivity. Qed.

Lemma slice_to_incl {A} (n : Z) (l : list A) x : In x (slice_to n l) -> In x l.
Proof.
  destruct (slice_to_prefix n l) as [k ->]. intros H.
  rewrite <- (firstn_skipn k l). apply in_or_app. left. exact H.
Qed.

Lemma select_map {A} (f : A -> bool) (l : list A) :
  select (map f l) l = filter f l.
Proof.
  induction l as [|x l IH]; simpl; [reflexivity|].
  destruct (f x); rewrite IH; reflexivity.
Qed.

Lemma mask_sum_map {A} (f : A -> bool) (l : list A) :
  mask_sum (map f l) = Z.of_nat (length (filter f l)).
Proof.
  unfold mask_sum. f_equal.
  induction l as [|x l IH]; simpl; [reflexivity|].
  destruct (f x); simpl; rewrite IH; reflexivity.
Qed.

Lemma series_or_map {A} (f g : A -> bool) (l : list A) :
  series_or (map f l) (map g l) = map (fun x => f x || g x) l.
Proof. induction l as [|x l IH]; simpl; [|rewrite IH]; reflexivity. Qed.

Lemma fold_series_or {A} (t : nat -> A -> bool) (cs : list nat) (l : list A) :
  forall g : A -> bool,
    fold_left series_or (map (fun c => map (t c) l) cs) (map g l) =
    map (fun x => g x || existsb (fun c => t c x) cs) l.
Proof.
  induction cs as [|c cs IH]; intros g; simpl.
  - apply map_ext. intros x. rewrite orb_false_r. reflexivity.
  - rewrite series_or_map, IH. apply map_ext. intros x.
    rewrite orb_assoc. reflexivity.
Qed.

Lemma existsb_nth_error {A} (t : option A -> bool) (row : list A) :
  existsb (fun c => t (nth_error row c)) (seq 0 (length row)) =
  existsb (fun x => t (Some x)) row.
Proof.
  induction row as [|x row IH]; simpl; [reflexivity|].
  f_equal. rewrite <- IH, <- seq_shift.
  generalize (seq 0 (length row)) as cs.
  induction cs as [|c cs IHc]; simpl; [|rewrite IHc]; reflexivity.
Qed.

Lemma mapM_total {A B} (g : A -> B) (l : list A) :
  mapM (fun x => Ok (g x)) l = Ok (map g l).
Proof. induction l as [|x l IH]; simpl; [|rewrite IH]; reflexivity. Qed.

(** ** The mask of a sheet *)

Section KeywordFacts.

  Context {R : Runtime}.

Lemma cell_matches_test q t s : cell_test q = Ok t -> cell_matches q s = t s.
Proof. unfold cell_matches. intros ->. reflexivity. Qed.

Lemma fold_columns_any (t : option pystr -> bool) (df : DataFrame cell) :
  rectangular df -> length (columns df) <> 0%nat ->
  match map (fun c => map t (column (_coerce_to_str df) c))
            (seq 0 (length (columns df))) with
  | [] => Raise IndexError
  | mask :: rest => Ok (fold_left series_or rest mask)
  end = Ok (map (existsb (fun c => t (Some (py_str c)))) (rows df)).
Proof.
  intros Hrect Hc.
  destruct (length (columns df)) as [|m] eqn:Hlen; [contradiction|].
  unfold column, _coerce_to_str; simpl rows.
  set (tc := fun (c : nat) (row : list cell) => t (nth_error (map py_str row) c)).
  assert (Hcol : forall c,
             map t (map (fun row => nth_error row c) (map (map py_str) (rows df)))
             = map (tc c) (rows df)).
  { intros c. rewrite !map_map. reflexivity. }
  cbn [seq map]. rewrite Hcol.
  rewrite (map_ext _ _ (fun c => Hcol c)).
  rewrite fold_series_or. f_equal.
  apply map_ext_in. intros row Hin.
  unfold rectangular in Hrect. rewrite Forall_forall in Hrect.
  specialize (Hrect row Hin). rewrite Hlen in Hrect.
  change (tc 0%nat row || existsb (fun c => tc c row) (seq 1 m))
    with (existsb (fun c => tc c row) (seq 0 (S m))).
  unfold tc. rewrite <- Hrect, <- (length_map py_str row).
  rewrite existsb_nth_error.
  induction row as [|x row IH]; simpl; [reflexivity|].
  f_equal.
  clear. induction row as [|y row IH]; simpl; [|rewrite IH]; reflexivity.
Qed.

Lemma fold_columns (t : option pystr -> bool) (df : DataFrame cell) :
  rectangular df -> df_empty df = false ->
  match map (fun c => map t (column (_coerce_to_str df) c))
            (seq 0 (length (columns df))) with
  | [] => Raise IndexError
  | mask :: rest => Ok (fold_left series_or rest mask)
  end = Ok (map (existsb (fun c => t (Some (py_str c)))) (rows df)).
Proof.
  intros Hrect Hne. apply fold_columns_any; [exact Hrect|].
  unfold df_empty in Hne.
  apply orb_false_iff in Hne as [Hc _]. apply Nat.eqb_neq in Hc. exact Hc.
Qed.

(** On a non-empty table the mask is the row-wise test, or the raise of
    the policy. *)
Lemma keyword_match_mask_spec (df : DataFrame cell) (q : pystr) :
  rectangular df -> df_empty df = false ->
  keyword_match_mask df q =
  match cell_test q with
  | Ok _ => Ok (map (row_matches q) (rows df))
  | Raise e => Raise e
  end.
Proof.
  intros Hrect Hne. unfold keyword_match_mask, cell_test, row_matches, cell_matches, cell_test.
  destruct (_looks_like_id q) eqn:Hid.
  - cbn [bind]. unfold str_lower_eq.
    exact (fold_columns
             (fun x => match x with
                       | Some s => pystr_eqb (str_lower s) (str_lower q)
                       | None => false
                       end) df Hrect Hne).
  - unfold str_contains. destruct (re_compile q) as [pat|] eqn:Hc.
    + rewrite mapM_total. cbn [bind].
      exact (fold_columns
               (fun x => match x with
                         | Some s => re_search pat s
                         | None => false
                         end) df Hrect Hne).
    + unfold df_empty in Hne. apply orb_false_iff in Hne as [Hcols _].
      apply Nat.eqb_neq in Hcols. simpl columns.
      destruct (length (columns df)); [contradiction|]. reflexivity.
Qed.

End KeywordFacts.

(** ** The first loop *)

Section ScanFacts.

  Context {R : Runtime}.

Lemma empty_sheet_count q (df : DataFrame cell) :
  rectangular df -> df_empty df = true -> sheet_count q df = 0%Z.
Proof.
  intros Hrect He. unfold sheet_count, matching_rows.
  unfold df_empty in He. apply orb_true_iff in He as [Hc | Hr].
  - apply Nat.eqb_eq in Hc. unfold rectangular in Hrect. rewrite Hc in Hrect.
    induction Hrect as [|row rs Hrow _ IH]; simpl; [reflexivity|].
    destruct row; [simpl; exact IH | discriminate].
  - apply Nat.eqb_eq in Hr. destruct (rows df); [reflexivity | discriminate].
Qed.

Lemma scan_sheet_spec q psc results counts total name (df : DataFrame cell) :
  rectangular df ->
  scan_sheet q psc (results, counts, total) (name, df) =
  if df_empty df then Ok (results, dict_set name 0%Z counts, total)
  else
    match cell_test q with
    | Ok _ =>
        Ok (if (0 <? sheet_count q df)%Z
            then dict_set name (candidate q psc df) results
            else results,
            dict_set name (sheet_count q df) counts,
            (total + sheet_count q df)%Z)
    | Raise e => Raise e
    end.
Proof.
  intros Hrect. unfold scan_sheet.
  destruct (df_empty df) eqn:He; [reflexivity|].
  rewrite (keyword_match_mask_spec df q Hrect He).
  destruct (cell_test q) as [t|e]; [|reflexivity].
  cbn [bind]. rewrite mask_sum_map.
  fold (matching_rows q df). fold (sheet_count q df).
  destruct (0 <? sheet_count q df)%Z; [|reflexivity].
  unfold df_head, df_loc, candidate, matching_rows; simpl.
  rewrite select_map. reflexivity.
Qed.

Lemma all_empty_cons item (sheets : dict (DataFrame cell)) :
  all_empty (item :: sheets) = df_empty (snd item) && all_empty sheets.
Proof. reflexivity. Qed.

(** The loop from any state whose keys are not sheet names. *)
Lemma foldM_scan_ok q psc (sheets : dict (DataFrame cell)) :
  forall results counts total,
    workbook sheets ->
    (forall n, In n (keys sheets) -> ~ In n (keys results) /\ ~ In n (keys counts)) ->
    all_empty sheets = true \/ (exists t, cell_test q = Ok t) ->
    foldM (scan_sheet q psc) sheets (results, counts, total) =
    Ok (results ++ cands_of q psc sheets,
        counts ++ counts_of q sheets,
        (total + zsum (values (counts_of q sheets)))%Z).
Proof.
  induction sheets as [|[name df] sheets IH]; intros results counts total Hwb Hfresh Hok.
  - simpl. rewrite !app_nil_r, Z.add_0_r. reflexivity.
  - destruct Hwb as [Hnd Hrect].
    inversion Hnd as [|? ? Hnotin Hnd']; subst.
    inversion Hrect as [|? ? Hr Hrect']; subst. simpl in Hr.
    destruct (Hfresh name (or_introl eq_refl)) as [Hfr Hfc].
    assert (Hwb' : workbook sheets) by (split; assumption).
    cbn [foldM]. rewrite (scan_sheet_spec q psc results counts total name df Hr).
    assert (Hstep : forall results' total',
               keys results' = keys results \/ keys results' = keys results ++ [name] ->
               foldM (scan_sheet q psc) sheets
                     (results', dict_set name (sheet_count q df) counts, total') =
               Ok (results' ++ cands_of q psc sheets,
                   (counts ++ [(name, sheet_count q df)]) ++ counts_of q sheets,
                   (total' + zsum (values (counts_of q sheets)))%Z)).
    { intros results' total' Hk.
      rewrite (dict_set_fresh _ _ _ _ Hfc).
      apply IH; [exact Hwb' | | ].
      - intros n Hn.
        assert (n <> name) by (intros ->; contradiction).
        destruct (Hfresh n (or_intror Hn)) as [Hn1 Hn2].
        split.
        + destruct Hk as [Hk | Hk]; rewrite Hk; [exact Hn1|].
          rewrite in_app_iff. simpl. intuition congruence.
        + rewrite keys_app, in_app_iff. simpl. intuition congruence.
      - destruct Hok as [Hall | Ht]; [|right; exact Ht].
        left. rewrite all_empty_cons in Hall.
        apply andb_true_iff in Hall. tauto. }
    destruct (df_empty df) eqn:He.
    + cbn [bind]. rewrite <- (empty_sheet_count q df Hr He). rewrite Hstep by (left; reflexivity).
      unfold cands_of, counts_of; cbn [flat_map map fst snd values zsum fold_right].
      rewrite (empty_sheet_count q df Hr He). cbn [Z.ltb Z.compare app].
      rewrite <- app_assoc. reflexivity.
    + destruct Hok as [Hall | [t Ht]].
      { rewrite all_empty_cons in Hall. simpl in Hall. rewrite He in Hall. discriminate. }
      rewrite Ht. cbn [bind].
      assert (Hsum : forall total',
                 (total' + zsum (values (counts_of q ((name, df) :: sheets))))%Z =
                 (total' + sheet_count q df + zsum (values (counts_of q sheets)))%Z).
      { intros total'. unfold counts_of, values, zsum. simpl. lia. }
      rewrite Hsum.
      unfold cands_of, counts_of; cbn [flat_map map fst snd].
      fold (counts_of q sheets). fold (cands_of q psc sheets).
      destruct (0 <? sheet_count q df)%Z.
      * rewrite Hstep.
        2:{ right. rewrite (dict_set_fresh _ _ _ _ Hfr). apply keys_app. }
        rewrite (dict_set_fresh _ _ _ _ Hfr), <- !app_assoc. reflexivity.
      * rewrite Hstep by (left; reflexivity).
        rewrite <- !app_assoc. reflexivity.
Qed.

Lemma foldM_scan_raise q psc e (sheets : dict (DataFrame cell)) :
  forall st,
    Forall (fun item => rectangular (snd item)) sheets ->
    cell_test q = Raise e -> all_empty sheets = false ->
    foldM (scan_sheet q psc) sheets st = Raise e.
Proof.
  induction sheets as [|[name df] sheets IH]; intros [[results counts] total] Hrect Ht Hne.
  - discriminate.
  - inversion Hrect as [|? ? Hr Hrect']; subst. simpl in Hr.
    cbn [foldM]. rewrite (scan_sheet_spec q psc results counts total name df Hr).
    rewrite all_empty_cons in Hne. simpl in Hne.
    destruct (df_empty df); simpl in Hne.
    + cbn [bind]. apply IH; assumption.
    + rewrite Ht. reflexivity.
Qed.

(** [scan] either returns the closed form or raises what the policy
    raises, and it raises only on a sheet that is not empty. *)
Lemma scan_spec q psc (sheets : dict (DataFrame cell)) :
  workbook sheets ->
  match scan sheets q psc with
  | Ok st => st = (cands_of q psc sheets, counts_of q sheets,
                   zsum (values (counts_of q sheets)))
  | Raise e => cell_test q = Raise e /\ all_empty sheets = false
  end.
Proof.
  intros Hwb. unfold scan.
  destruct (all_empty sheets) eqn:Hall.
  - rewrite foldM_scan_ok; auto; intros n _; simpl; tauto.
  - destruct (cell_test q) as [t|e] eqn:Ht.
    + rewrite foldM_scan_ok; eauto; intros n _; simpl; tauto.
    + rewrite (foldM_scan_raise q psc e sheets _ (proj2 Hwb) Ht Hall). auto.
Qed.

End ScanFacts.

(** ** Sorting sheet names *)

Lemma pystr_leb_total (a b : pystr) : pystr_leb a b = false -> pystr_leb b a = true.
Proof.
  revert b; induction a as [|x a IH]; intros [|y b]; simpl; try congruence.
  intros H. apply orb_false_iff in H as [Hlt H].
  apply N.ltb_ge in Hlt.
  destruct (N.eqb x y) eqn:E; simpl in H.
  - apply N.eqb_eq in E. subst y. rewrite N.eqb_refl, (IH _ H).
    apply orb_true_r.
  - apply N.eqb_neq in E.
    assert (Hyx : (y < x)%N) by lia.
    apply N.ltb_lt in Hyx. rewrite Hyx. reflexivity.
Qed.

Lemma insert_sorted_perm x l : Permutation (insert_sorted x l) (x :: l).
Proof.
  induction l as [|y l IH]; simpl; [reflexivity|].
  destruct (pystr_leb x y); [reflexivity|].
  rewrite IH. apply perm_swap.
Qed.

Lemma sorted_perm l : Permutation (sorted l) l.
Proof.
  induction l as [|x l IH]; simpl; [constructor|].
  rewrite insert_sorted_perm. constructor. exact IH.
Qed.

Lemma insert_sorted_Sorted x l : Sorted lex_le l -> Sorted lex_le (insert_sorted x l).
Proof.
  induction l as [|y l IH]; simpl; intros Hs.
  - repeat constructor.
  - destruct (pystr_leb x y) eqn:E.
    + constructor; [exact Hs | constructor; exact E].
    + inversion Hs as [|? ? Hs' Hhd]; subst.
      constructor; [apply IH; exact Hs'|].
      destruct l as [|z l]; simpl.
      * constructor. apply pystr_leb_total. exact E.
      * destruct (pystr_leb x z); constructor.
        -- apply pystr_leb_total. exact E.
        -- inversion Hhd; subst. assumption.
Qed.

Lemma sorted_Sorted l : Sorted lex_le (sorted l).
Proof.
  induction l as [|x l IH]; simpl; [constructor|].
  apply insert_sorted_Sorted. exact IH.
Qed.

(** ** The second loop *)

Section TrimFacts.

  Context {R : Runtime}.

  Implicit Types (cands acc results : dict (DataFrame cell)).

Lemma trim_spent names cands remaining acc :
  (remaining <= 0)%Z -> trim names cands remaining acc = Ok acc.
Proof.
  intros H. destruct names; simpl; [reflexivity|].
  apply Z.leb_le in H. rewrite H. reflexivity.
Qed.

Lemma trim_fill names : forall cands remaining acc,
  NoDup names ->
  (forall n, In n names -> ~ In n (keys acc)) ->
  (forall n, In n names -> In n (keys cands)) ->
  trim names cands remaining acc = Ok (acc ++ fill cands names remaining).
Proof.
  induction names as [|name names IH]; intros cands remaining acc Hnd Hfresh Hin.
  - simpl. rewrite app_nil_r. reflexivity.
  - inversion Hnd as [|? ? Hnotin Hnd']; subst.
    simpl. destruct (remaining <=? 0)%Z; [rewrite app_nil_r; reflexivity|].
    unfold dict_item.
    destruct (dict_get name cands) as [dfm|] eqn:Hget.
    2:{ apply dict_get_None in Hget. exfalso. apply Hget, Hin. left. reflexivity. }
    cbn [bind].
    assert (Hacc : forall t, dict_set name t acc = acc ++ [(name, t)]).
    { intros t. apply dict_set_fresh. apply Hfresh. left. reflexivity. }
    destruct (df_len dfm <=? remaining)%Z.
    + rewrite IH; [rewrite Hacc, <- app_assoc; reflexivity | exact Hnd' | | ].
      * intros n Hn. rewrite Hacc, keys_app, in_app_iff. simpl.
        intros [H | [H | []]].
        -- apply (Hfresh n); [right; exact Hn | exact H].
        -- subst n. contradiction.
      * intros n Hn. apply Hin. right. exact Hn.
    + rewrite trim_spent by lia. rewrite Hacc. reflexivity.
Qed.

Lemma fill_keys_prefix names : forall cands remaining,
  exists k, keys (fill cands names remaining) = firstn k names.
Proof.
  induction names as [|name names IH]; intros cands remaining; simpl.
  - exists 0%nat. reflexivity.
  - destruct (remaining <=? 0)%Z; [exists 0%nat; reflexivity|].
    destruct (dict_get name cands) as [dfm|]; [|exists 0%nat; reflexivity].
    destruct (df_len dfm <=? remaining)%Z.
    + destruct (IH cands (remaining - df_len dfm)%Z) as [k Hk].
      exists (S k). simpl. rewrite Hk. reflexivity.
    + exists 1%nat. simpl. destruct names; reflexivity.
Qed.

(** A table of the trimmed result is the candidate, or a leading part of
    it that is not empty. *)
Lemma fill_get names : forall cands remaining n t,
  NoDup names ->
  dict_get n (fill cands names remaining) = Some t ->
  exists dfm, dict_get n cands = Some dfm /\
    (t = dfm \/
     exists r, (0 < r < df_len dfm)%Z /\ (r <= remaining)%Z /\ t = df_head r dfm).
Proof.
  induction names as [|name names IH]; intros cands remaining n t Hnd; simpl; [discriminate|].
  inversion Hnd as [|? ? Hnotin Hnd']; subst.
  destruct (remaining <=? 0)%Z eqn:Hrem; [discriminate|].
  apply Z.leb_gt in Hrem.
  destruct (dict_get name cands) as [dfm|] eqn:Hget; [|discriminate].
  destruct (df_len dfm <=? remaining)%Z eqn:Hfit; simpl.
  - destruct (pystr_eqb name n) eqn:E.
    + apply pystr_eqb_eq in E. subst n. intros [= <-]. eauto.
    + intros H. destruct (IH _ _ _ _ Hnd' H) as [d [Hd Hcase]].
      exists d. split; [exact Hd|].
      destruct Hcase as [-> | [r [Hr [Hle ->]]]]; [left; reflexivity|].
      right. exists r. apply Z.leb_le in Hfit.
      assert (0 <= df_len dfm)%Z by (unfold df_len; lia).
      repeat split; try lia.
  - apply Z.leb_gt in Hfit.
    destruct (pystr_eqb name n) eqn:E; [|discriminate].
    apply pystr_eqb_eq in E. subst n. intros [= <-].
    exists dfm. split; [exact Hget|]. right. exists remaining.
    repeat split; lia.
Qed.

Lemma total_rows_cons name (t : DataFrame cell) d :
  total_rows ((name, t) :: d) = (df_len t + total_rows d)%Z.
Proof. reflexivity. Qed.

Lemma fill_total names : forall cands remaining,
  (0 <= remaining)%Z -> (total_rows (fill cands names remaining) <= remaining)%Z.
Proof.
  induction names as [|name names IH]; intros cands remaining Hrem; simpl.
  - unfold total_rows; simpl; lia.
  - destruct (remaining <=? 0)%Z; [unfold total_rows; simpl; lia|].
    destruct (dict_get name cands) as [dfm|]; [|unfold total_rows; simpl; lia].
    destruct (df_len dfm <=? remaining)%Z eqn:Hfit.
    + apply Z.leb_le in Hfit. rewrite total_rows_cons.
      specialize (IH cands (remaining - df_len dfm)%Z). lia.
    + rewrite total_rows_cons. unfold total_rows at 1; simpl.
      unfold df_len, df_head; simpl.
      pose proof (slice_to_bound remaining (rows dfm) Hrem). lia.
Qed.

Lemma greedy_fill_ext cands results results' names : forall remaining,
  (forall n, In n names -> dict_get n results' = dict_get n results) ->
  greedy_fill cands results remaining names ->
  greedy_fill cands results' remaining names.
Proof.
  intros remaining Hext Hg.
  induction Hg as [rem
                  | rem name names Hfit Hrows Hg IH
                  | rem name names Hcut Hrows Hlater].
  - constructor.
  - apply fill_whole; [exact Hfit | | apply IH; intros n Hn; apply Hext; right; exact Hn].
    unfold rows_of in *. rewrite Hext by (left; reflexivity). exact Hrows.
  - apply fill_cut; [exact Hcut | | ].
    + unfold rows_of in *. rewrite Hext by (left; reflexivity). exact Hrows.
    + intros later Hl. rewrite Hext by (right; exact Hl). apply Hlater. exact Hl.
Qed.

Lemma greedy_fill_spent cands names : forall remaining,
  (remaining <= 0)%Z -> greedy_fill cands [] remaining names.
Proof.
  induction names as [|name names IH]; intros remaining Hrem; [constructor|].
  destruct (Z_lt_le_dec remaining (Z.of_nat (length (rows_of cands name)))) as [Hlt | Hle].
  - apply fill_cut; [exact Hlt | | reflexivity].
    replace (Z.to_nat remaining) with 0%nat by lia. reflexivity.
  - assert (Hlen : length (rows_of cands name) = 0%nat) by lia.
    apply fill_whole; [exact Hle | | apply IH; lia].
    destruct (rows_of cands name); [reflexivity | discriminate].
Qed.

(** The second loop does what the specification says of the global cap. *)
Lemma fill_greedy names : forall cands remaining,
  NoDup names ->
  (forall n, In n names -> In n (keys cands)) ->
  greedy_fill cands (fill cands names remaining) remaining names.
Proof.
  induction names as [|name names IH]; intros cands remaining Hnd Hin; [constructor|].
  inversion Hnd as [|? ? Hnotin Hnd']; subst.
  simpl. destruct (remaining <=? 0)%Z eqn:Hrem.
  - apply greedy_fill_spent. apply Z.leb_le. exact Hrem.
  - apply Z.leb_gt in Hrem.
    destruct (dict_get name cands) as [dfm|] eqn:Hget.
    2:{ apply dict_get_None in Hget. exfalso. apply Hget, Hin. left. reflexivity. }
    assert (Hrows : rows_of cands name = rows dfm) by (unfold rows_of; rewrite Hget; reflexivity).
    destruct (df_len dfm <=? remaining)%Z eqn:Hfit.
    + apply Z.leb_le in Hfit.
      apply fill_whole.
      * rewrite Hrows. exact Hfit.
      * unfold rows_of at 1. simpl. rewrite pystr_eqb_refl. symmetry. exact Hrows.
      * rewrite Hrows. fold (df_len dfm).
        apply greedy_fill_ext with (results := fill cands names (remaining - df_len dfm)%Z).
        -- intros n Hn. simpl. rewrite pystr_eqb_neq; [reflexivity|].
           intros ->. contradiction.
        -- apply IH; [exact Hnd'|]. intros n Hn. apply Hin. right. exact Hn.
    + apply Z.leb_gt in Hfit.
      apply fill_cut.
      * rewrite Hrows. exact Hfit.
      * unfold rows_of at 1. simpl. rewrite pystr_eqb_refl. rewrite Hrows.
        unfold df_head, slice_to; simpl.
        destruct (0 <=? remaining)%Z eqn:E; [reflexivity|].
        apply Z.leb_gt in E. lia.
      * intros later Hl. simpl. rewrite pystr_eqb_neq; [reflexivity|].
        intros ->. contradiction.
Qed.

End TrimFacts.

(** ** The identifier pattern *)

Section PatternFacts.

  Variable decimal : codepoint -> bool.

  Local Abbreviation run := (Re.run decimal Re.plain).

Lemma run_seq r1 r2 bol s k :
  run (Re.Seq r1 r2) bol s k = run r1 bol s (fun b s' => run r2 b s' k).
Proof. reflexivity. Qed.

Lemma run_bol s k : run Re.Bol true s k = k true s.
Proof. reflexivity. Qed.

Lemma star_loop_reads a p (Ha : reads_one decimal a p) (l : pystr) :
  forall fuel bol s k,
    (length l <= fuel)%nat ->
    Forall (fun c => p c = true) l ->
    k (bol && match l with [] => true | _ => false end) s = true ->
    Re.star_loop (run a) fuel bol (l ++ s) k = true.
Proof.
  induction l as [|c l IH]; intros fuel bol s k Hfuel Hall Hk.
  - rewrite andb_true_r in Hk. destruct fuel; simpl; rewrite Hk; reflexivity.
  - destruct fuel as [|fuel]; [simpl in Hfuel; lia|].
    inversion Hall as [|? ? Hc Hall']; subst.
    rewrite andb_false_r in Hk.
    cbn [Re.star_loop app]. rewrite Ha, Hc. cbn [andb].
    assert (Hlt : (length (l ++ s) <? length (c :: l ++ s))%nat = true)
      by (apply Nat.ltb_lt; simpl; lia).
    rewrite Hlt. cbn [andb].
    rewrite IH; [apply orb_true_r | simpl in Hfuel; lia | exact Hall' | ].
    destruct l; exact Hk.
Qed.

Lemma run_star_reads a p (Ha : reads_one decimal a p) (l s : pystr) bol k :
  Forall (fun c => p c = true) l ->
  k (bol && match l with [] => true | _ => false end) s = true ->
  run (Re.Star a) bol (l ++ s) k = true.
Proof.
  intros Hall Hk. cbn [Re.run].
  apply (star_loop_reads a p Ha); [rewrite length_app; lia | exact Hall | exact Hk].
Qed.

Lemma run_plus_reads a p (Ha : reads_one decimal a p) (l s : pystr) bol k :
  l <> [] -> Forall (fun c => p c = true) l ->
  k false s = true ->
  run (Re.Plus a) bol (l ++ s) k = true.
Proof.
  intros Hne Hall Hk. destruct l as [|c l]; [contradiction|].
  inversion Hall as [|? ? Hc Hall']; subst.
  unfold Re.Plus. rewrite run_seq. cbn [app]. rewrite Ha, Hc. cbn [andb].
  apply (run_star_reads a p Ha); [exact Hall' | exact Hk].
Qed.

Lemma star_loop_reads_inv a p (Ha : reads_one decimal a p)
      (Hend : forall bol k, run a bol [] k = false) :
  forall fuel bol s k,
    Re.star_loop (run a) fuel bol s k = true ->
    exists l s',
      s = l ++ s' /\ Forall (fun c => p c = true) l /\
      k (bol && match l with [] => true | _ => false end) s' = true.
Proof.
  induction fuel as [|fuel IH]; intros bol s k H; cbn [Re.star_loop] in H;
    apply orb_true_iff in H; destruct H as [H | H].
  - exists [], s. rewrite andb_true_r. auto.
  - discriminate.
  - exists [], s. rewrite andb_true_r. auto.
  - destruct s as [|c s]; [rewrite Hend in H; discriminate|].
    rewrite Ha in H. apply andb_true_iff in H as [Hc H].
    apply andb_true_iff in H as [_ H].
    destruct (IH false s k H) as (l & s' & -> & Hall & Hk).
    exists (c :: l), s'. rewrite andb_false_r. auto.
Qed.

Lemma run_star_reads_inv a p (Ha : reads_one decimal a p)
      (Hend : forall bol k, run a bol [] k = false) bol s k :
  run (Re.Star a) bol s k = true ->
  exists l s',
    s = l ++ s' /\ Forall (fun c => p c = true) l /\
    k (bol && match l with [] => true | _ => false end) s' = true.
Proof. cbn [Re.run]. apply star_loop_reads_inv; assumption. Qed.

Lemma run_plus_reads_inv a p (Ha : reads_one decimal a p)
      (Hend : forall bol k, run a bol [] k = false) bol s k :
  run (Re.Plus a) bol s k = true ->
  exists l s',
    s = l ++ s' /\ l <> [] /\ Forall (fun c => p c = true) l /\
    k false s' = true.
Proof.
  unfold Re.Plus. rewrite run_seq. intros H.
  destruct s as [|c s]; [rewrite Hend in H; discriminate|].
  rewrite Ha in H. apply andb_true_iff in H as [Hc H].
  apply (run_star_reads_inv a p Ha Hend) in H as (l & s' & -> & Hall & Hk).
  exists (c :: l), s'. repeat split; auto. discriminate.
Qed.

End PatternFacts.

Section LooksLikeId.

  Context {R : Runtime}.

Lemma reads_letter :
  reads_one is_decimal
    (Re.Cls false [Re.CRange (ch "A") (ch "Z"); Re.CRange (ch "a") (ch "z")])
    is_letter.
Proof.
  intros bol c s k. cbn [Re.run]. f_equal.
  unfold is_letter. simpl. rewrite !orb_false_r. reflexivity.
Qed.

Lemma reads_zero : reads_one is_decimal (Re.Lit (ch "0")) (N.eqb (ch "0")).
Proof.
  intros bol c s k. cbn [Re.run]. f_equal. simpl. apply orb_false_r.
Qed.

Lemma reads_digit : reads_one is_decimal (Re.Cls false [Re.CDigit]) is_decimal.
Proof.
  intros bol c s k. cbn [Re.run]. f_equal. simpl. apply orb_false_r.
Qed.

(** Every string of the identifier pattern is classified as an identifier. *)
Lemma identifier_like_looks_like_id (q : pystr) :
  identifier_like q -> _looks_like_id q = true.
Proof.
  intros (letters & zeros & digits & -> & Hl & Hletters & Hzeros & Hd & Hdigits).
  unfold _looks_like_id, Re.matches, id_pattern.
  rewrite run_seq, run_bol, run_seq.
  apply (run_plus_reads _ _ _ reads_letter); [exact Hl | exact Hletters |].
  cbn beta. rewrite run_seq.
  apply (run_star_reads _ _ _ reads_zero).
  { eapply Forall_impl; [|exact Hzeros]. intros c ->. apply N.eqb_refl. }
  cbn beta. rewrite run_seq, <- (app_nil_r digits).
  apply (run_plus_reads _ _ _ reads_digit); [exact Hd | exact Hdigits |].
  reflexivity.
Qed.

(** What [_looks_like_id] accepts: the strings of the identifier
    pattern, each also with one newline after it. *)
Lemma looks_like_id_iff (q : pystr) :
  _looks_like_id q = true <->
  identifier_like q \/
  exists q', q = q' ++ [Re.newline] /\ identifier_like q'.
Proof.
  split.
  - unfold _looks_like_id, Re.matches, id_pattern.
    rewrite run_seq, run_bol, run_seq. intros H.
    apply (run_plus_reads_inv _ _ _ reads_letter) in H; [|reflexivity].
    destruct H as (letters & s1 & -> & Hl & Hletters & H).
    cbn beta in H. rewrite run_seq in H.
    apply (run_star_reads_inv _ _ _ reads_zero) in H; [|reflexivity].
    destruct H as (zeros & s2 & -> & Hzeros & H).
    cbn beta in H. rewrite run_seq in H.
    apply (run_plus_reads_inv _ _ _ reads_digit) in H; [|reflexivity].
    destruct H as (digits & s3 & -> & Hd & Hdigits & H).
    cbn [Re.run] in H. rewrite andb_true_r in H.
    assert (Hz : Forall (fun c => c = ch "0") zeros).
    { eapply Forall_impl; [|exact Hzeros]. intros c Hc.
      apply N.eqb_eq in Hc. symmetry. exact Hc. }
    destruct s3 as [|c [|c' s3]]; simpl in H; try discriminate.
    + left. exists letters, zeros, digits. rewrite app_nil_r. auto 10.
    + apply N.eqb_eq in H. subst c. right.
      exists (letters ++ zeros ++ digits). split.
      * rewrite <- !app_assoc. reflexivity.
      * exists letters, zeros, digits. auto 10.
  - intros [Hid | (q' & -> & Hid)].
    + apply identifier_like_looks_like_id. exact Hid.
    + destruct Hid as (letters & zeros & digits & -> & Hl & Hletters
                       & Hzeros & Hd & Hdigits).
      unfold _looks_like_id, Re.matches, id_pattern.
      rewrite run_seq, run_bol, run_seq, <- !app_assoc.
      apply (run_plus_reads _ _ _ reads_letter); [exact Hl | exact Hletters |].
      cbn beta. rewrite run_seq.
      apply (run_star_reads _ _ _ reads_zero).
      { eapply Forall_impl; [|exact Hzeros]. intros c ->. apply N.eqb_refl. }
      cbn beta. rewrite run_seq.
      apply (run_plus_reads _ _ _ reads_digit); [exact Hd | exact Hdigits |].
      reflexivity.
Qed.

End LooksLikeId.

(** ** [keyword_search] in closed form *)

Section SearchFacts.

  Context {R : Runtime}.

  Implicit Types (sheets : dict (DataFrame cell)).

Lemma keys_counts_of q sheets : keys (counts_of q sheets) = keys sheets.
Proof. unfold counts_of, keys. rewrite map_map. reflexivity. Qed.

Lemma counts_of_get q sheets name df :
  NoDup (keys sheets) -> In (name, df) sheets ->
  dict_get name (counts_of q sheets) = Some (sheet_count q df).
Proof.
  intros Hnd Hin. apply dict_get_In.
  - rewrite keys_counts_of. exact Hnd.
  - unfold counts_of. apply in_map_iff. exists (name, df). auto.
Qed.

Lemma sheet_count_nonneg q (df : DataFrame cell) : (0 <= sheet_count q df)%Z.
Proof. unfold sheet_count. lia. Qed.

Lemma cands_of_In q psc sheets name t :
  In (name, t) (cands_of q psc sheets) <->
  exists df, In (name, df) sheets /\ (0 < sheet_count q df)%Z /\
             t = candidate q psc df.
Proof.
  unfold cands_of. rewrite in_flat_map. split.
  - intros [[n df] [Hin Hc]]. simpl in Hc.
    destruct (0 <? sheet_count q df)%Z eqn:E; [|contradiction].
    destruct Hc as [[= <- <-] | []].
    exists df. apply Z.ltb_lt in E. auto.
  - intros [df (Hin & Hpos & ->)]. exists (name, df). split; [exact Hin|].
    simpl. apply Z.ltb_lt in Hpos. rewrite Hpos. left. reflexivity.
Qed.

Lemma keys_cands_of q psc sheets n :
  In n (keys (cands_of q psc sheets)) -> In n (keys sheets).
Proof.
  unfold keys. rewrite !in_map_iff. intros [[n' t] [<- Hin]].
  apply cands_of_In in Hin as [df [Hin _]].
  exists (n', df). auto.
Qed.

Lemma cands_of_NoDup q psc sheets :
  NoDup (keys sheets) -> NoDup (keys (cands_of q psc sheets)).
Proof.
  induction sheets as [|[n df] sheets IH]; intros Hnd; [constructor|].
  inversion Hnd as [|? ? Hnotin Hnd']; subst.
  unfold cands_of. cbn [flat_map fst snd].
  destruct (0 <? sheet_count q df)%Z; cbn [app]; [|apply IH; exact Hnd'].
  simpl. constructor; [|apply IH; exact Hnd'].
  intros Hin. apply Hnotin. eapply keys_cands_of. exact Hin.
Qed.

Lemma cands_of_get q psc sheets name t :
  NoDup (keys sheets) ->
  (dict_get name (cands_of q psc sheets) = Some t <->
   exists df, In (name, df) sheets /\ (0 < sheet_count q df)%Z /\
              t = candidate q psc df).
Proof.
  intros Hnd. rewrite <- cands_of_In. split.
  - apply dict_get_Some_In.
  - apply dict_get_In, cands_of_NoDup. exact Hnd.
Qed.

Lemma candidate_len q psc (df : DataFrame cell) :
  (df_len (candidate q psc df) <= sheet_count q df)%Z.
Proof.
  unfold df_len, candidate, sheet_count. simpl.
  pose proof (slice_to_length_le psc (matching_rows q df)). lia.
Qed.

Lemma cands_total_le q psc sheets :
  (total_rows (cands_of q psc sheets) <= zsum (values (counts_of q sheets)))%Z.
Proof.
  induction sheets as [|[n df] sheets IH]; [unfold total_rows; simpl; lia|].
  unfold cands_of, counts_of. cbn [flat_map map fst snd values zsum fold_right].
  fold (cands_of q psc sheets). fold (counts_of q sheets).
  change (fold_right Z.add 0%Z (map snd (counts_of q sheets)))
    with (zsum (values (counts_of q sheets))).
  pose proof (sheet_count_nonneg q df).
  destruct (0 <? sheet_count q df)%Z; cbn [app].
  - rewrite total_rows_cons. pose proof (candidate_len q psc df). lia.
  - lia.
Qed.

Lemma keyword_search_spec sheets q psc tc :
  workbook sheets ->
  match keyword_search sheets q psc tc with
  | Ok (results, counts, total) =>
      counts = counts_of q sheets /\
      total = zsum (values (counts_of q sheets)) /\
      results = capped (cands_of q psc sheets)
                       (zsum (values (counts_of q sheets))) tc
  | Raise e => cell_test q = Raise e /\ all_empty sheets = false
  end.
Proof.
  intros Hwb. unfold keyword_search.
  pose proof (scan_spec q psc sheets Hwb) as Hscan.
  destruct (scan sheets q psc) as [[[cands counts] total]|e]; [|exact Hscan].
  injection Hscan as -> -> ->. cbn [bind].
  unfold capped. destruct tc as [cap|]; [|auto].
  cbn beta iota zeta.
  destruct (cap <? zsum (values (counts_of q sheets)))%Z; [|auto].
  rewrite trim_fill.
  - cbn [bind app]. auto.
  - apply (Permutation_NoDup (Permutation_sym (sorted_perm _))).
    apply cands_of_NoDup, Hwb.
  - intros n _. simpl. tauto.
  - intros n Hn. apply (Permutation_in _ (sorted_perm _)). exact Hn.
Qed.

(** [keyword_search] raises exactly when the query does not compile and
    some sheet is not empty. *)
Lemma keyword_search_raises sheets q psc tc e :
  workbook sheets ->
  (keyword_search sheets q psc tc = Raise e <->
   cell_test q = Raise e /\ all_empty sheets = false).
Proof.
  intros Hwb. split.
  - intros H. pose proof (keyword_search_spec sheets q psc tc Hwb) as Hspec.
    rewrite H in Hspec. exact Hspec.
  - intros [Ht Hne]. unfold keyword_search, scan.
    rewrite (foldM_scan_raise q psc e sheets _ (proj2 Hwb) Ht Hne). reflexivity.
Qed.

(** Every table of the result is the candidate of its sheet or a leading
    part of it that is not empty. *)
Lemma capped_get cands total tc name t :
  NoDup (keys cands) ->
  dict_get name (capped cands total tc) = Some t ->
  exists dfm, dict_get name cands = Some dfm /\
    (t = dfm \/ exists r, (0 < r < df_len dfm)%Z /\ t = df_head r dfm).
Proof.
  intros Hnd. unfold capped.
  destruct tc as [cap|]; [destruct (cap <? total)%Z|]; eauto.
  intros H. apply fill_get in H.
  - destruct H as [dfm [Hd [-> | [r [Hr [_ ->]]]]]]; eauto 6.
  - apply (Permutation_NoDup (Permutation_sym (sorted_perm _))). exact Hnd.
Qed.

Lemma capped_rows_incl cands total tc name row :
  NoDup (keys cands) ->
  In row (rows_of (capped cands total tc) name) -> In row (rows_of cands name).
Proof.
  intros Hnd. unfold rows_of at 1.
  destruct (dict_get name (capped cands total tc)) as [t|] eqn:Hget; [|contradiction].
  apply capped_get in Hget as [dfm [Hd Hcase]]; [|exact Hnd].
  unfold rows_of. rewrite Hd.
  destruct Hcase as [-> | [r [_ ->]]]; [tauto|].
  apply slice_to_incl.
Qed.

End SearchFacts.

(** ** The keyword engine *)

Section KeywordClaims.

  Context {R : Runtime}.

  Implicit Types (sheets : dict (DataFrame cell)).

Lemma cands_rows q psc sheets name row :
  workbook sheets ->
  In row (rows_of (cands_of q psc sheets) name) ->
  exists df, In (name, df) sheets /\ In row (rows df) /\ row_matches q row = true.
Proof.
  intros [Hnd _]. unfold rows_of.
  destruct (dict_get name (cands_of q psc sheets)) as [t|] eqn:Hget; [|contradiction].
  apply cands_of_get in Hget as [df (Hin & _ & ->)]; [|exact Hnd].
  simpl. intros Hrow. apply slice_to_incl in Hrow.
  unfold matching_rows in Hrow. apply filter_In in Hrow as [Hrow Hm].
  exists df. auto.
Qed.

Lemma result_rows q psc tc sheets name row total :
  workbook sheets ->
  In row (rows_of (capped (cands_of q psc sheets) total tc) name) ->
  exists df, In (name, df) sheets /\ In row (rows df) /\ row_matches q row = true.
Proof.
  intros Hwb Hrow. apply (cands_rows q psc); [exact Hwb|].
  eapply capped_rows_incl; [|exact Hrow].
  apply cands_of_NoDup, Hwb.
Qed.

(** For a query that is not classified as an identifier and that
    compiles, a row matches exactly when the compiled pattern is found
    in the string form of one of its cells. *)
Lemma pattern_policy q pat (row : list cell) :
  _looks_like_id q = false -> re_compile q = Some pat ->
  (row_matches q row = true <->
   exists c, In c row /\ re_search pat (py_str c) = true).
Proof.
  intros Hid Hc. unfold row_matches. rewrite existsb_exists.
  assert (Ht : cell_test q = Ok (re_search pat))
    by (unfold cell_test; rewrite Hid, Hc; reflexivity).
  split; intros [c [Hin Hm]]; exists c; split; try exact Hin.
  - rewrite (cell_matches_test q _ _ Ht) in Hm. exact Hm.
  - rewrite (cell_matches_test q _ _ Ht). exact Hm.
Qed.

(** C1. For every workbook and every query of the identifier pattern,
    [keyword_search] returns, and every row of every table it returns
    is a row of that sheet with a cell whose string form, lower-cased,
    is the whole lower-cased query: a cell that only contains the query
    does not bring its row in. *)
Theorem keyword_search_identifier_exact sheets q per_sheet_cap total_cap :
  workbook sheets -> identifier_like q ->
  exists results counts total,
    keyword_search sheets q per_sheet_cap total_cap = Ok (results, counts, total) /\
    forall name row,
      In row (rows_of results name) ->
      (exists df, In (name, df) sheets /\ In row (rows df)) /\
      (exists c, In c row /\ str_lower (py_str c) = str_lower q).
Proof.
  intros Hwb Hid.
  assert (Htest : cell_test q =
                  Ok (fun s => pystr_eqb (str_lower s) (str_lower q))).
  { unfold cell_test. rewrite (identifier_like_looks_like_id q Hid). reflexivity. }
  pose proof (keyword_search_spec sheets q per_sheet_cap total_cap Hwb) as Hspec.
  destruct (keyword_search sheets q per_sheet_cap total_cap)
    as [[[results counts] total]|e].
  2:{ destruct Hspec as [Hraise _]. rewrite Htest in Hraise. discriminate. }
  destruct Hspec as (-> & -> & ->).
  do 3 eexists. split; [reflexivity|].
  intros name row Hrow.
  apply result_rows in Hrow as [df (Hin & Hrow & Hm)]; [|exact Hwb].
  split; [eauto|].
  unfold row_matches in Hm. apply existsb_exists in Hm as [c [Hc Hm]].
  rewrite (cell_matches_test q _ _ Htest) in Hm.
  apply pystr_eqb_eq in Hm. eauto.
Qed.

Lemma all_empty_false sheets name df :
  In (name, df) sheets -> df_empty df = false -> all_empty sheets = false.
Proof.
  intros Hin He. destruct (all_empty sheets) eqn:E; [|reflexivity].
  unfold all_empty in E. rewrite forallb_forall in E.
  specialize (E _ Hin). simpl in E. congruence.
Qed.

(** C4. For every workbook, query and caps, the triple that
    [keyword_search] returns has [sum(counts.values()) == total], and
    the count of each sheet is the number of its matching rows, before
    the per-sheet cap and the global cap: the number of rows that the
    mask of the sheet selects. *)
Theorem keyword_search_counts_total sheets q per_sheet_cap total_cap :
  workbook sheets ->
  search_gives sheets q per_sheet_cap total_cap (fun results counts total =>
    zsum (values counts) = total /\
    forall name df,
      In (name, df) sheets ->
      dict_get name counts = Some (Z.of_nat (length (matching_rows q df))) /\
      (df_empty df = false ->
       keyword_match_mask df q = Ok (map (row_matches q) (rows df)))).
Proof.
  intros Hwb. unfold search_gives.
  pose proof (keyword_search_spec sheets q per_sheet_cap total_cap Hwb) as Hspec.
  destruct (keyword_search sheets q per_sheet_cap total_cap)
    as [[[results counts] total]|e] eqn:Hks; [|exact Hspec].
  destruct Hspec as (-> & -> & _). split; [reflexivity|].
  intros name df Hin. split; [apply counts_of_get; [apply Hwb | exact Hin]|].
  intros He.
  destruct Hwb as [Hnd Hrect]. rewrite Forall_forall in Hrect.
  rewrite (keyword_match_mask_spec df q (Hrect _ Hin) He).
  destruct (cell_test q) as [t|e] eqn:Ht; [reflexivity|].
  exfalso.
  assert (Hraise : keyword_search sheets q per_sheet_cap total_cap = Raise e).
  { apply keyword_search_raises.
    - split; [exact Hnd | apply Forall_forall; exact Hrect].
    - split; [exact Ht | apply (all_empty_false sheets name df Hin He)]. }
  rewrite Hks in Hraise. discriminate.
Qed.

(** C5, amended. For every workbook and query: when [per_sheet_cap] is
    not negative no returned table has more than [per_sheet_cap] rows,
    and when [total_cap] is a number that is not negative the returned
    tables hold at most [total_cap] rows together. *)
Theorem keyword_search_caps sheets q per_sheet_cap total_cap :
  workbook sheets ->
  search_gives sheets q per_sheet_cap total_cap (fun results counts total =>
    ((0 <= per_sheet_cap)%Z ->
     forall name t, dict_get name results = Some t ->
                    (df_len t <= per_sheet_cap)%Z) /\
    (forall cap, total_cap = Some cap -> (0 <= cap)%Z ->
                 (total_rows results <= cap)%Z)).
Proof.
  intros Hwb. unfold search_gives.
  pose proof (keyword_search_spec sheets q per_sheet_cap total_cap Hwb) as Hspec.
  destruct (keyword_search sheets q per_sheet_cap total_cap)
    as [[[results counts] total]|e]; [|exact Hspec].
  destruct Hspec as (-> & -> & ->). split.
  - intros Hcap name t Hget.
    apply capped_get in Hget as [dfm [Hd Hcase]]; [|apply cands_of_NoDup, Hwb].
    apply cands_of_get in Hd as [df (_ & _ & ->)]; [|apply Hwb].
    assert (Hlen : (df_len (candidate q per_sheet_cap df) <= per_sheet_cap)%Z).
    { unfold df_len, candidate. simpl. apply slice_to_bound. exact Hcap. }
    destruct Hcase as [-> | [r [Hr ->]]]; [exact Hlen|].
    unfold df_len, df_head in *. simpl in *.
    pose proof (slice_to_length_le r
                  (slice_to per_sheet_cap (matching_rows q df))). lia.
  - intros cap -> Hcap. unfold capped.
    destruct (cap <? zsum (values (counts_of q sheets)))%Z eqn:E.
    + apply fill_total. exact Hcap.
    + apply Z.ltb_ge in E.
      pose proof (cands_total_le q per_sheet_cap sheets). lia.
Qed.

(** C10. For every workbook, query and caps: [counts] has an entry for
    every sheet, 0 for an empty one; a key of [results] is a sheet that
    is not empty and has a matching row; and a table of [results] is
    empty only when the per-sheet cap left the sheet no row, so a sheet
    that the global cap leaves without rows is not a key. *)
Theorem keyword_search_keys sheets q per_sheet_cap total_cap :
  workbook sheets ->
  search_gives sheets q per_sheet_cap total_cap (fun results counts total =>
    keys counts = keys sheets /\
    (forall name df, In (name, df) sheets -> df_empty df = true ->
                     dict_get name counts = Some 0%Z) /\
    (forall name, In name (keys results) ->
       exists df, In (name, df) sheets /\ df_empty df = false /\
                  matching_rows q df <> [] /\
                  dict_get name counts = Some (sheet_count q df)) /\
    (forall name df t,
       In (name, df) sheets -> dict_get name results = Some t ->
       rows t = [] -> slice_to per_sheet_cap (matching_rows q df) = []) /\
    ((1 <= per_sheet_cap)%Z ->
     forall name t, dict_get name results = Some t -> rows t <> [])).
Proof.
  intros Hwb. unfold search_gives.
  pose proof (keyword_search_spec sheets q per_sheet_cap total_cap Hwb) as Hspec.
  destruct (keyword_search sheets q per_sheet_cap total_cap)
    as [[[results counts] total]|e]; [|exact Hspec].
  destruct Hspec as (-> & -> & ->).
  destruct Hwb as [Hnd Hrect].
  assert (Hkey : forall name t,
             dict_get name (capped (cands_of q per_sheet_cap sheets)
                                   (zsum (values (counts_of q sheets))) total_cap)
             = Some t ->
             exists df, In (name, df) sheets /\ (0 < sheet_count q df)%Z /\
               (t = candidate q per_sheet_cap df \/
                exists r, (0 < r < df_len (candidate q per_sheet_cap df))%Z /\
                          t = df_head r (candidate q per_sheet_cap df))).
  { intros name t Hget.
    apply capped_get in Hget as [dfm [Hd Hcase]]; [|apply cands_of_NoDup, Hnd].
    apply cands_of_get in Hd as [df (Hin & Hpos & ->)]; [|exact Hnd].
    eauto. }
  assert (Hpref : forall r df,
             (0 < r < df_len (candidate q per_sheet_cap df))%Z ->
             rows (df_head r (candidate q per_sheet_cap df)) <> []).
  { intros r df Hr Hnil. apply (f_equal (@length _)) in Hnil.
    unfold df_head, df_len, slice_to in *. simpl in *.
    destruct (0 <=? r)%Z eqn:E; [|apply Z.leb_gt in E; lia].
    rewrite length_firstn in Hnil. lia. }
  split; [apply keys_counts_of|]. split; [|split; [|split]].
  - intros name df Hin He. rewrite (counts_of_get q sheets name df Hnd Hin).
    rewrite Forall_forall in Hrect.
    rewrite (empty_sheet_count q df (Hrect _ Hin) He). reflexivity.
  - intros name Hk.
    destruct (dict_get name (capped (cands_of q per_sheet_cap sheets)
                (zsum (values (counts_of q sheets))) total_cap)) as [t|] eqn:Hget.
    2:{ apply dict_get_None in Hget. contradiction. }
    destruct (Hkey name t Hget) as [df (Hin & Hpos & _)].
    exists df. split; [exact Hin|].
    rewrite Forall_forall in Hrect.
    split; [|split].
    + destruct (df_empty df) eqn:He; [|reflexivity].
      rewrite (empty_sheet_count q df (Hrect _ Hin) He) in Hpos. lia.
    + unfold sheet_count in Hpos. destruct (matching_rows q df); [simpl in Hpos; lia|discriminate].
    + apply counts_of_get; assumption.
  - intros name df t Hin Hget Hnil.
    destruct (Hkey name t Hget) as [df' (Hin' & _ & Hcase)].
    assert (df' = df) as ->.
    { pose proof (dict_get_In _ name df sheets Hnd Hin) as H1.
      pose proof (dict_get_In _ name df' sheets Hnd Hin') as H2. congruence. }
    destruct Hcase as [-> | [r [Hr ->]]]; [exact Hnil|].
    exfalso. exact (Hpref r df Hr Hnil).
  - intros Hcap name t Hget.
    destruct (Hkey name t Hget) as [df (Hin & Hpos & Hcase)].
    destruct Hcase as [-> | [r [Hr ->]]]; [|apply Hpref; exact Hr].
    simpl. unfold sheet_count in Hpos.
    destruct (matching_rows q df) as [|row l]; [simpl in Hpos; lia|].
    unfold slice_to. destruct (0 <=? per_sheet_cap)%Z eqn:E; [|apply Z.leb_gt in E; lia].
    destruct (Z.to_nat per_sheet_cap) eqn:En; [lia|]. discriminate.
Qed.

End KeywordClaims.

Lemma pystr_leb_antisym (a b : pystr) :
  pystr_leb a b = true -> pystr_leb b a = true -> a = b.
Proof.
  revert b; induction a as [|x a IH]; intros [|y b]; simpl; try congruence.
  intros Hab Hba.
  apply orb_true_iff in Hab. apply orb_true_iff in Hba.
  destruct Hab as [Hlt | Hab].
  - apply N.ltb_lt in Hlt. destruct Hba as [Hgt | Hba].
    + apply N.ltb_lt in Hgt. lia.
    + apply andb_true_iff in Hba as [He _]. apply N.eqb_eq in He. lia.
  - apply andb_true_iff in Hab as [He Hab]. apply N.eqb_eq in He. subst y.
    destruct Hba as [Hgt | Hba].
    + apply N.ltb_lt in Hgt. lia.
    + apply andb_true_iff in Hba as [_ Hba]. f_equal. apply IH; assumption.
Qed.

Section GlobalCap.

  Context {R : Runtime}.

  Implicit Types (sheets : dict (DataFrame cell)).

Lemma global_cap_fill sheets q per_sheet_cap cap cands counts total :
  workbook sheets ->
  keyword_search sheets q per_sheet_cap None = Ok (cands, counts, total) ->
  (cap < total_rows cands)%Z ->
  exists results,
    keyword_search sheets q per_sheet_cap (Some cap) = Ok (results, counts, total) /\
    Sorted lex_le (sorted (keys cands)) /\
    Permutation (sorted (keys cands)) (keys cands) /\
    greedy_fill cands results cap (sorted (keys cands)) /\
    (exists k, keys results = firstn k (sorted (keys cands))).
Proof.
  intros Hwb Hnone Hover.
  pose proof (keyword_search_spec sheets q per_sheet_cap None Hwb) as Hs.
  rewrite Hnone in Hs. destruct Hs as (-> & -> & ->). simpl in Hover.
  pose proof (cands_total_le q per_sheet_cap sheets) as Hle.
  pose proof (keyword_search_spec sheets q per_sheet_cap (Some cap) Hwb) as Hspec.
  destruct (keyword_search sheets q per_sheet_cap (Some cap))
    as [[[results counts] total]|e] eqn:Hsome.
  - destruct Hspec as (-> & -> & ->). eexists. split; [reflexivity|].
    unfold capped.
    assert (Hlt : (cap <? zsum (values (counts_of q sheets)))%Z = true)
      by (apply Z.ltb_lt; simpl; lia).
    rewrite Hlt.
    split; [apply sorted_Sorted|]. split; [apply sorted_perm|].
    split; [|apply fill_keys_prefix].
    apply fill_greedy.
    + apply (Permutation_NoDup (Permutation_sym (sorted_perm _))).
      apply cands_of_NoDup, Hwb.
    + intros n Hn. apply (Permutation_in _ (sorted_perm _)). exact Hn.
  - exfalso.
    apply (keyword_search_raises sheets q per_sheet_cap None e Hwb) in Hspec.
    rewrite Hnone in Hspec. discriminate.
Qed.

Lemma two_sheets_one_row a b (dfa dfb : DataFrame cell) q sheets :
  pystr_leb a b = true -> a <> b ->
  rectangular dfa -> rectangular dfb ->
  length (matching_rows q dfa) = 2%nat ->
  length (matching_rows q dfb) = 2%nat ->
  sheets = [(a, dfa); (b, dfb)] \/ sheets = [(b, dfb); (a, dfa)] ->
  exists first second,
    matching_rows q dfa = [first; second] /\
    keyword_search sheets q 1%Z (Some 1%Z) =
    Ok ([(a, {| columns := columns dfa; rows := [first] |})],
        map (fun item => (fst item, 2%Z)) sheets, 4%Z).
Proof.
  intros Hab Hne Hra Hrb Hca Hcb Hsheets.
  destruct (matching_rows q dfa) as [|first [|second [|]]] eqn:Hma; try discriminate.
  exists first, second. split; [reflexivity|].
  assert (Hba : pystr_leb b a = false).
  { destruct (pystr_leb b a) eqn:E; [|reflexivity].
    exfalso. apply Hne. apply pystr_leb_antisym; assumption. }
  assert (Hwb : workbook sheets).
  { destruct Hsheets as [-> | ->]; split; simpl.
    - repeat constructor; simpl; intuition congruence.
    - repeat constructor; assumption.
    - repeat constructor; simpl; intuition congruence.
    - repeat constructor; assumption. }
  pose proof (keyword_search_spec sheets q 1%Z (Some 1%Z) Hwb) as Hspec.
  assert (Hsa : sheet_count q dfa = 2%Z) by (unfold sheet_count; rewrite Hma; reflexivity).
  assert (Hsb : sheet_count q dfb = 2%Z) by (unfold sheet_count; rewrite Hcb; reflexivity).
  assert (Hcand : candidate q 1%Z dfa = {| columns := columns dfa; rows := [first] |}).
  { unfold candidate. rewrite Hma. reflexivity. }
  assert (Hlenb : df_len (candidate q 1%Z dfb) = 1%Z).
  { unfold df_len, candidate. simpl.
    destruct (matching_rows q dfb) as [|r1 [|r2 [|]]]; try discriminate. reflexivity. }
  destruct (keyword_search sheets q 1%Z (Some 1%Z)) as [[[results counts] total]|e].
  - destruct Hspec as (-> & -> & ->).
    destruct Hsheets as [-> | ->];
      unfold counts_of, cands_of, capped; simpl; rewrite Hsa, Hsb; simpl;
      rewrite ?Hab, ?Hba; simpl; rewrite pystr_eqb_refl, ?pystr_eqb_neq by congruence;
      rewrite Hcand; reflexivity.
  - destruct Hspec as [Hraise _]. exfalso.
    assert (Hnone : matching_rows q dfa = []).
    { unfold matching_rows, row_matches, cell_matches. rewrite Hraise.
      clear. induction (rows dfa) as [|row l IH]; simpl; [reflexivity|].
      assert (Hf : existsb (fun _ : cell => false) row = false)
        by (induction row; simpl; auto).
      rewrite Hf. exact IH. }
    rewrite Hnone in Hma. discriminate.
Qed.

(** C6. Whenever the candidate results, each already cut to the
    per-sheet cap (they are what the search returns without a global
    cap), hold more than [total_cap] rows together, [keyword_search]
    takes the sheet names in lexicographic order, keeps a candidate
    whole while it fits the remaining budget, keeps of the first one
    that does not fit only its leading rows up to the budget, and drops
    every later sheet from the result, whose keys are a leading part of
    the sorted names; [counts] and [total] are those of the search
    without a global cap.  In particular, with [per_sheet_cap = 1] and
    [total_cap = 1] and two sheets of two matches each, the result is
    one row, the first match of the sheet whose name sorts first, with
    counts of 2 per sheet and a total of 4. *)
Theorem keyword_search_global_cap :
  (forall sheets q per_sheet_cap cap cands counts total,
      workbook sheets ->
      keyword_search sheets q per_sheet_cap None = Ok (cands, counts, total) ->
      (cap < total_rows cands)%Z ->
      exists results,
        keyword_search sheets q per_sheet_cap (Some cap) = Ok (results, counts, total) /\
        Sorted lex_le (sorted (keys cands)) /\
        Permutation (sorted (keys cands)) (keys cands) /\
        greedy_fill cands results cap (sorted (keys cands)) /\
        (exists k, keys results = firstn k (sorted (keys cands)))) /\
  (forall a b (dfa dfb : DataFrame cell) q sheets,
      pystr_leb a b = true -> a <> b ->
      rectangular dfa -> rectangular dfb ->
      length (matching_rows q dfa) = 2%nat ->
      length (matching_rows q dfb) = 2%nat ->
      sheets = [(a, dfa); (b, dfb)] \/ sheets = [(b, dfb); (a, dfa)] ->
      exists first second,
        matching_rows q dfa = [first; second] /\
        keyword_search sheets q 1%Z (Some 1%Z) =
        Ok ([(a, {| columns := columns dfa; rows := [first] |})],
            map (fun item => (fst item, 2%Z)) sheets, 4%Z)).
Proof.
  split.
  - intros. eapply global_cap_fill; eassumption.
  - intros. eapply two_sheets_one_row; eassumption.
Qed.

End GlobalCap.

(** ** The semantic index: [build] *)

Section BuildFacts.

  Context {R : Runtime} {L : SemLib}.

  Implicit Types (sheets items : dict (DataFrame cell)) (es : dict entry).

Lemma slice_to_nth {A} (n : Z) (l : list A) i x :
  nth_error (slice_to n l) i = Some x -> nth_error l i = Some x.
Proof.
  destruct (slice_to_prefix n l) as [k ->]. revert l i.
  induction k as [|k IH]; intros l i; simpl.
  - destruct i; discriminate.
  - destruct l as [|y l]; simpl; [destruct i; discriminate|].
    destruct i as [|i]; simpl; [tauto | apply IH].
Qed.

Lemma build_loop_entries items limit :
  forall self,
    NoDup (keys items) ->
    (forall n, In n (keys items) ->
               ~ In n (keys (TfIdfSemantic.vectorizers self)) /\
               ~ In n (keys (TfIdfSemantic.matrices self)) /\
               ~ In n (keys (TfIdfSemantic.rows self))) ->
    TfIdfSemantic.build_loop items limit self =
    ({| TfIdfSemantic.vectorizers :=
          TfIdfSemantic.vectorizers self ++
          TfIdfSemantic.vectorizers (index_of (fst (entries items limit)));
        TfIdfSemantic.matrices :=
          TfIdfSemantic.matrices self ++
          TfIdfSemantic.matrices (index_of (fst (entries items limit)));
        TfIdfSemantic.rows :=
          TfIdfSemantic.rows self ++
          TfIdfSemantic.rows (index_of (fst (entries items limit))) |},
     snd (entries items limit)).
Proof.
  induction items as [|[name df] items IH]; intros self Hnd Hfresh.
  - simpl. rewrite !app_nil_r. destruct self; reflexivity.
  - inversion Hnd as [|? ? Hnotin Hnd']; subst.
    destruct (Hfresh name (or_introl eq_refl)) as (Hv & Hm & Hr).
    cbn [TfIdfSemantic.build_loop entries]. fold (use_df limit df).
    destruct (TfIdfSemantic.row_texts (use_df limit df)) as [|text texts].
    + apply IH; [exact Hnd'|]. intros n Hn. apply Hfresh. right. exact Hn.
    + destruct (fit_transform (text :: texts)) as [[vec X]|e].
      2:{ simpl. rewrite !app_nil_r. destruct self; reflexivity. }
      rewrite IH; [|exact Hnd'|].
      * simpl. rewrite !dict_set_fresh by assumption.
        destruct (entries items limit) as [es r]. simpl.
        rewrite <- !app_assoc. reflexivity.
      * intros n Hn. simpl.
        assert (n <> name) by (intros ->; contradiction).
        destruct (Hfresh n (or_intror Hn)) as (Hv' & Hm' & Hr').
        rewrite !dict_set_fresh by assumption.
        rewrite !keys_app, !in_app_iff. simpl. intuition congruence.
Qed.

(** [build] forgets the index it is given and stores the entries of the
    new workbook, as far as the loop went. *)
Lemma build_entries self sheets limit :
  NoDup (keys sheets) ->
  TfIdfSemantic.build self sheets limit =
  (index_of (fst (entries sheets limit)), snd (entries sheets limit)).
Proof.
  intros Hnd. unfold TfIdfSemantic.build.
  rewrite build_loop_entries; [reflexivity | exact Hnd|].
  intros n _. simpl. tauto.
Qed.

Lemma entries_In sheets limit name e :
  In (name, e) (fst (entries sheets limit)) ->
  exists df, In (name, df) sheets /\
             e_rows e = use_df limit df /\
             TfIdfSemantic.row_texts (e_rows e) <> [] /\
             fit_transform (TfIdfSemantic.row_texts (e_rows e)) =
             Ok (e_vec e, e_matrix e).
Proof.
  induction sheets as [|[n df] sheets IH]; simpl; [tauto|].
  destruct (TfIdfSemantic.row_texts (use_df limit df)) as [|text texts] eqn:Ht.
  - intros H. destruct (IH H) as [df' H']. exists df'. tauto.
  - destruct (fit_transform (text :: texts)) as [[vec X]|err] eqn:Hfit; [|simpl; tauto].
    destruct (entries sheets limit) as [es r]. simpl.
    intros [[= <- <-] | H].
    + exists df. simpl. rewrite Ht. repeat split; auto. discriminate.
    + destruct (IH H) as [df' H']. exists df'. tauto.
Qed.

Lemma entries_keys sheets limit n :
  In n (keys (fst (entries sheets limit))) -> In n (keys sheets).
Proof.
  unfold keys. rewrite !in_map_iff. intros [[n' e] [<- Hin]].
  apply entries_In in Hin as [df [Hin _]]. exists (n', df). auto.
Qed.

Lemma entries_NoDup sheets limit :
  NoDup (keys sheets) -> NoDup (keys (fst (entries sheets limit))).
Proof.
  induction sheets as [|[n df] sheets IH]; intros Hnd; [constructor|].
  inversion Hnd as [|? ? Hnotin Hnd']; subst.
  simpl. destruct (TfIdfSemantic.row_texts (use_df limit df)); [apply IH; exact Hnd'|].
  destruct (fit_transform _) as [[vec X]|err]; [|constructor].
  pose proof (entries_keys sheets limit n) as Hk.
  destruct (entries sheets limit) as [es r]. simpl in *.
  constructor; [tauto | apply IH; exact Hnd'].
Qed.

(** When the loop ends without a raise, every sheet with a row to index
    has its entry. *)
Lemma entries_complete sheets limit name df :
  snd (entries sheets limit) = Ok tt ->
  In (name, df) sheets ->
  TfIdfSemantic.row_texts (use_df limit df) <> [] ->
  exists e, In (name, e) (fst (entries sheets limit)) /\
            e_rows e = use_df limit df.
Proof.
  induction sheets as [|[n d] sheets IH]; simpl; [tauto|].
  intros Hok [[= -> ->] | Hin] Hne.
  - destruct (TfIdfSemantic.row_texts (use_df limit df)); [contradiction|].
    destruct (fit_transform _) as [[vec X]|err]; [|discriminate].
    destruct (entries sheets limit) as [es r]. simpl. eexists. split; [left; reflexivity|].
    reflexivity.
  - destruct (TfIdfSemantic.row_texts (use_df limit d)).
    + apply IH; assumption.
    + destruct (fit_transform _) as [[vec X]|err]; [|discriminate].
      destruct (entries sheets limit) as [es r]. simpl in *.
      destruct (IH Hok Hin Hne) as [e [He Hr]]. eauto.
Qed.

Lemma index_rows_get es name stored :
  dict_get name (TfIdfSemantic.rows (index_of es)) = Some stored ->
  exists e, In (name, e) es /\ e_rows e = stored.
Proof.
  intros H. apply dict_get_Some_In in H. simpl in H.
  apply in_map_iff in H as [[n e] [[= <- <-] Hin]]. eauto.
Qed.

(** C8. After every build, whatever its outcome, the rows stored for a
    sheet are the leading rows of that sheet in their order: all of
    them without a limit, the first [per_sheet_limit] of them for a
    limit that is not negative, and never more rows than the sheet has.
    So the row at a position of the stored rows is the row at the same
    position of the sheet. *)
Theorem build_stores_prefix self sheets per_sheet_limit :
  NoDup (keys sheets) ->
  forall name stored,
    dict_get name
      (TfIdfSemantic.rows (fst (TfIdfSemantic.build self sheets per_sheet_limit)))
    = Some stored ->
    exists df,
      In (name, df) sheets /\
      columns stored = columns df /\
      (exists k, rows stored = firstn k (rows df)) /\
      (per_sheet_limit = None -> stored = df) /\
      (forall n, per_sheet_limit = Some n -> (0 <= n)%Z ->
                 rows stored = firstn (Z.to_nat n) (rows df)) /\
      (forall i row, nth_error (rows stored) i = Some row ->
                     nth_error (rows df) i = Some row).
Proof.
  intros Hnd name stored Hget.
  rewrite build_entries in Hget by exact Hnd. simpl in Hget.
  apply index_rows_get in Hget as [e [Hin <-]].
  apply entries_In in Hin as [df (Hin & -> & _)].
  exists df. split; [exact Hin|].
  destruct per_sheet_limit as [n|]; simpl.
  - split; [reflexivity|]. split; [apply slice_to_prefix|].
    split; [discriminate|]. split.
    + intros n' [= <-] Hn. unfold slice_to.
      destruct (0 <=? n)%Z eqn:E; [reflexivity | apply Z.leb_gt in E; lia].
    + intros i row. apply slice_to_nth.
  - split; [reflexivity|]. split; [exists (length (rows df)); symmetry; apply firstn_all|].
    split; [reflexivity|]. split; [discriminate | tauto].
Qed.

End BuildFacts.

(** ** The semantic index: [search] *)

Lemma Sorted_snoc {A} (Rel : A -> A -> Prop) (l : list A) (x : A) :
  Sorted Rel l -> (forall y, hd_error (rev l) = Some y -> Rel y x) ->
  Sorted Rel (l ++ [x]).
Proof.
  induction l as [|a l IH]; intros Hs Hlast; simpl.
  - repeat constructor.
  - inversion Hs as [|? ? Hs' Hhd]; subst.
    constructor.
    + apply IH; [exact Hs'|]. intros y Hy. apply Hlast. simpl.
      destruct (rev l) as [|z r]; [discriminate|]. simpl in *. exact Hy.
    + destruct l as [|b l]; simpl.
      * constructor. apply Hlast. reflexivity.
      * constructor. inversion Hhd; subst. assumption.
Qed.

Lemma Sorted_rev_flip {A} (Rel : A -> A -> Prop) (l : list A) :
  Sorted Rel l -> Sorted (fun x y => Rel y x) (rev l).
Proof.
  induction l as [|a l IH]; intros Hs; simpl; [constructor|].
  inversion Hs as [|? ? Hs' Hhd]; subst.
  apply Sorted_snoc; [apply IH; exact Hs'|].
  intros y Hy. rewrite rev_involutive in Hy.
  destruct l as [|b l]; [discriminate|]. simpl in Hy. injection Hy as <-.
  inversion Hhd; subst. assumption.
Qed.

Lemma Sorted_firstn {A} (Rel : A -> A -> Prop) (k : nat) (l : list A) :
  Sorted Rel l -> Sorted Rel (firstn k l).
Proof.
  revert l; induction k as [|k IH]; intros l Hs; simpl; [constructor|].
  destruct l as [|a l]; [constructor|].
  inversion Hs as [|? ? Hs' Hhd]; subst.
  constructor; [apply IH; exact Hs'|].
  destruct l as [|b l]; destruct k; simpl; constructor.
  inversion Hhd; subst. assumption.
Qed.

Lemma Sorted_slice_to {A} (Rel : A -> A -> Prop) (n : Z) (l : list A) :
  Sorted Rel l -> Sorted Rel (slice_to n l).
Proof.
  intros Hs. destruct (slice_to_prefix n l) as [k ->]. apply Sorted_firstn. exact Hs.
Qed.

Lemma pick_in_range {A} (a : list A) (idx : list nat) :
  Forall (fun i => (i < length a)%nat) idx ->
  mapM (fun i => match nth_error a i with
                 | Some x => Ok x
                 | None => Raise IndexError
                 end) idx = Ok (pick a idx) /\
  length (pick a idx) = length idx /\
  Forall2 (fun i x => nth_error a i = Some x) idx (pick a idx).
Proof.
  induction 1 as [|i idx Hi _ IH]; simpl; [repeat split; constructor|].
  destruct IH as (Hm & Hlen & Hall).
  destruct (nth_error a i) as [x|] eqn:Hx.
  - cbn [bind]. rewrite Hm. cbn [bind app]. simpl. repeat split; [lia|].
    constructor; assumption.
  - apply nth_error_None in Hx. lia.
Qed.

Section SearchIndex.

  Context {R : Runtime} {L : SemLib}.

  Variable laws : SemLaws.

  Implicit Types (es : dict entry) (e : entry).

Lemma built_sims e q :
  built e ->
  length (similarities (e_vec e) (e_matrix e) q) = length (rows (e_rows e)) /\
  shape0 (e_matrix e) <> 0%nat.
Proof.
  intros [Hne Hfit]. rewrite (sims_rows laws).
  rewrite (fit_rows laws _ Hfit).
  unfold TfIdfSemantic.row_texts in *. rewrite length_map. split; [reflexivity|].
  destruct (rows (e_rows e)); [contradiction | discriminate].
Qed.

Lemma ranked_in_range e q k :
  Forall (fun i => (i < length (similarities (e_vec e) (e_matrix e) q))%nat)
         (ranked e q k).
Proof.
  apply Forall_forall. intros i Hi. unfold ranked in Hi.
  apply slice_to_incl, in_rev in Hi.
  apply (Permutation_in _ (argsort_perm laws _)) in Hi.
  apply in_seq in Hi. lia.
Qed.

Lemma ranked_sorted e q k :
  Sorted (fun i j => key_le (similarities (e_vec e) (e_matrix e) q) j i)
         (ranked e q k).
Proof.
  unfold ranked. apply Sorted_slice_to.
  apply (Sorted_rev_flip (key_le _)). apply (argsort_sorted laws).
Qed.

Lemma ranked_NoDup e q k : NoDup (ranked e q k).
Proof.
  unfold ranked.
  destruct (slice_to_prefix k
              (rev (argsort (similarities (e_vec e) (e_matrix e) q)))) as [n ->].
  assert (Hnd : NoDup (rev (argsort (similarities (e_vec e) (e_matrix e) q)))).
  { apply (Permutation_NoDup (Permutation_rev _)).
    apply (Permutation_NoDup (Permutation_sym (argsort_perm laws _))).
    apply seq_NoDup. }
  rewrite <- (firstn_skipn n) in Hnd. apply NoDup_app_remove_r in Hnd. exact Hnd.
Qed.

Lemma search_sheet_built self e name q k out :
  built e ->
  dict_get name (TfIdfSemantic.matrices self) = Some (e_matrix e) ->
  dict_get name (TfIdfSemantic.rows self) = Some (e_rows e) ->
  TfIdfSemantic.search_sheet self q k out (name, e_vec e) =
  if clashes e then Raise ValueError
  else Ok (dict_set name (scored_table e q k) out).
Proof.
  intros Hb Hm Hr. unfold TfIdfSemantic.search_sheet, dict_item.
  rewrite Hm, Hr. cbn [bind].
  destruct (built_sims e q Hb) as [Hlen Hshape].
  apply Nat.eqb_neq in Hshape. rewrite Hshape.
  fold (ranked e q k).
  pose proof (ranked_in_range e q k) as Hrange.
  assert (Hrange' : Forall (fun i => (i < length (rows (e_rows e)))%nat) (ranked e q k))
    by (rewrite <- Hlen; exact Hrange).
  destruct (pick_in_range _ _ Hrange) as (Hs & Hslen & _).
  destruct (pick_in_range _ _ Hrange') as (Hp & Hplen & _).
  unfold df_iloc, take. rewrite Hp, Hs. cbn [bind].
  unfold df_insert0, clashes. simpl columns. simpl rows.
  destruct (existsb (pystr_eqb semantic_score) (columns (e_rows e))); [reflexivity|].
  rewrite Hslen, Hplen, Nat.eqb_refl. reflexivity.
Qed.

Lemma search_loop self q k es :
  forall out,
    NoDup (keys es) ->
    (forall n, In n (keys es) -> ~ In n (keys out)) ->
    (forall name e, In (name, e) es ->
       built e /\
       dict_get name (TfIdfSemantic.matrices self) = Some (e_matrix e) /\
       dict_get name (TfIdfSemantic.rows self) = Some (e_rows e)) ->
    foldM (TfIdfSemantic.search_sheet self q k)
          (map (fun p => (fst p, e_vec (snd p))) es) out =
    if existsb (fun p => clashes (snd p)) es then Raise ValueError
    else Ok (out ++ map (fun p => (fst p, scored_table (snd p) q k)) es).
Proof.
  induction es as [|[name e] es IH]; intros out Hnd Hfresh Hes.
  - simpl. rewrite app_nil_r. reflexivity.
  - inversion Hnd as [|? ? Hnotin Hnd']; subst.
    destruct (Hes name e (or_introl eq_refl)) as (Hb & Hm & Hr).
    cbn [map foldM fst snd existsb].
    rewrite (search_sheet_built self e name q k out Hb Hm Hr).
    destruct (clashes e); [reflexivity|]. cbn [bind orb].
    rewrite dict_set_fresh by (apply Hfresh; left; reflexivity).
    rewrite IH; [| exact Hnd' | | ].
    + destruct (existsb _ es); [reflexivity|].
      rewrite <- app_assoc. reflexivity.
    + intros n Hn. rewrite keys_app, in_app_iff. simpl.
      intros [H | [H | []]].
      * apply (Hfresh n); [right; exact Hn | exact H].
      * subst n. contradiction.
    + intros n' e' Hin. apply Hes. right. exact Hin.
Qed.

Lemma index_of_get es name e :
  NoDup (keys es) -> In (name, e) es ->
  dict_get name (TfIdfSemantic.vectorizers (index_of es)) = Some (e_vec e) /\
  dict_get name (TfIdfSemantic.matrices (index_of es)) = Some (e_matrix e) /\
  dict_get name (TfIdfSemantic.rows (index_of es)) = Some (e_rows e).
Proof.
  intros Hnd Hin. unfold index_of. simpl.
  repeat split; apply dict_get_In;
    try (unfold keys in *; rewrite map_map; exact Hnd);
    apply in_map_iff; exists (name, e); auto.
Qed.

(** [search] on a built index, in closed form. *)
Lemma search_built self0 sheets limit q k :
  NoDup (keys sheets) ->
  TfIdfSemantic.search (fst (TfIdfSemantic.build self0 sheets limit)) q k =
  if existsb (fun p => clashes (snd p)) (fst (entries sheets limit))
  then Raise ValueError
  else Ok (map (fun p => (fst p, scored_table (snd p) q k))
               (fst (entries sheets limit))).
Proof.
  intros Hnd. rewrite build_entries by exact Hnd. cbn [fst].
  unfold TfIdfSemantic.search. cbn [TfIdfSemantic.vectorizers index_of].
  pose proof (entries_NoDup sheets limit Hnd) as Hnd'.
  rewrite search_loop; [reflexivity | exact Hnd' | intros n _; simpl; tauto |].
  intros name e Hin.
  destruct (index_of_get _ name e Hnd' Hin) as (_ & Hm & Hr).
  apply entries_In in Hin as [df (Hin & Hrows & Hne & Hfit)].
  repeat split; assumption.
Qed.

Lemma pick_sorted (a : list score) (idx : list nat) :
  Forall (fun i => (i < length a)%nat) idx ->
  Sorted (fun i j => key_le a j i) idx ->
  Sorted (fun x y => score_leb y x = true) (pick a idx).
Proof.
  intros Hrange Hs. induction Hs as [|i idx Hs IH Hhd]; simpl; [constructor|].
  inversion Hrange as [|? ? Hi Hrange']; subst.
  destruct (nth_error a i) as [x|] eqn:Hx; [|apply nth_error_None in Hx; lia].
  cbn [app]. constructor; [apply IH; exact Hrange'|].
  destruct idx as [|j idx]; simpl; [constructor|].
  inversion Hrange' as [|? ? Hj _]; subst.
  destruct (nth_error a j) as [y|] eqn:Hy; [|apply nth_error_None in Hy; lia].
  cbn [app]. constructor. inversion Hhd as [|? ? Hle]; subst.
  apply (Hle y x); assumption.
Qed.

Lemma leading_scores_scored e q k :
  built e ->
  leading_scores (scored_table e q k) =
  pick (similarities (e_vec e) (e_matrix e) q) (ranked e q k).
Proof.
  intros Hb. destruct (built_sims e q Hb) as [Hlen _].
  pose proof (ranked_in_range e q k) as Hrange.
  assert (Hrange' : Forall (fun i => (i < length (rows (e_rows e)))%nat) (ranked e q k))
    by (rewrite <- Hlen; exact Hrange).
  destruct (pick_in_range _ _ Hrange) as (_ & Hslen & _).
  destruct (pick_in_range _ _ Hrange') as (_ & Hplen & _).
  unfold leading_scores, scored_table. cbn [rows].
  assert (Hl : length (pick (similarities (e_vec e) (e_matrix e) q) (ranked e q k)) =
               length (pick (rows (e_rows e)) (ranked e q k))) by congruence.
  revert Hl.
  generalize (pick (rows (e_rows e)) (ranked e q k)) as origs.
  generalize (pick (similarities (e_vec e) (e_matrix e) q) (ranked e q k)) as scores.
  induction scores as [|s scores IH]; intros [|o origs] Hl; simpl in *;
    try discriminate; [reflexivity|].
  f_equal. apply IH. lia.
Qed.

End SearchIndex.

Lemma Forall2_combine {A B C D} (P : A -> B -> Prop) (Q : A -> C -> Prop)
      (f : B * C -> D) (l : list A) (xs : list B) (ys : list C) :
  Forall2 P l xs -> Forall2 Q l ys ->
  Forall2 (fun i row => exists x y, P i x /\ Q i y /\ row = f (x, y))
          l (map f (combine xs ys)).
Proof.
  intros HP. revert ys. induction HP as [|i x l xs Hx _ IH]; intros ys HQ.
  - inversion HQ; subst. constructor.
  - inversion HQ as [|? y ? ys' Hy HQ']; subst. simpl.
    constructor; [eauto | apply IH; exact HQ'].
Qed.

Section SearchClaim.

  Context {R : Runtime} {L : SemLib}.

(** C7. For every built index and every query, [search] returns unless
    an indexed sheet already has a column named [_semantic_score], on
    which [insert] raises.  What it returns has a table for every
    indexed sheet; each table has as many rows as [top_k_per_sheet]
    leaves of the stored rows, so at most [top_k_per_sheet] when that
    number is not negative; its rows come in order of non-increasing
    similarity; and each row is a stored row behind its own similarity
    as the leading field. *)
Theorem search_ranked (laws : SemLaws) self0 sheets per_sheet_limit q top_k :
  NoDup (keys sheets) ->
  match TfIdfSemantic.search
          (fst (TfIdfSemantic.build self0 sheets per_sheet_limit)) q top_k with
  | Raise e =>
      e = ValueError /\
      exists name stored,
        dict_get name (TfIdfSemantic.rows
          (fst (TfIdfSemantic.build self0 sheets per_sheet_limit))) = Some stored /\
        In semantic_score (columns stored)
  | Ok out =>
    keys out =
    keys (TfIdfSemantic.vectorizers
            (fst (TfIdfSemantic.build self0 sheets per_sheet_limit))) /\
    forall name t,
      dict_get name out = Some t ->
      exists vec X stored,
        dict_get name (TfIdfSemantic.vectorizers
          (fst (TfIdfSemantic.build self0 sheets per_sheet_limit))) = Some vec /\
        dict_get name (TfIdfSemantic.matrices
          (fst (TfIdfSemantic.build self0 sheets per_sheet_limit))) = Some X /\
        dict_get name (TfIdfSemantic.rows
          (fst (TfIdfSemantic.build self0 sheets per_sheet_limit))) = Some stored /\
        length (rows t) = length (slice_to top_k (rows stored)) /\
        ((0 <= top_k)%Z -> (df_len t <= top_k)%Z) /\
        columns t = semantic_score :: columns stored /\
        length (leading_scores t) = length (rows t) /\
        Sorted (fun x y => score_leb y x = true) (leading_scores t) /\
        exists idx,
          NoDup idx /\
          Forall2 (fun i row =>
                     exists s orig,
                       nth_error (similarities vec X q) i = Some s /\
                       nth_error (rows stored) i = Some orig /\
                       row = inl s :: map inr orig)
                  idx (rows t)
  end.
Proof.
  intros Hnd.
  rewrite (search_built laws self0 sheets per_sheet_limit q top_k Hnd).
  rewrite build_entries by exact Hnd. cbn [fst].
  pose proof (entries_NoDup sheets per_sheet_limit Hnd) as Hnd'.
  destruct (existsb (fun p => clashes (snd p)) (fst (entries sheets per_sheet_limit)))
    eqn:Hclash.
  { split; [reflexivity|].
    apply existsb_exists in Hclash as [[name e] [Hin Hc]]. simpl in Hc.
    destruct (index_of_get _ name e Hnd' Hin) as (_ & _ & Hr).
    exists name, (e_rows e). split; [exact Hr|].
    unfold clashes in Hc. apply existsb_exists in Hc as [c [Hc He]].
    apply pystr_eqb_eq in He. subst c. exact Hc. }
  split.
  { unfold keys, index_of. simpl. rewrite !map_map. reflexivity. }
  intros name t Hget. apply dict_get_Some_In in Hget.
  apply in_map_iff in Hget as [[n e] [[= <- <-] Hin]]. simpl.
  destruct (index_of_get _ n e Hnd' Hin) as (Hv & Hm & Hr).
  exists (e_vec e), (e_matrix e), (e_rows e).
  repeat (split; [assumption|]).
  apply entries_In in Hin as [df (_ & _ & Hne & Hfit)].
  assert (Hb : built e) by (split; assumption).
  destruct (built_sims laws e q Hb) as [Hlen _].
  pose proof (ranked_in_range laws e q top_k) as Hrange.
  assert (Hrange' : Forall (fun i => (i < length (rows (e_rows e)))%nat)
                           (ranked e q top_k))
    by (rewrite <- Hlen; exact Hrange).
  destruct (pick_in_range _ _ Hrange) as (_ & Hslen & Hsall).
  destruct (pick_in_range _ _ Hrange') as (_ & Hplen & Hpall).
  assert (Hrows : length (rows (scored_table e q top_k)) = length (ranked e q top_k)).
  { unfold scored_table. cbn [rows]. rewrite length_map, length_combine. lia. }
  split; [|split; [|split; [reflexivity|split; [|split]]]].
  - change (length (rows (scored_table e q top_k)) =
            length (slice_to top_k (rows (e_rows e)))).
    rewrite Hrows. unfold ranked, slice_to.
    rewrite length_rev, (Permutation_length (argsort_perm laws _)), length_seq, Hlen.
    destruct (0 <=? top_k)%Z; rewrite !length_firstn, length_rev,
      (Permutation_length (argsort_perm laws _)), length_seq, Hlen; reflexivity.
  - intros Hk. unfold df_len.
    change (Z.of_nat (length (rows (scored_table e q top_k))) <= top_k)%Z.
    rewrite Hrows. unfold ranked.
    apply slice_to_bound. exact Hk.
  - rewrite (leading_scores_scored laws e q top_k Hb).
    rewrite length_map, length_combine. lia.
  - rewrite (leading_scores_scored laws e q top_k Hb).
    apply pick_sorted; [exact Hrange | apply ranked_sorted; exact laws].
  - exists (ranked e q top_k). split; [apply ranked_NoDup; exact laws|].
    unfold scored_table. cbn [rows].
    exact (Forall2_combine _ _ (fun p => inl (fst p) :: map inr (snd p))
                           _ _ _ Hsall Hpall).
Qed.

End SearchClaim.

(** ** The [/load] route *)

Section LoadFacts.

  Context {R : Runtime} {L : SemLib} {Ld : Loader}.

(** A file that cannot be read leaves [SHEETS] and the index as they were. *)
Lemma load_workbook_unreadable st raw e :
  read_workbook_bytes raw = Raise e ->
  load_workbook st raw = (st, error_400).
Proof. intros H. unfold load_workbook. rewrite H. reflexivity. Qed.

(** A workbook that is read replaces [SHEETS], and the index holds the
    entries of the new workbook alone, as far as the build went: all of
    them when the build returns, those before the raise otherwise. *)
Lemma load_workbook_read st raw sheets :
  read_workbook_bytes raw = Ok sheets ->
  NoDup (keys sheets) ->
  load_workbook st raw =
  ({| SHEETS := sheets;
      SEM := index_of (fst (entries sheets (Some 5000%Z))) |},
   match snd (entries sheets (Some 5000%Z)) with
   | Ok _ => sheet_names (keys sheets)
   | Raise _ => error_400
   end).
Proof.
  intros H Hnd. unfold load_workbook. rewrite H.
  rewrite build_entries by exact Hnd.
  destruct (snd (entries sheets (Some 5000%Z))); reflexivity.
Qed.

End LoadFacts.

(** ** The example libraries meet what the index relies on *)

Lemma insert_by_perm a i l : Permutation (Terms.insert_by a i l) (i :: l).
Proof.
  induction l as [|j l IH]; simpl; [reflexivity|].
  destruct (nth i a 0 <=? nth j a 0)%nat; [reflexivity|].
  rewrite IH. apply perm_swap.
Qed.

Lemma insert_by_sorted (a : list nat) i l :
  Sorted (@key_le term_lib a) l -> Sorted (@key_le term_lib a) (Terms.insert_by a i l).
Proof.
  assert (Hle : forall u v, (nth u a 0 <=? nth v a 0)%nat = true -> @key_le term_lib a u v).
  { intros u v H x y Hx Hy. simpl.
    rewrite (nth_error_nth a u 0%nat Hx), (nth_error_nth a v 0%nat Hy) in H. exact H. }
  assert (Hgt : forall u v, (nth u a 0 <=? nth v a 0)%nat = false -> @key_le term_lib a v u).
  { intros u v H x y Hx Hy. simpl.
    rewrite (nth_error_nth a v 0%nat Hx), (nth_error_nth a u 0%nat Hy) in H.
    apply Nat.leb_gt in H. apply Nat.leb_le. lia. }
  induction l as [|j l IH]; simpl; intros Hs.
  - repeat constructor.
  - destruct (nth i a 0 <=? nth j a 0)%nat eqn:E.
    + constructor; [exact Hs | constructor; apply Hle; exact E].
    + inversion Hs as [|? ? Hs' Hhd]; subst.
      constructor; [apply IH; exact Hs'|].
      destruct l as [|m l]; simpl.
      * constructor. apply Hgt. exact E.
      * destruct (nth i a 0 <=? nth m a 0)%nat; constructor.
        -- apply Hgt. exact E.
        -- inversion Hhd; subst. assumption.
Qed.

Lemma insert_all_perm (a : list nat) (l : list nat) :
  Permutation (fold_right (Terms.insert_by a) [] l) l.
Proof.
  induction l as [|i l IH]; simpl; [apply perm_nil|].
  rewrite insert_by_perm. apply perm_skip. exact IH.
Qed.

Lemma insert_all_sorted (a : list nat) (l : list nat) :
  Sorted (@key_le term_lib a) (fold_right (Terms.insert_by a) [] l).
Proof.
  induction l as [|i l IH]; simpl; [constructor|].
  apply insert_by_sorted. exact IH.
Qed.

Lemma term_lib_laws : @SemLaws term_lib.
Proof.
  constructor.
  - intros texts vec X. simpl. unfold Terms.fit.
    destruct (concat (map Terms.tokens texts)); [discriminate|].
    intros [= _ <-]. apply length_map.
  - intros vec X q. simpl. unfold Terms.overlap. apply length_map.
  - intros a. apply insert_all_perm.
  - intros a. apply insert_all_sorted.
Qed.

(** ** The example workbooks *)

Lemma table_rectangular cols cells :
  forallb (fun r => (length r =? length cols)%nat) cells = true ->
  rectangular (table cols cells).
Proof.
  intros H. unfold rectangular, table. simpl. rewrite length_map.
  apply Forall_forall. intros row Hin.
  apply in_map_iff in Hin as [r [<- Hr]]. rewrite length_map.
  rewrite forallb_forall in H. apply Nat.eqb_eq, H, Hr.
Qed.

Lemma keys_NoDup_dec (l : list pystr) :
  (fix nodup (l : list pystr) : bool :=
     match l with
     | [] => true
     | x :: l' => negb (existsb (pystr_eqb x) l') && nodup l'
     end) l = true -> NoDup l.
Proof.
  induction l as [|x l IH]; intros H; [constructor|].
  apply andb_true_iff in H as [Hx Hl]. constructor; [|apply IH; exact Hl].
  intros Hin. apply negb_true_iff in Hx.
  assert (existsb (pystr_eqb x) l = true).
  { apply existsb_exists. exists x. split; [exact Hin | apply pystr_eqb_refl]. }
  congruence.
Qed.

Lemma parts_book_workbook : @workbook ascii_runtime parts_book.
Proof.
  split.
  - apply keys_NoDup_dec. reflexivity.
  - repeat constructor; apply table_rectangular; reflexivity.
Qed.

Lemma two_sheets_workbook : @workbook ascii_runtime two_sheets.
Proof.
  split.
  - apply keys_NoDup_dec. reflexivity.
  - repeat constructor; apply table_rectangular; reflexivity.
Qed.

Lemma AB007_identifier_like : @identifier_like ascii_runtime (of_string "AB007").
Proof.
  exists (of_string "AB"), (of_string "00"), (of_string "7").
  repeat split; try discriminate; repeat constructor.
Qed.

(** ** Plain words on the ASCII runtime *)

Lemma parse_plain (q : pystr) : forall cur stack,
  forallb Parse.plain_char q = true ->
  Parse.parse_loop q cur stack =
  Parse.parse_loop [] (fold_left (fun f c => Parse.push (Re.Lit c) Parse.Atom f) q cur)
                   stack.
Proof.
  induction q as [|c q IH]; intros cur stack Hq; [reflexivity|].
  simpl in Hq. apply andb_true_iff in Hq as [Hc Hq].
  unfold Parse.plain_char in Hc. apply negb_true_iff in Hc.
  repeat (apply orb_false_iff in Hc; destruct Hc as [Hc ?]).
  cbn [Parse.parse_loop fold_left].
  repeat match goal with H : _ = false |- _ => rewrite H; clear H end.
  cbn [orb]. apply IH. exact Hq.
Qed.

Lemma push_all_items (q : pystr) : forall cur,
  Parse.items (fold_left (fun f c => Parse.push (Re.Lit c) Parse.Atom f) q cur) =
  rev (map (fun c => (Re.Lit c, Parse.Atom)) q) ++ Parse.items cur /\
  Parse.alts (fold_left (fun f c => Parse.push (Re.Lit c) Parse.Atom f) q cur) =
  Parse.alts cur.
Proof.
  induction q as [|c q IH]; intros cur; simpl; [auto|].
  destruct (IH (Parse.push (Re.Lit c) Parse.Atom cur)) as [Hi Ha].
  rewrite Hi, Ha. simpl. rewrite <- app_assoc. auto.
Qed.

(** A plain word compiles to the pattern of its characters. *)
Lemma compile_plain (q : pystr) :
  forallb Parse.plain_char q = true ->
  ascii_compile q = Some (Parse.word q).
Proof.
  intros Hq. unfold ascii_compile, Parse.parse.
  rewrite (parse_plain q _ _ Hq). cbn [Parse.parse_loop].
  unfold Parse.close.
  destruct (push_all_items q Parse.no_frame) as [Hi Ha]. rewrite Hi, Ha.
  simpl. rewrite app_nil_r. unfold Parse.branch. f_equal.
  clear. unfold Parse.word.
  induction q as [|c q IH]; simpl; [reflexivity|].
  rewrite fold_left_app, IH. reflexivity.
Qed.

Lemma variants_lower (a c : codepoint) :
  existsb (N.eqb a) (Ascii.variants c) =
  N.eqb (Ascii.lower_char a) (Ascii.lower_char c).
Proof.
  unfold Ascii.variants, Ascii.lower_char, Ascii.is_upper, Ascii.is_lower.
  change (ch "A") with 65%N. change (ch "Z") with 90%N.
  change (ch "a") with 97%N. change (ch "z") with 122%N.
  destruct (N.leb 65 c) eqn:H1; destruct (N.leb c 90) eqn:H2;
    destruct (N.leb 97 c) eqn:H3; destruct (N.leb c 122) eqn:H4;
    destruct (N.leb 65 a) eqn:H5; destruct (N.leb a 90) eqn:H6;
    cbn [andb existsb orb];
    rewrite ?N.leb_le, ?N.leb_gt in *;
    repeat match goal with
           | |- context [N.eqb ?x ?y] =>
               let E := fresh "E" in
               destruct (N.eqb x y) eqn:E;
               [apply N.eqb_eq in E | apply N.eqb_neq in E]
           end;
    cbn [orb]; try reflexivity; exfalso; lia.
Qed.

Lemma run_word (q : pystr) : forall bol t,
  Re.run Ascii.is_digit Ascii.variants (Parse.word q) bol t (fun _ _ => true) =
  starts_with (Ascii.lower q) (Ascii.lower t).
Proof.
  induction q as [|a q IH]; intros bol t; [destruct t; reflexivity|].
  destruct t as [|c t]; [reflexivity|].
  cbn [Parse.word fold_right Re.run Ascii.lower map starts_with].
  rewrite variants_lower. f_equal. apply IH.
Qed.

Lemma finds_word (q t : pystr) :
  Re.finds Ascii.is_digit Ascii.variants (Parse.word q) t =
  has_substring (Ascii.lower q) (Ascii.lower t).
Proof.
  unfold Re.finds. generalize true as bol. revert q.
  induction t as [|c t IH]; intros q bol.
  - cbn [Re.search_from]. rewrite run_word. reflexivity.
  - cbn [Re.search_from Ascii.lower map has_substring].
    rewrite run_word, IH. reflexivity.
Qed.

(** On the ASCII runtime, a query of plain characters that is not an
    identifier selects the rows with a cell that contains it, case
    apart: there the substring policy of the specification holds. *)
Lemma plain_query_substring (q : pystr) (row : list pystr) :
  forallb Parse.plain_char q = true ->
  @_looks_like_id ascii_runtime q = false ->
  (@row_matches ascii_runtime q row = true <->
   exists c, In c row /\ @contains_ignoring_case ascii_runtime q c = true).
Proof.
  intros Hq Hid.
  rewrite (@pattern_policy ascii_runtime q (Parse.word q) row Hid (compile_plain q Hq)).
  split; intros [c [Hin H]]; exists c; split; try exact Hin.
  - unfold contains_ignoring_case. simpl in *. rewrite <- finds_word. exact H.
  - unfold contains_ignoring_case in H. simpl in *. rewrite finds_word. exact H.
Qed.

(** ** The examples of the specification *)

Section Examples.

  Local Existing Instance ascii_runtime.
  Local Existing Instance term_lib.
  Local Existing Instance parsed_loader.

  Local Open Scope string_scope.

  Local Abbreviation s := of_string.

(** The sheet [Parts]: the identifier [AB007] matches the first row only. *)
Example parts_identifier :
  keyword_search parts_book (s "AB007") 100%Z (Some 1000%Z) =
  Ok ([(s "Parts", table ["id"; "name"] [["AB007"; "Bolt"]])],
      [(s "Parts", 1%Z)], 1%Z).
Proof. vm_compute. reflexivity. Qed.

(** The sheet [Parts]: the word [bolt] matches the first two rows. *)
Example parts_word :
  keyword_search parts_book (s "bolt") 100%Z (Some 1000%Z) =
  Ok ([(s "Parts",
        table ["id"; "name"] [["AB007"; "Bolt"]; ["AB107"; "Bolt Long"]])],
      [(s "Parts", 2%Z)], 2%Z).
Proof. vm_compute. reflexivity. Qed.

(** [$] also matches before a newline that ends the string. *)
Example id_with_newline : _looks_like_id (s "A1" ++ [Re.newline])%list = true.
Proof. vm_compute. reflexivity. Qed.

(** Two sheets of two matches each under caps of 1 and 1. *)
Example two_sheets_capped :
  keyword_search two_sheets (s "bolt") 1%Z (Some 1%Z) =
  Ok ([(s "A", table ["name"] [["Bolt"]])],
      [(s "B", 2%Z); (s "A", 2%Z)], 4%Z).
Proof. vm_compute. reflexivity. Qed.

(** Witness of C1: the query [AB007] on the sheet [Parts]. *)
Lemma keyword_search_identifier_exact_witness :
  workbook parts_book /\ identifier_like (s "AB007") /\
  exists results counts total,
    keyword_search parts_book (s "AB007") 100%Z (Some 1000%Z) =
    Ok (results, counts, total) /\
    forall name row,
      In row (rows_of results name) ->
      (exists df, In (name, df) parts_book /\ In row (rows df)) /\
      (exists c, In c row /\ str_lower (py_str c) = str_lower (s "AB007")).
Proof.
  split; [exact parts_book_workbook|]. split; [exact AB007_identifier_like|].
  exact (keyword_search_identifier_exact parts_book (s "AB007") 100%Z (Some 1000%Z)
           parts_book_workbook AB007_identifier_like).
Defined.

(** Witness of C4: the query [bolt] on the sheet [Parts]. *)
Lemma keyword_search_counts_total_witness :
  workbook parts_book /\
  search_gives parts_book (s "bolt") 100%Z (Some 1000%Z)
    (fun results counts total =>
       zsum (values counts) = total /\
       forall name df,
         In (name, df) parts_book ->
         dict_get name counts =
         Some (Z.of_nat (length (matching_rows (s "bolt") df))) /\
         (df_empty df = false ->
          keyword_match_mask df (s "bolt") =
          Ok (map (row_matches (s "bolt")) (rows df)))).
Proof.
  split; [exact parts_book_workbook|].
  exact (keyword_search_counts_total parts_book (s "bolt") 100%Z (Some 1000%Z)
           parts_book_workbook).
Defined.

(** Witness of C5 as amended: two sheets under caps of 1 and 1. *)
Lemma keyword_search_caps_witness :
  workbook two_sheets /\
  search_gives two_sheets (s "bolt") 1%Z (Some 1%Z)
    (fun results counts total =>
       ((0 <= 1)%Z ->
        forall name t, dict_get name results = Some t -> (df_len t <= 1)%Z) /\
       (forall cap, Some 1%Z = Some cap -> (0 <= cap)%Z ->
                    (total_rows results <= cap)%Z)).
Proof.
  split; [exact two_sheets_workbook|].
  exact (keyword_search_caps two_sheets (s "bolt") 1%Z (Some 1%Z) two_sheets_workbook).
Defined.

(** C5 as stated fails: a negative [per_sheet_cap] makes [head] drop
    rows from the end, so a table keeps more rows than the cap; and
    under a negative [total_cap] the empty result still holds more rows
    than the cap. *)
Lemma keyword_search_caps_counterexample :
  ~ caps_as_stated two_sheets (s "bolt") (-1)%Z None /\
  ~ caps_as_stated two_sheets (s "bolt") 100%Z (Some (-1)%Z).
Proof.
  split; unfold caps_as_stated, search_gives.
  - assert (E : keyword_search two_sheets (s "bolt") (-1)%Z None =
                Ok ([(s "B", table ["name"] [["bolt"]]);
                     (s "A", table ["name"] [["Bolt"]])],
                    [(s "B", 2%Z); (s "A", 2%Z)], 4%Z))
      by (vm_compute; reflexivity).
    rewrite E. intros [H _].
    specialize (H (s "B") (table ["name"] [["bolt"]]) eq_refl).
    vm_compute in H. apply H. reflexivity.
  - assert (E : keyword_search two_sheets (s "bolt") 100%Z (Some (-1)%Z) =
                Ok ([], [(s "B", 2%Z); (s "A", 2%Z)], 4%Z))
      by (vm_compute; reflexivity).
    rewrite E. intros [_ H].
    specialize (H (-1)%Z eq_refl).
    vm_compute in H. apply H. reflexivity.
Qed.

(** Witness of C6: the two sheets of two matches each. *)
Lemma keyword_search_global_cap_witness :
  (exists cands counts total,
      workbook two_sheets /\
      keyword_search two_sheets (s "bolt") 1%Z None = Ok (cands, counts, total) /\
      (1 < total_rows cands)%Z /\
      exists results,
        keyword_search two_sheets (s "bolt") 1%Z (Some 1%Z) =
        Ok (results, counts, total) /\
        Sorted lex_le (sorted (keys cands)) /\
        Permutation (sorted (keys cands)) (keys cands) /\
        greedy_fill cands results 1%Z (sorted (keys cands)) /\
        (exists k, keys results = firstn k (sorted (keys cands)))) /\
  (exists first second,
      matching_rows (s "bolt") (table ["name"] [["Bolt"]; ["bolted"]]) =
      [first; second] /\
      keyword_search two_sheets (s "bolt") 1%Z (Some 1%Z) =
      Ok ([(s "A", {| columns := [s "name"]; rows := [first] |})],
          map (fun item => (fst item, 2%Z)) two_sheets, 4%Z)).
Proof.
  split.
  - do 3 eexists.
    split; [exact two_sheets_workbook|].
    split; [vm_compute; reflexivity|].
    split; [vm_compute; reflexivity|].
    apply (proj1 (@keyword_search_global_cap ascii_runtime));
      [exact two_sheets_workbook | vm_compute; reflexivity | vm_compute; reflexivity].
  - apply (proj2 (@keyword_search_global_cap ascii_runtime) (s "A") (s "B")
             (table ["name"] [["Bolt"]; ["bolted"]])
             (table ["name"] [["bolt"]; ["nut"]; ["Bolt M4"]])
             (s "bolt") two_sheets).
    + reflexivity.
    + discriminate.
    + apply table_rectangular. reflexivity.
    + apply table_rectangular. reflexivity.
    + reflexivity.
    + reflexivity.
    + right. reflexivity.
Defined.

(** Witness of C10: two sheets under caps of 1 and 1. *)
Lemma keyword_search_keys_witness :
  workbook two_sheets /\
  search_gives two_sheets (s "bolt") 1%Z (Some 1%Z)
    (fun results counts total =>
       keys counts = keys two_sheets /\
       (forall name df, In (name, df) two_sheets -> df_empty df = true ->
                        dict_get name counts = Some 0%Z) /\
       (forall name, In name (keys results) ->
          exists df, In (name, df) two_sheets /\ df_empty df = false /\
                     matching_rows (s "bolt") df <> [] /\
                     dict_get name counts = Some (sheet_count (s "bolt") df)) /\
       (forall name df t,
          In (name, df) two_sheets -> dict_get name results = Some t ->
          rows t = [] -> slice_to 1%Z (matching_rows (s "bolt") df) = []) /\
       ((1 <= 1)%Z ->
        forall name t, dict_get name results = Some t -> rows t <> [])).
Proof.
  split; [exact two_sheets_workbook|].
  exact (keyword_search_keys two_sheets (s "bolt") 1%Z (Some 1%Z) two_sheets_workbook).
Defined.

(** Witness of C7: the index of the sheet [Parts], asked for the two
    best rows. *)
Lemma search_ranked_witness :
  SemLaws /\ NoDup (keys parts_book) /\
  match TfIdfSemantic.search
          (fst (TfIdfSemantic.build TfIdfSemantic.init parts_book (Some 5000%Z)))
          (s "bolt long") 2%Z with
  | Raise e =>
      e = ValueError /\
      exists name stored,
        dict_get name (TfIdfSemantic.rows
          (fst (TfIdfSemantic.build TfIdfSemantic.init parts_book (Some 5000%Z))))
        = Some stored /\
        In semantic_score (columns stored)
  | Ok out =>
    keys out =
    keys (TfIdfSemantic.vectorizers
            (fst (TfIdfSemantic.build TfIdfSemantic.init parts_book (Some 5000%Z)))) /\
    forall name t,
      dict_get name out = Some t ->
      exists vec X stored,
        dict_get name (TfIdfSemantic.vectorizers
          (fst (TfIdfSemantic.build TfIdfSemantic.init parts_book (Some 5000%Z))))
        = Some vec /\
        dict_get name (TfIdfSemantic.matrices
          (fst (TfIdfSemantic.build TfIdfSemantic.init parts_book (Some 5000%Z))))
        = Some X /\
        dict_get name (TfIdfSemantic.rows
          (fst (TfIdfSemantic.build TfIdfSemantic.init parts_book (Some 5000%Z))))
        = Some stored /\
        length (rows t) = length (slice_to 2%Z (rows stored)) /\
        ((0 <= 2)%Z -> (df_len t <= 2)%Z) /\
        columns t = semantic_score :: columns stored /\
        length (leading_scores t) = length (rows t) /\
        Sorted (fun x y => score_leb y x = true) (leading_scores t) /\
        exists idx,
          NoDup idx /\
          Forall2 (fun i row =>
                     exists sc orig,
                       nth_error (similarities vec X (s "bolt long")) i = Some sc /\
                       nth_error (rows stored) i = Some orig /\
                       row = inl sc :: map inr orig)
                  idx (rows t)
  end.
Proof.
  split; [exact term_lib_laws|].
  split; [exact (proj1 parts_book_workbook)|].
  exact (@search_ranked ascii_runtime term_lib term_lib_laws TfIdfSemantic.init
           parts_book (Some 5000%Z) (s "bolt long") 2%Z (proj1 parts_book_workbook)).
Defined.

(** The search of the witness, evaluated: the row [Bolt Long] with a
    score of 2 before the row [Bolt] with a score of 1. *)
Example parts_search :
  TfIdfSemantic.search
    (fst (TfIdfSemantic.build TfIdfSemantic.init parts_book (Some 5000%Z)))
    (s "bolt long") 2%Z =
  Ok [(s "Parts",
       {| columns := [semantic_score; s "id"; s "name"];
          rows := [[inl 2%nat; inr (s "AB107"); inr (s "Bolt Long")];
                   [inl 1%nat; inr (s "AB007"); inr (s "Bolt")]] |})].
Proof. vm_compute. reflexivity. Qed.

(** A sheet that already has a column [_semantic_score] is indexed, and
    the search over it raises. *)
Example score_column_clash :
  TfIdfSemantic.search
    (fst (TfIdfSemantic.build TfIdfSemantic.init
            [(s "Scored", table ["_semantic_score"; "name"] [["1"; "bolt"]])]
            (Some 5000%Z)))
    (s "bolt") 30%Z = Raise ValueError.
Proof. vm_compute. reflexivity. Qed.

(** Witness of C8: the sheet [Parts] indexed under a limit of 2 rows. *)
Lemma build_stores_prefix_witness :
  NoDup (keys parts_book) /\
  dict_get (s "Parts")
    (TfIdfSemantic.rows
       (fst (TfIdfSemantic.build TfIdfSemantic.init parts_book (Some 2%Z))))
  = Some (df_head 2%Z parts) /\
  exists df,
    In (s "Parts", df) parts_book /\
    columns (df_head 2%Z parts) = columns df /\
    (exists k, rows (df_head 2%Z parts) = firstn k (rows df)) /\
    (Some 2%Z = None -> df_head 2%Z parts = df) /\
    (forall n, Some 2%Z = Some n -> (0 <= n)%Z ->
               rows (df_head 2%Z parts) = firstn (Z.to_nat n) (rows df)) /\
    (forall i row, nth_error (rows (df_head 2%Z parts)) i = Some row ->
                   nth_error (rows df) i = Some row).
Proof.
  split; [exact (proj1 parts_book_workbook)|].
  split; [vm_compute; reflexivity|].
  apply (@build_stores_prefix ascii_runtime term_lib TfIdfSemantic.init parts_book (Some 2%Z)
           (proj1 parts_book_workbook)).
  vm_compute. reflexivity.
Defined.

(** C2 on the code. The query [a.c] is not an identifier, the cell
    [abc] does not contain it, and yet its row is in the matching set:
    the query is compiled as a pattern, in which the dot stands for any
    character.  The query [a+b] brings in the row of [abc], which does
    not contain it, and leaves out the row of the cell [a+b], which is
    the query itself. *)
Theorem substring_policy_reads_patterns :
  _looks_like_id (s "a.c") = false /\
  keyword_search codes_book (s "a.c") 100%Z (Some 1000%Z) =
  Ok ([(s "Codes", table ["code"] [["abc"]])], [(s "Codes", 1%Z)], 1%Z) /\
  contains_ignoring_case (s "a.c") (s "abc") = false /\
  _looks_like_id (s "a+b") = false /\
  keyword_search codes_book (s "a+b") 100%Z (Some 1000%Z) =
  Ok ([(s "Codes", table ["code"] [["abc"]])], [(s "Codes", 1%Z)], 1%Z) /\
  contains_ignoring_case (s "a+b") (s "abc") = false /\
  contains_ignoring_case (s "a+b") (s "a+b") = true.
Proof. repeat split; vm_compute; reflexivity. Qed.

(** C3 on the code. The query of one opening parenthesis is not an
    identifier, does not compile as a pattern, and [keyword_search]
    raises on it as soon as a sheet is not empty. *)
Theorem keyword_search_raises_on_parenthesis :
  _looks_like_id (s "(") = false /\
  Parse.parse (s "(") = Parse.Malformed /\
  keyword_search parts_book (s "(") 100%Z (Some 1000%Z) = Raise ReError.
Proof. repeat split; vm_compute; reflexivity. Qed.

(** C9 on the code. Loading a workbook whose second sheet holds single
    characters only: the vectorizer raises on that sheet, the route
    answers 400, and yet [SHEETS] is the new workbook while the index
    holds the first sheet alone. *)
Theorem load_keeps_partial_index :
  exists st,
    load_workbook app_start (Some letters_book) = (st, error_400) /\
    SHEETS st = letters_book /\
    keys (TfIdfSemantic.vectorizers (SEM st)) = [s "A"] /\
    keys (TfIdfSemantic.matrices (SEM st)) = [s "A"] /\
    keys (TfIdfSemantic.rows (SEM st)) = [s "A"] /\
    ~ no_workbook st.
Proof.
  eexists. split; [vm_compute; reflexivity|].
  repeat split. intros [H _]. discriminate H.
Qed.

End Examples.

(** * Further properties of the code *)

(** ** Mappings and sums *)

Lemma zsum_cons (x : Z) (l : list Z) : zsum (x :: l) = (x + zsum l)%Z.
Proof. reflexivity. Qed.

Lemma zsum_perm (a b : list Z) : Permutation a b -> zsum a = zsum b.
Proof.
  induction 1; rewrite ?zsum_cons; lia.
Qed.

Lemma foldM_ext {A S} (f g : S -> A -> result S) :
  (forall acc x, f acc x = g acc x) ->
  forall l acc, foldM f l acc = foldM g l acc.
Proof.
  intros H l. induction l as [|x l IH]; intros acc; simpl; [reflexivity|].
  rewrite H. destruct (g acc x); [apply IH | reflexivity].
Qed.

Section DictMore.

  Variable V : Type.
  Implicit Types (d : dict V).

Lemma dict_set_keys_In k v d n :
  In n (keys (dict_set k v d)) <-> n = k \/ In n (keys d).
Proof.
  unfold keys. induction d as [|[k' v'] d IH]; simpl.
  - intuition (subst; auto).
  - destruct (pystr_eqb k' k) eqn:E; simpl.
    + apply pystr_eqb_eq in E. subst k'. intuition (subst; auto).
    + rewrite IH. intuition (subst; auto).
Qed.

Lemma dict_set_NoDup k v d : NoDup (keys d) -> NoDup (keys (dict_set k v d)).
Proof.
  induction d as [|[k' v'] d IH]; simpl; intros Hnd.
  - constructor; [intros [] | constructor].
  - inversion Hnd as [|? ? Hnotin Hnd']; subst.
    destruct (pystr_eqb k' k) eqn:E; simpl.
    + apply pystr_eqb_eq in E. subst k'. constructor; assumption.
    + constructor; [|apply IH; exact Hnd'].
      rewrite dict_set_keys_In. intros [H | H]; [|contradiction].
      subst k'. rewrite pystr_eqb_refl in E. discriminate.
Qed.

Lemma dict_set_In k v d n x :
  In (n, x) (dict_set k v d) -> (n = k /\ x = v) \/ In (n, x) d.
Proof.
  induction d as [|[k' v'] d IH]; simpl.
  - intros [[= <- <-] | []]. auto.
  - destruct (pystr_eqb k' k); simpl.
    + intros [[= <- <-] | H]; auto.
    + intros [H | H]; [auto|]. apply IH in H. tauto.
Qed.

End DictMore.

(** ** The keyword engine *)

Section KeywordMore.

  Context {R : Runtime}.

  Implicit Types (sheets : dict (DataFrame cell)).

Lemma cell_test_raise q e :
  cell_test q = Raise e <->
  e = ReError /\ _looks_like_id q = false /\ re_compile q = None.
Proof.
  unfold cell_test.
  destruct (_looks_like_id q); [|destruct (re_compile q)]; split;
    try discriminate; try (intros (_ & H & _); discriminate);
    try (intros (_ & _ & H); discriminate).
  - intros [= <-]. auto.
  - intros (-> & _). reflexivity.
Qed.

Lemma df_empty_false {C} (df : DataFrame C) :
  df_empty df = false <-> columns df <> [] /\ rows df <> [].
Proof.
  unfold df_empty. rewrite orb_false_iff, !Nat.eqb_neq.
  destruct (columns df), (rows df); simpl; split; intros [H1 H2]; split;
    try discriminate; try congruence; auto.
Qed.

Lemma all_empty_false_iff sheets :
  all_empty sheets = false <->
  exists name df, In (name, df) sheets /\ columns df <> [] /\ rows df <> [].
Proof.
  split.
  - induction sheets as [|[n df] sheets IH]; [discriminate|].
    unfold all_empty. simpl. destruct (df_empty df) eqn:E; simpl.
    + intros H. destruct (IH H) as (name & df' & Hin & Hne).
      exists name, df'. auto.
    + intros _. exists n, df. split; [left; reflexivity|].
      apply df_empty_false. exact E.
  - intros (name & df & Hin & Hne). apply (all_empty_false _ name df Hin).
    apply df_empty_false. exact Hne.
Qed.

Lemma keys_cands_of_filter q psc sheets :
  keys (cands_of q psc sheets) =
  keys (filter (fun item => (0 <? sheet_count q (snd item))%Z) sheets).
Proof.
  induction sheets as [|[n df] sheets IH]; [reflexivity|].
  unfold cands_of. cbn [flat_map filter fst snd].
  fold (cands_of q psc sheets).
  destruct (0 <? sheet_count q df)%Z; cbn [app]; simpl; rewrite IH; reflexivity.
Qed.

Lemma rows_of_cons_other name n (t : DataFrame cell) d :
  n <> name -> rows_of ((n, t) :: d) name = rows_of d name.
Proof.
  intros H. unfold rows_of. simpl. rewrite pystr_eqb_neq by exact H. reflexivity.
Qed.

Lemma total_rows_keys (d : dict (DataFrame cell)) :
  NoDup (keys d) ->
  zsum (map (fun n => Z.of_nat (length (rows_of d n))) (keys d)) = total_rows d.
Proof.
  induction d as [|[n t] d IH]; intros Hnd; [reflexivity|].
  inversion Hnd as [|? ? Hnotin Hnd']; subst.
  rewrite total_rows_cons. cbn [keys map fst]. fold (keys d).
  rewrite zsum_cons.
  unfold rows_of at 1. simpl dict_get. rewrite pystr_eqb_refl.
  rewrite <- (IH Hnd'). unfold df_len. f_equal. f_equal.
  apply map_ext_in. intros a Ha. rewrite rows_of_cons_other; [reflexivity|].
  intros ->. contradiction.
Qed.

Lemma zsum_lengths_nonneg (cands : dict (DataFrame cell)) names :
  (0 <= zsum (map (fun n => Z.of_nat (length (rows_of cands n))) names))%Z.
Proof.
  induction names as [|n names IH]; [unfold zsum; simpl; lia|].
  cbn [map]. rewrite zsum_cons. lia.
Qed.

(** When every name has a candidate that is not empty and the candidates
    of the names fit the budget together, the second loop keeps each of
    them whole. *)
Lemma fill_all_fit (cands : dict (DataFrame cell)) names : forall remaining,
  (forall n, In n names ->
             exists dfm, dict_get n cands = Some dfm /\ rows dfm <> []) ->
  (zsum (map (fun n => Z.of_nat (length (rows_of cands n))) names) <= remaining)%Z ->
  fill cands names remaining =
  flat_map (fun n => match dict_get n cands with
                     | Some dfm => [(n, dfm)]
                     | None => []
                     end) names.
Proof.
  induction names as [|name names IH]; intros remaining Hall Hsum; [reflexivity|].
  destruct (Hall name (or_introl eq_refl)) as (dfm & Hget & Hne).
  cbn [map] in Hsum. rewrite zsum_cons in Hsum.
  assert (Hrows : rows_of cands name = rows dfm).
  { unfold rows_of. rewrite Hget. reflexivity. }
  rewrite Hrows in Hsum.
  assert (Hpos : (0 < df_len dfm)%Z).
  { unfold df_len. destruct (rows dfm); [contradiction|]. simpl. lia. }
  pose proof (zsum_lengths_nonneg cands names) as Hrest.
  cbn [fill flat_map]. rewrite Hget.
  unfold df_len in Hpos |- *.
  destruct (remaining <=? 0)%Z eqn:E1; [apply Z.leb_le in E1; lia|].
  destruct (Z.of_nat (length (rows dfm)) <=? remaining)%Z eqn:E2;
    [|apply Z.leb_gt in E2; lia].
  cbn [app]. f_equal. apply IH.
  - intros n Hn. apply Hall. right. exact Hn.
  - lia.
Qed.

Lemma flat_map_get_keys {V} (d : dict V) names :
  (forall n, In n names -> In n (keys d)) ->
  keys (flat_map (fun n => match dict_get n d with
                           | Some v => [(n, v)]
                           | None => []
                           end) names) = names.
Proof.
  induction names as [|n names IH]; intros Hin; [reflexivity|].
  cbn [flat_map]. destruct (dict_get n d) as [v|] eqn:Hget.
  - simpl. f_equal. apply IH. intros m Hm. apply Hin. right. exact Hm.
  - apply dict_get_None in Hget. exfalso. apply Hget, Hin. left. reflexivity.
Qed.

Lemma flat_map_get {V} (d : dict V) names n :
  NoDup names -> In n names ->
  dict_get n (flat_map (fun n => match dict_get n d with
                                 | Some v => [(n, v)]
                                 | None => []
                                 end) names) = dict_get n d.
Proof.
  induction names as [|m names IH]; intros Hnd Hin; [contradiction|].
  inversion Hnd as [|? ? Hnotin Hnd']; subst.
  cbn [flat_map]. destruct Hin as [-> | Hin].
  - destruct (dict_get n d) as [v|] eqn:Hget.
    + simpl. rewrite pystr_eqb_refl. reflexivity.
    + cbn [app]. apply dict_get_None. intros H.
      unfold keys in H. apply in_map_iff in H as [[n' v] [Hn H]].
      simpl in Hn. subst n'. apply in_flat_map in H as [m' [Hm' H]].
      destruct (dict_get m' d); [|contradiction].
      destruct H as [[= -> _] | []]. contradiction.
  - assert (Hne : m <> n) by (intros ->; contradiction).
    destruct (dict_get m d) as [v|]; cbn [app].
    + simpl. rewrite pystr_eqb_neq by exact Hne. apply IH; assumption.
    + apply IH; assumption.
Qed.

(** The rows that the second loop keeps are as many as the budget, or
    all the rows of the candidates when these are fewer. *)
Lemma fill_total_min (cands : dict (DataFrame cell)) names : forall remaining,
  (0 <= remaining)%Z ->
  (forall n, In n names -> In n (keys cands)) ->
  total_rows (fill cands names remaining) =
  Z.min remaining (zsum (map (fun n => Z.of_nat (length (rows_of cands n))) names)).
Proof.
  induction names as [|name names IH]; intros remaining Hrem Hin.
  - simpl. unfold total_rows, zsum. simpl. lia.
  - cbn [map]. rewrite zsum_cons.
    pose proof (zsum_lengths_nonneg cands names) as Hrest.
    cbn [fill].
    destruct (remaining <=? 0)%Z eqn:E0.
    { apply Z.leb_le in E0. unfold total_rows, zsum at 1. simpl. lia. }
    apply Z.leb_gt in E0.
    destruct (dict_get name cands) as [dfm|] eqn:Hget.
    2:{ apply dict_get_None in Hget. exfalso. apply Hget, Hin. left. reflexivity. }
    assert (Hrows : rows_of cands name = rows dfm).
    { unfold rows_of. rewrite Hget. reflexivity. }
    rewrite Hrows. fold (df_len dfm).
    destruct (df_len dfm <=? remaining)%Z eqn:E1.
    + apply Z.leb_le in E1. rewrite total_rows_cons.
      rewrite IH; [lia | lia |]. intros n Hn. apply Hin. right. exact Hn.
    + apply Z.leb_gt in E1. rewrite total_rows_cons.
      unfold total_rows at 1, zsum at 1. simpl.
      unfold df_len in E1 |- *. simpl. unfold slice_to.
      assert (E2 : (0 <=? remaining)%Z = true) by (apply Z.leb_le; lia).
      rewrite E2, length_firstn. lia.
Qed.

(** X1. [_looks_like_id] accepts exactly the strings made of one or more
    ASCII letters, then zero or more zeros, then one or more decimal
    digits, and those strings followed by one newline. *)
Theorem looks_like_id_language (q : pystr) :
  _looks_like_id q = true <->
  identifier_like q \/
  exists q', q = q' ++ [Re.newline] /\ identifier_like q'.
Proof. exact (looks_like_id_iff q). Qed.



(** X4. Every table that [keyword_search] returns has the columns of its
    sheet, and its rows are a leading part of the matching rows of the
    sheet, in the order of the sheet: without a global cap, and with a
    per-sheet cap that is not negative, the first [per_sheet_cap] of them. *)
Theorem keyword_search_rows_in_order sheets q per_sheet_cap total_cap
        results counts total name t :
  workbook sheets ->
  keyword_search sheets q per_sheet_cap total_cap = Ok (results, counts, total) ->
  dict_get name results = Some t ->
  exists df k,
    In (name, df) sheets /\ columns t = columns df /\
    rows t = firstn k (filter (row_matches q) (rows df)) /\
    (total_cap = None -> (0 <= per_sheet_cap)%Z ->
     rows t = firstn (Z.to_nat per_sheet_cap) (filter (row_matches q) (rows df))).
Proof.
  intros Hwb Hks Hget.
  pose proof (keyword_search_spec sheets q per_sheet_cap total_cap Hwb) as Hspec.
  rewrite Hks in Hspec. destruct Hspec as (_ & _ & ->).
  destruct (capped_get _ _ _ _ _ (cands_of_NoDup q per_sheet_cap sheets (proj1 Hwb)) Hget)
    as (dfm & Hd & Hcase).
  pose proof Hd as Hd'. apply cands_of_get in Hd'; [|apply Hwb].
  destruct Hd' as (df & Hin & _ & Hdfm).
  exists df.
  destruct (slice_to_prefix per_sheet_cap (matching_rows q df)) as [k1 Hk1].
  assert (Hnone : total_cap = None -> (0 <= per_sheet_cap)%Z ->
                  rows t = firstn (Z.to_nat per_sheet_cap) (matching_rows q df)).
  { intros -> Hpsc. simpl in Hget. rewrite Hd in Hget. injection Hget as <-.
    rewrite Hdfm. simpl. unfold slice_to.
    destruct (0 <=? per_sheet_cap)%Z eqn:E; [reflexivity | apply Z.leb_gt in E; lia]. }
  subst dfm. destruct Hcase as [-> | (r & _ & ->)].
  - exists k1. repeat split; [exact Hin | exact Hk1 | exact Hnone].
  - destruct (slice_to_prefix r (rows (candidate q per_sheet_cap df))) as [k2 Hk2].
    exists (Nat.min k2 k1). repeat split; [exact Hin | | exact Hnone].
    simpl rows. simpl rows in Hk2. rewrite Hk2, Hk1. apply firstn_firstn.
Qed.

(** X5. The order of the keys of the result.  When the total is within
    the global cap, or there is no global cap, the keys are the names of
    the sheets that have a match, in the order of the workbook.  When the
    total is over the cap, the keys are in alphabetical order instead:
    a leading part of the sorted names of the sheets that have a match. *)
Theorem keyword_search_key_order sheets q per_sheet_cap total_cap
        results counts total :
  workbook sheets ->
  keyword_search sheets q per_sheet_cap total_cap = Ok (results, counts, total) ->
  let hits :=
    keys (filter (fun item => (0 <? sheet_count q (snd item))%Z) sheets) in
  (forall cap, total_cap = Some cap -> (cap < total)%Z ->
               Sorted lex_le (keys results) /\
               exists k, keys results = firstn k (sorted hits)) /\
  (total_cap = None \/ (exists cap, total_cap = Some cap /\ (total <= cap)%Z) ->
   keys results = hits).
Proof.
  intros Hwb Hks hits.
  pose proof (keyword_search_spec sheets q per_sheet_cap total_cap Hwb) as Hspec.
  rewrite Hks in Hspec. destruct Hspec as (_ & Htotal & ->).
  rewrite <- Htotal. unfold hits. rewrite <- (keys_cands_of_filter q per_sheet_cap sheets).
  split.
  - intros cap -> Hlt. unfold capped. apply Z.ltb_lt in Hlt. rewrite Hlt.
    destruct (fill_keys_prefix (sorted (keys (cands_of q per_sheet_cap sheets)))
                (cands_of q per_sheet_cap sheets) cap) as [k Hk].
    split; [|exists k; exact Hk].
    rewrite Hk. apply Sorted_firstn, sorted_Sorted.
  - intros [-> | (cap & -> & Hle)]; [reflexivity|].
    unfold capped. apply Z.ltb_ge in Hle. rewrite Hle. reflexivity.
Qed.

(** X6. The second loop starts when the total of the counts is over the
    global cap, also when the candidates, cut by the per-sheet cap, fit
    under it together.  It then loses nothing: with a per-sheet cap of 1
    or more, every sheet keeps the table it has without a global cap, and
    only the order of the keys changes to the alphabetical one. *)
Theorem global_cap_keeps_fitting_candidates sheets q per_sheet_cap cap
        cands counts total :
  workbook sheets -> (1 <= per_sheet_cap)%Z ->
  keyword_search sheets q per_sheet_cap None = Ok (cands, counts, total) ->
  (total_rows cands <= cap)%Z ->
  exists results,
    keyword_search sheets q per_sheet_cap (Some cap) = Ok (results, counts, total) /\
    (forall name, dict_get name results = dict_get name cands) /\
    ((cap < total)%Z -> keys results = sorted (keys cands)) /\
    ((total <= cap)%Z -> results = cands).
Proof.
  intros Hwb Hpsc Hnone Hfit.
  pose proof (keyword_search_spec sheets q per_sheet_cap None Hwb) as Hspec.
  rewrite Hnone in Hspec. destruct Hspec as (Hcounts & Htotal & Hcands).
  simpl in Hcands.
  pose proof (keyword_search_spec sheets q per_sheet_cap (Some cap) Hwb) as Hsome.
  destruct (keyword_search sheets q per_sheet_cap (Some cap))
    as [[[results counts'] total']|e] eqn:Hks.
  2:{ destruct Hsome as [Ht Hne].
      assert (Hr : keyword_search sheets q per_sheet_cap None = Raise e).
      { apply keyword_search_raises; [exact Hwb | auto]. }
      rewrite Hnone in Hr. discriminate. }
  destruct Hsome as (-> & -> & ->). rewrite <- Htotal, <- Hcands, <- Hcounts.
  exists (capped cands total (Some cap)). split; [reflexivity|].
  assert (Hnd : NoDup (keys cands)) by (rewrite Hcands; apply cands_of_NoDup, Hwb).
  assert (Hsorted : NoDup (sorted (keys cands))).
  { apply (Permutation_NoDup (Permutation_sym (sorted_perm _))). exact Hnd. }
  unfold capped. destruct (cap <? total)%Z eqn:E.
  - assert (Hfill : fill cands (sorted (keys cands)) cap =
                    flat_map (fun n => match dict_get n cands with
                                       | Some dfm => [(n, dfm)]
                                       | None => []
                                       end) (sorted (keys cands))).
    { apply fill_all_fit.
      - intros n Hn. apply (Permutation_in _ (sorted_perm _)) in Hn.
        destruct (dict_get n cands) as [dfm|] eqn:Hget.
        + exists dfm. split; [reflexivity|].
          rewrite Hcands in Hget. apply cands_of_get in Hget; [|apply Hwb].
          destruct Hget as (df & _ & Hpos & ->). simpl.
          unfold sheet_count in Hpos. unfold slice_to.
          destruct (0 <=? per_sheet_cap)%Z eqn:E0; [|apply Z.leb_gt in E0; lia].
          destruct (matching_rows q df) as [|row l]; [simpl in Hpos; lia|].
          destruct (Z.to_nat per_sheet_cap) eqn:E1; [lia|]. discriminate.
        + apply dict_get_None in Hget. contradiction.
      - rewrite (zsum_perm _ _ (Permutation_map _ (sorted_perm (keys cands)))).
        rewrite total_rows_keys by exact Hnd. exact Hfit. }
    rewrite Hfill. split; [|split].
    + intros name. destruct (in_dec (list_eq_dec N.eq_dec) name (sorted (keys cands)))
        as [Hin | Hnotin].
      * apply flat_map_get; assumption.
      * assert (Hc : dict_get name cands = None).
        { apply dict_get_None. intros H. apply Hnotin.
          apply (Permutation_in _ (Permutation_sym (sorted_perm _))). exact H. }
        rewrite Hc. apply dict_get_None.
        rewrite flat_map_get_keys; [exact Hnotin|].
        intros n Hn. apply (Permutation_in _ (sorted_perm _)). exact Hn.
    + intros _. apply flat_map_get_keys.
      intros n Hn. apply (Permutation_in _ (sorted_perm _)). exact Hn.
    + intros Hle. apply Z.ltb_lt in E. lia.
  - split; [reflexivity|]. split; [|reflexivity].
    intros Hlt. apply Z.ltb_ge in E. lia.
Qed.

(** X7. On a workbook whose sheets are all empty, [keyword_search]
    returns no table, a count of 0 for every sheet and a total of 0,
    whatever the query and the caps: the query is not compiled, so one
    that would not compile does not raise. *)
Theorem keyword_search_all_empty sheets q per_sheet_cap total_cap :
  workbook sheets -> all_empty sheets = true ->
  keyword_search sheets q per_sheet_cap total_cap =
  Ok ([], map (fun item => (fst item, 0%Z)) sheets, 0%Z).
Proof.
  intros Hwb Hall.
  pose proof (keyword_search_spec sheets q per_sheet_cap total_cap Hwb) as Hspec.
  destruct (keyword_search sheets q per_sheet_cap total_cap)
    as [[[results counts] total]|e]; [|destruct Hspec; congruence].
  destruct Hspec as (-> & -> & ->).
  assert (Hzero : forall item, In item sheets -> sheet_count q (snd item) = 0%Z).
  { intros item Hin. apply empty_sheet_count.
    - destruct Hwb as [_ Hrect]. rewrite Forall_forall in Hrect. apply Hrect, Hin.
    - unfold all_empty in Hall. rewrite forallb_forall in Hall. apply Hall, Hin. }
  assert (Hcounts : counts_of q sheets = map (fun item => (fst item, 0%Z)) sheets).
  { unfold counts_of. apply map_ext_in. intros item Hin.
    rewrite (Hzero item Hin). reflexivity. }
  assert (Hcands : cands_of q per_sheet_cap sheets = []).
  { clear Hcounts. unfold cands_of. induction sheets as [|item sheets IH]; [reflexivity|].
    cbn [flat_map]. rewrite (Hzero item (or_introl eq_refl)). simpl.
    apply IH.
    - destruct Hwb as [Hnd Hrect]. inversion Hnd; inversion Hrect; subst. split; assumption.
    - unfold all_empty in Hall |- *. simpl in Hall.
      apply andb_true_iff in Hall. apply Hall.
    - intros it Hit. apply Hzero. right. exact Hit. }
  assert (Htotal : zsum (values (counts_of q sheets)) = 0%Z).
  { rewrite Hcounts. clear. induction sheets as [|item sheets IH]; [reflexivity|].
    cbn [map values snd]. rewrite zsum_cons. unfold values in IH. rewrite IH. reflexivity. }
  rewrite Hcands, Hcounts. unfold values in Htotal. rewrite Hcounts in Htotal.
  unfold values. rewrite Htotal.
  unfold capped. destruct total_cap as [cap|]; [|reflexivity].
  destruct (cap <? 0)%Z; reflexivity.
Qed.

(** X8. Under a global cap that is not negative the result holds as
    many rows as the cap allows: the rows of all the candidates when
    these are no more than the cap, and exactly as many as the cap
    otherwise. *)
Theorem global_cap_filled sheets q per_sheet_cap cap
        cands counts total results counts' total' :
  workbook sheets -> (0 <= cap)%Z ->
  keyword_search sheets q per_sheet_cap None = Ok (cands, counts, total) ->
  keyword_search sheets q per_sheet_cap (Some cap) = Ok (results, counts', total') ->
  total_rows results = Z.min cap (total_rows cands).
Proof.
  intros Hwb Hcap Hnone Hsome.
  pose proof (keyword_search_spec sheets q per_sheet_cap None Hwb) as Hspec.
  rewrite Hnone in Hspec. destruct Hspec as (_ & _ & Hcands). simpl in Hcands.
  pose proof (keyword_search_spec sheets q per_sheet_cap (Some cap) Hwb) as Hspec.
  rewrite Hsome in Hspec. destruct Hspec as (_ & _ & ->).
  rewrite <- Hcands.
  assert (Hnd : NoDup (keys cands)) by (rewrite Hcands; apply cands_of_NoDup, Hwb).
  unfold capped. destruct (cap <? zsum (values (counts_of q sheets)))%Z eqn:E.
  - rewrite fill_total_min; [|exact Hcap|].
    + rewrite (zsum_perm _ _ (Permutation_map _ (sorted_perm (keys cands)))).
      rewrite total_rows_keys by exact Hnd. reflexivity.
    + intros n Hn. apply (Permutation_in _ (sorted_perm _)). exact Hn.
  - apply Z.ltb_ge in E.
    pose proof (cands_total_le q per_sheet_cap sheets) as Hle.
    rewrite <- Hcands in Hle. lia.
Qed.

(** X9. Identifiers are matched without regard to case: two
    identifiers with the same lower-case form give the same answer of
    [keyword_search] on every workbook and under all caps. *)
Theorem keyword_search_identifier_case sheets q q' per_sheet_cap total_cap :
  _looks_like_id q = true -> _looks_like_id q' = true ->
  str_lower q = str_lower q' ->
  keyword_search sheets q per_sheet_cap total_cap =
  keyword_search sheets q' per_sheet_cap total_cap.
Proof.
  intros Hq Hq' Hlow.
  assert (Hmask : forall df : DataFrame cell,
             keyword_match_mask df q = keyword_match_mask df q').
  { intros df. unfold keyword_match_mask. rewrite Hq, Hq', Hlow. reflexivity. }
  assert (Hstep : forall st item,
             scan_sheet q per_sheet_cap st item = scan_sheet q' per_sheet_cap st item).
  { intros [[results counts] total] [name df]. unfold scan_sheet.
    rewrite Hmask. reflexivity. }
  unfold keyword_search, scan. rewrite (foldM_ext _ _ Hstep). reflexivity.
Qed.

End KeywordMore.

(** ** The semantic index *)

Lemma mapM_Ok_Forall2 {A B} (f : A -> result B) (l : list A) (ys : list B) :
  mapM f l = Ok ys -> Forall2 (fun x y => f x = Ok y) l ys.
Proof.
  revert ys. induction l as [|x l IH]; simpl; intros ys H.
  - injection H as <-. constructor.
  - destruct (f x) as [y|e] eqn:Hx; [|discriminate]. cbn [bind] in H.
    destruct (mapM f l) as [ys'|e]; [|discriminate]. cbn [bind] in H.
    injection H as <-. constructor; [exact Hx | apply IH; reflexivity].
Qed.

Lemma nth_error_pick {A} (a : list A) (idx : list nat) (xs : list A) :
  Forall2 (fun i x => match nth_error a i with
                      | Some y => Ok y
                      | None => Raise IndexError
                      end = Ok x) idx xs ->
  Forall2 (fun i x => nth_error a i = Some x) idx xs.
Proof.
  induction 1 as [|i x idx xs H _ IH]; constructor; [|exact IH].
  destruct (nth_error a i); [injection H as ->; reflexivity | discriminate].
Qed.

Section IndexMore.

  Context {R : Runtime} {L : SemLib}.

  Implicit Types (sheets : dict (DataFrame cell)) (es : dict entry).

Lemma index_of_keys es :
  keys (TfIdfSemantic.vectorizers (index_of es)) = keys es /\
  keys (TfIdfSemantic.matrices (index_of es)) = keys es /\
  keys (TfIdfSemantic.rows (index_of es)) = keys es.
Proof.
  unfold index_of, keys. simpl. rewrite !map_map. auto.
Qed.

Lemma entries_keys_ok sheets limit :
  snd (entries sheets limit) = Ok tt ->
  keys (fst (entries sheets limit)) =
  keys (filter (fun item => negb (length (rows (use_df limit (snd item))) =? 0)%nat)
               sheets).
Proof.
  induction sheets as [|[n df] sheets IH]; [reflexivity|].
  cbn [entries filter snd]. unfold TfIdfSemantic.row_texts.
  destruct (rows (use_df limit df)) as [|row rs]; cbn [map length Nat.eqb negb].
  - exact IH.
  - destruct (fit_transform _) as [[vec X]|err]; [|discriminate].
    destruct (entries sheets limit) as [es r]. cbn [fst snd] in IH |- *.
    intros Hr. unfold keys in IH |- *. cbn [map fst]. rewrite (IH Hr). reflexivity.
Qed.

(** When the loop of [build] raises, it does so on the first sheet with
    a row that the vectorizer refuses, and it has stored the entries of
    the sheets before it. *)
Lemma entries_raise sheets limit e :
  snd (entries sheets limit) = Raise e ->
  exists pre name df post,
    sheets = pre ++ (name, df) :: post /\
    rows (use_df limit df) <> [] /\
    fit_transform (TfIdfSemantic.row_texts (use_df limit df)) = Raise e /\
    entries pre limit = (fst (entries sheets limit), Ok tt).
Proof.
  induction sheets as [|[n d] sheets IH]; [discriminate|].
  cbn [entries].
  destruct (TfIdfSemantic.row_texts (use_df limit d)) as [|text texts] eqn:Ht.
  - intros H. destruct (IH H) as (pre & name & df & post & -> & Hne & Hfit & Hpre).
    exists ((n, d) :: pre), name, df, post. repeat split; try assumption.
    cbn [entries]. rewrite Ht. exact Hpre.
  - destruct (fit_transform (text :: texts)) as [[vec X]|err] eqn:Hf.
    + destruct (entries sheets limit) as [es r] eqn:He. cbn [fst snd]. intros H.
      destruct (IH H) as (pre & name & df & post & -> & Hne & Hfit & Hpre).
      exists ((n, d) :: pre), name, df, post. repeat split; try assumption.
      cbn [entries]. rewrite Ht, Hf, Hpre. reflexivity.
    + cbn [fst snd]. intros [= ->].
      exists [], n, d, sheets. repeat split.
      * unfold TfIdfSemantic.row_texts in Ht.
        destruct (rows (use_df limit d)); discriminate.
      * rewrite Ht. exact Hf.
Qed.


(** A sheet that comes after the sheets [pre] of a workbook has no
    entry among theirs. *)
Lemma entries_later_absent (pre post : dict (DataFrame cell)) name
      (df : DataFrame cell) limit later :
  NoDup (keys (pre ++ (name, df) :: post)) ->
  In later (name :: keys post) ->
  dict_get later (TfIdfSemantic.rows (index_of (fst (entries pre limit)))) = None.
Proof.
  intros Hnd Hlater. apply dict_get_None.
  destruct (index_of_keys (fst (entries pre limit))) as (_ & _ & ->).
  intros Hin. apply entries_keys in Hin.
  rewrite keys_app in Hnd. cbn [keys map fst] in Hnd. fold (keys post) in Hnd.
  revert Hnd Hin Hlater. generalize (keys pre). clear.
  intros ks Hnd Hin Hlater.
  induction ks as [|k ks IH]; [contradiction|].
  simpl in Hnd. inversion Hnd as [|? ? Hnotin Hnd']; subst.
  destruct Hin as [-> | Hin]; [|exact (IH Hnd' Hin)].
  apply Hnotin, in_or_app. right. exact Hlater.
Qed.


(** X12. In the index that a build leaves, whatever its outcome, the
    matrix and the rows stored under a name belong together: the matrix
    is the one fitted on the texts of these rows, it has one row for each
    of them, and there is at least one. *)
Theorem index_matrix_rows_aligned (laws : SemLaws) self sheets per_sheet_limit
        name X stored :
  NoDup (keys sheets) ->
  dict_get name (TfIdfSemantic.matrices
                   (fst (TfIdfSemantic.build self sheets per_sheet_limit))) = Some X ->
  dict_get name (TfIdfSemantic.rows
                   (fst (TfIdfSemantic.build self sheets per_sheet_limit))) = Some stored ->
  shape0 X = length (rows stored) /\ rows stored <> [] /\
  exists vec,
    dict_get name (TfIdfSemantic.vectorizers
                     (fst (TfIdfSemantic.build self sheets per_sheet_limit))) = Some vec /\
    fit_transform (TfIdfSemantic.row_texts stored) = Ok (vec, X).
Proof.
  intros Hnd. rewrite build_entries by exact Hnd. cbn [fst].
  intros Hm Hr.
  pose proof (entries_NoDup sheets per_sheet_limit Hnd) as Hnd'.
  apply dict_get_Some_In in Hm. simpl in Hm.
  apply in_map_iff in Hm as [[n e] [[= <- <-] Hin]].
  destruct (index_of_get _ n e Hnd' Hin) as (Hv & _ & Hr').
  rewrite Hr' in Hr. injection Hr as <-.
  apply entries_In in Hin as (df & _ & _ & Hne & Hfit).
  pose proof (fit_rows laws _ Hfit) as Hshape.
  unfold TfIdfSemantic.row_texts in Hshape, Hne. rewrite length_map in Hshape.
  split; [exact Hshape|]. split.
  - intros H. rewrite H in Hne. apply Hne. reflexivity.
  - exists (e_vec e). split; [exact Hv | exact Hfit].
Qed.

Lemma search_sheet_inv self q k out name vec out' :
  TfIdfSemantic.search_sheet self q k out (name, vec) = Ok out' ->
  out' = out \/
  exists X stored t,
    dict_get name (TfIdfSemantic.matrices self) = Some X /\
    shape0 X <> 0%nat /\
    dict_get name (TfIdfSemantic.rows self) = Some stored /\
    ~ In semantic_score (columns stored) /\
    scored_rows vec X stored q (slice_to k (rev (argsort (similarities vec X q)))) t /\
    out' = dict_set name t out.
Proof.
  unfold TfIdfSemantic.search_sheet, dict_item.
  destruct (dict_get name (TfIdfSemantic.matrices self)) as [X|]; [|discriminate].
  cbn [bind]. destruct (shape0 X =? 0)%nat eqn:Hs.
  { intros [= <-]. left. reflexivity. }
  apply Nat.eqb_neq in Hs.
  destruct (dict_get name (TfIdfSemantic.rows self)) as [stored|]; [|discriminate].
  cbn [bind]. unfold df_iloc, take.
  set (idx := slice_to k (rev (argsort (similarities vec X q)))).
  destruct (mapM _ idx) as [picked|] eqn:Hp; [|discriminate]. cbn [bind].
  destruct (mapM _ idx) as [scores|] eqn:Hsc in |- *; [|discriminate]. cbn [bind].
  unfold df_insert0. simpl columns. simpl rows.
  destruct (existsb (pystr_eqb semantic_score) (columns stored)) eqn:Hclash;
    [discriminate|].
  destruct (negb (length scores =? length picked)%nat); [discriminate|].
  cbn [bind]. intros [= <-]. right.
  exists X, stored. eexists. repeat split; try eassumption; try reflexivity.
  - intros Hin. apply not_true_iff_false in Hclash. apply Hclash.
    apply existsb_exists. exists semantic_score. split; [exact Hin|].
    apply pystr_eqb_refl.
  - simpl rows. apply mapM_Ok_Forall2, nth_error_pick in Hp.
    apply mapM_Ok_Forall2, nth_error_pick in Hsc.
    pose proof (Forall2_combine _ _
                  (fun p : score * list cell => inl (fst p) :: map inr (snd p))
                  _ _ _ Hsc Hp) as H.
    simpl in H. exact H.
Qed.

Lemma search_fold_inv self q k vs : forall out out',
  foldM (TfIdfSemantic.search_sheet self q k) vs out = Ok out' ->
  forall name t,
    dict_get name out' = Some t ->
    dict_get name out = Some t \/
    exists vec X stored,
      In (name, vec) vs /\
      dict_get name (TfIdfSemantic.matrices self) = Some X /\
      shape0 X <> 0%nat /\
      dict_get name (TfIdfSemantic.rows self) = Some stored /\
      ~ In semantic_score (columns stored) /\
      scored_rows vec X stored q (slice_to k (rev (argsort (similarities vec X q)))) t.
Proof.
  induction vs as [|[n vec] vs IH]; intros out out'; cbn [foldM].
  - intros [= <-]. auto.
  - destruct (TfIdfSemantic.search_sheet self q k out (n, vec)) as [mid|] eqn:Hstep;
      cbn [bind]; [|intros H; discriminate H].
    intros Hrest name t Hget.
    destruct (IH _ _ Hrest name t Hget) as [Hmid | (v & X & stored & Hin & H)].
    2:{ right. exists v, X, stored. split; [right; exact Hin | exact H]. }
    apply search_sheet_inv in Hstep as [-> | (X & stored & t' & Hm & Hs & Hr & Hc & Ht & ->)];
      [left; exact Hmid|].
    destruct (pystr_eqb n name) eqn:E.
    + apply pystr_eqb_eq in E. subst n. rewrite dict_get_set_same in Hmid.
      injection Hmid as <-. right. exists vec, X, stored.
      split; [left; reflexivity|]. repeat split; assumption || apply Ht.
    + rewrite dict_get_set_other in Hmid; [left; exact Hmid|].
      intros ->. rewrite pystr_eqb_refl in E. discriminate.
Qed.

(** X13. Every table that [search] returns, on any state of the index:
    its name has a vectorizer, a matrix with a row and stored rows in the
    index; the stored rows have no column [_semantic_score] and the table
    has that column before theirs; and its rows are the stored rows at
    the leading [top_k_per_sheet] positions of the reversed [argsort],
    each behind the similarity at its position.  So a table has no more
    than [top_k_per_sheet] rows when that number is not negative. *)
Theorem search_tables_from_index self q top_k_per_sheet out name t :
  TfIdfSemantic.search self q top_k_per_sheet = Ok out ->
  dict_get name out = Some t ->
  exists vec X stored,
    In (name, vec) (TfIdfSemantic.vectorizers self) /\
    dict_get name (TfIdfSemantic.matrices self) = Some X /\
    shape0 X <> 0%nat /\
    dict_get name (TfIdfSemantic.rows self) = Some stored /\
    ~ In semantic_score (columns stored) /\
    scored_rows vec X stored q
      (slice_to top_k_per_sheet (rev (argsort (similarities vec X q)))) t /\
    ((0 <= top_k_per_sheet)%Z -> (df_len t <= top_k_per_sheet)%Z).
Proof.
  unfold TfIdfSemantic.search. intros Hs Hget.
  destruct (search_fold_inv _ _ _ _ _ _ Hs name t Hget)
    as [H | (vec & X & stored & Hin & Hm & Hsh & Hr & Hc & Ht)]; [discriminate|].
  exists vec, X, stored. repeat split; try assumption; try apply Ht.
  intros Hk. destruct Ht as [_ Hrows]. apply Forall2_length in Hrows.
  unfold df_len. rewrite <- Hrows.
  pose proof (slice_to_bound top_k_per_sheet
                (rev (argsort (similarities vec X q))) Hk). lia.
Qed.

End IndexMore.

(** ** The [/load] route *)

Section LoadMore.

  Context {R : Runtime} {L : SemLib} {Ld : Loader}.

Lemma head_5000_rows (df : DataFrame cell) :
  (length (rows (use_df (Some 5000%Z) df)) =? 0)%nat = (length (rows df) =? 0)%nat.
Proof.
  simpl. unfold slice_to. simpl. destruct (rows df); reflexivity.
Qed.



End LoadMore.

(** ** The [/search] route *)

Lemma forallb_rev {A} (p : A -> bool) (l : list A) :
  forallb p (rev l) = forallb p l.
Proof.
  induction l as [|x l IH]; [reflexivity|].
  simpl. rewrite forallb_app, IH. simpl. rewrite andb_true_r. apply andb_comm.
Qed.

Lemma lstrip_by_nil (p : codepoint -> bool) (s : pystr) :
  lstrip_by p s = [] <-> forallb p s = true.
Proof.
  induction s as [|c s IH]; simpl; [tauto|].
  destruct (p c); simpl; [exact IH|]. split; discriminate.
Qed.

Lemma lstrip_by_head (p : codepoint -> bool) (s : pystr) c r :
  lstrip_by p s = c :: r -> p c = false.
Proof.
  induction s as [|x s IH]; simpl; [discriminate|].
  destruct (p x) eqn:E; [exact IH|]. intros [= <- _]. exact E.
Qed.

Lemma dict_comp_map {A B} (f : A -> B) (d : dict A) :
  NoDup (keys d) ->
  dict_comp f d = map (fun p => (fst p, f (snd p))) d.
Proof.
  unfold dict_comp.
  assert (H : forall acc,
             NoDup (keys acc ++ keys d) ->
             fold_left (fun acc p => dict_set (fst p) (f (snd p)) acc) d acc =
             acc ++ map (fun p => (fst p, f (snd p))) d).
  { induction d as [|[k v] d IH]; intros acc Hnd; simpl.
    - rewrite app_nil_r. reflexivity.
    - rewrite dict_set_fresh.
      + rewrite IH; [rewrite <- app_assoc; reflexivity|].
        rewrite keys_app. simpl. rewrite <- app_assoc. exact Hnd.
      + simpl in Hnd. apply NoDup_remove_2 in Hnd. intros Hin. apply Hnd.
        apply in_or_app. left. exact Hin. }
  intros Hnd. apply (H []). exact Hnd.
Qed.

Lemma dict_get_map {A B} (f : A -> B) (d : dict A) name :
  dict_get name (map (fun p => (fst p, f (snd p))) d) =
  option_map f (dict_get name d).
Proof.
  induction d as [|[k v] d IH]; [reflexivity|].
  simpl. destruct (pystr_eqb k name); [reflexivity | exact IH].
Qed.

Lemma to_records_length {C} (df : DataFrame C) :
  length (to_records df) = length (rows df).
Proof. unfold to_records. apply length_map. Qed.

Lemma mapM_Ok_each {A B} (f : A -> result B) (g : A -> B) (l : list A) :
  (forall x, In x l -> f x = Ok (g x)) -> mapM f l = Ok (map g l).
Proof.
  induction l as [|x l IH]; intros H; [reflexivity|].
  simpl. rewrite (H x (or_introl eq_refl)). cbn [bind].
  rewrite IH; [reflexivity|]. intros y Hy. apply H. right. exact Hy.
Qed.

Section RouteMore.

  Context {R : Runtime} {L : SemLib} {T : TextLib}.

Lemma strip_nil (s : pystr) : strip s = [] <-> forallb is_space s = true.
Proof.
  unfold strip. split.
  - intros H. apply (f_equal (@rev codepoint)) in H.
    rewrite rev_involutive in H. simpl in H.
    apply lstrip_by_nil in H. rewrite forallb_rev in H.
    destruct (lstrip_by is_space s) as [|c r] eqn:E.
    + apply lstrip_by_nil. exact E.
    + apply lstrip_by_head in E. simpl in H. rewrite E in H. discriminate.
  - intros H. apply lstrip_by_nil in H. rewrite H. reflexivity.
Qed.

Lemma strip_last (s q : pystr) c : strip s = q ++ [c] -> is_space c = false.
Proof.
  unfold strip. intros H. apply (f_equal (@rev codepoint)) in H.
  rewrite rev_involutive, rev_app_distr in H. simpl in H.
  apply lstrip_by_head in H. exact H.
Qed.

(** The lines of the summary: one for each key of the counts, in
    alphabetical order.  The lookup of a key never fails. *)
Lemma count_lines_ok (kw_counts : dict Z) :
  count_lines kw_counts =
  Ok (map (fun k => of_string "- " ++ k ++ of_string ": " ++
                    int_str (match dict_get k kw_counts with
                             | Some n => n
                             | None => 0%Z
                             end))
          (sorted (keys kw_counts))).
Proof.
  unfold count_lines. apply mapM_Ok_each. intros k Hk.
  apply (Permutation_in _ (sorted_perm _)) in Hk.
  unfold dict_item. destruct (dict_get k kw_counts) as [n|] eqn:Hget; [reflexivity|].
  apply dict_get_None in Hget. contradiction.
Qed.

Lemma capped_NoDup (cands : dict (DataFrame cell)) total tc :
  NoDup (keys cands) -> NoDup (keys (capped cands total tc)).
Proof.
  intros Hnd. unfold capped.
  destruct tc as [cap|]; [destruct (cap <? total)%Z|]; try exact Hnd.
  destruct (fill_keys_prefix (sorted (keys cands)) cands cap) as [k ->].
  assert (Hs : NoDup (sorted (keys cands))).
  { apply (Permutation_NoDup (Permutation_sym (sorted_perm _))). exact Hnd. }
  rewrite <- (firstn_skipn k) in Hs. apply NoDup_app_remove_r in Hs. exact Hs.
Qed.

Lemma capped_bounds q psc (sheets : dict (DataFrame cell)) cap :
  workbook sheets -> (0 <= psc)%Z -> (0 <= cap)%Z ->
  (forall name t,
     dict_get name (capped (cands_of q psc sheets)
                           (zsum (values (counts_of q sheets))) (Some cap)) = Some t ->
     (df_len t <= psc)%Z) /\
  (total_rows (capped (cands_of q psc sheets)
                      (zsum (values (counts_of q sheets))) (Some cap)) <= cap)%Z.
Proof.
  intros Hwb Hpsc Hcap. split.
  - intros name t Hget.
    apply capped_get in Hget as [dfm [Hd Hcase]]; [|apply cands_of_NoDup, Hwb].
    apply cands_of_get in Hd as [df (_ & _ & ->)]; [|apply Hwb].
    assert (Hlen : (df_len (candidate q psc df) <= psc)%Z).
    { unfold df_len, candidate. simpl. apply slice_to_bound. exact Hpsc. }
    destruct Hcase as [-> | [r [Hr ->]]]; [exact Hlen|].
    unfold df_len, df_head in *. simpl in *.
    pose proof (slice_to_length_le r (slice_to psc (matching_rows q df))). lia.
  - unfold capped.
    destruct (cap <? zsum (values (counts_of q sheets)))%Z eqn:E.
    + apply fill_total. exact Hcap.
    + apply Z.ltb_ge in E. pose proof (cands_total_le q psc sheets). lia.
Qed.

Lemma search_NoDup self q k vs : forall out out',
  foldM (TfIdfSemantic.search_sheet self q k) vs out = Ok out' ->
  NoDup (keys out) -> NoDup (keys out').
Proof.
  induction vs as [|[n vec] vs IH]; intros out out'; cbn [foldM].
  - intros [= <-]. tauto.
  - destruct (TfIdfSemantic.search_sheet self q k out (n, vec)) as [mid|] eqn:Hstep;
      cbn [bind]; [|intros H; discriminate H].
    intros Hrest Hnd. apply (IH _ _ Hrest).
    apply search_sheet_inv in Hstep as [-> | (X & stored & t & _ & _ & _ & _ & _ & ->)];
      [exact Hnd|].
    apply dict_set_NoDup. exact Hnd.
Qed.

Lemma total_rows_records (d : dict (DataFrame cell)) :
  zsum (map (fun records : list (dict cell) => Z.of_nat (length records))
            (values (map (fun p => (fst p, to_records (snd p))) d))) =
  total_rows d.
Proof.
  unfold total_rows, values. rewrite !map_map. f_equal.
  apply map_ext. intros [n t]. simpl. rewrite to_records_length. reflexivity.
Qed.

(** What the route does with a query that is not blank on a loaded
    workbook. *)
Lemma search_unfold st payload item items c q :
  SHEETS st = item :: items -> strip (query payload) = c :: q ->
  search st payload =
  (' (kw_results, kw_counts, kw_total) <-
     keyword_search (SHEETS st) (c :: q) 100%Z (Some 1000%Z) ;;
   lines <- count_lines kw_counts ;;
   let keyword :=
     {| kw_summary :=
          join [Re.newline]
            ((of_string "Total keyword matches (pre-cap): " ++ int_str kw_total)
               :: lines);
        kw_csv_url := None;
        kw_results := dict_comp to_records kw_results |} in
   if run_semantic payload then
     sem_results <- TfIdfSemantic.search (SEM st) (c :: q) 30%Z ;;
     Ok (search_answer keyword
           (Some {| sem_summary :=
                      of_string "Semantic hits (top 30 per sheet): " ++
                      int_str (zsum (map (fun df => df_len df) (values sem_results)));
                    sem_csv_url := None;
                    sem_results := dict_comp to_records sem_results |}))
   else Ok (search_answer keyword None)).
Proof.
  intros Hs Hq. unfold search. rewrite Hq, Hs. reflexivity.
Qed.

(** X16. The handler of [/search] answers 400 in two cases and in no
    other: no workbook is loaded, or the query has nothing but white
    space.  A query that does not compile is not among them. *)
Theorem search_route_rejects st payload :
  (SHEETS st = [] ->
   search st payload =
   Ok (error_answer 400%Z (of_string "No workbook loaded. POST /load first."))) /\
  (SHEETS st <> [] -> forallb is_space (query payload) = true ->
   search st payload = Ok (error_answer 400%Z (of_string "Empty query."))) /\
  (forall status message,
     search st payload = Ok (error_answer status message) ->
     SHEETS st = [] \/ forallb is_space (query payload) = true).
Proof.
  split; [|split].
  - intros H. unfold search. rewrite H. reflexivity.
  - intros Hs Hq. apply strip_nil in Hq. unfold search. rewrite Hq.
    destruct (SHEETS st); [contradiction | reflexivity].
  - intros status message H.
    destruct (SHEETS st) as [|item items] eqn:Hs; [left; reflexivity|]. right.
    destruct (strip (query payload)) as [|c q] eqn:Hq; [apply strip_nil; exact Hq|].
    rewrite (search_unfold st payload item items c q Hs Hq) in H.
    destruct (keyword_search _ _ _ _) as [[[results counts] total]|e]; [|discriminate].
    cbn [bind] in H. rewrite count_lines_ok in H. cbn [bind] in H.
    destruct (run_semantic payload); [|discriminate].
    destruct (TfIdfSemantic.search _ _ _); discriminate.
Qed.

(** X17. The query that the route hands to the engines is stripped, so
    it ends in no newline, and [_looks_like_id] accepts it exactly when it
    is one or more letters, zero or more zeros and one or more digits. *)
Theorem search_route_identifier_exact payload :
  is_space Re.newline = true ->
  (_looks_like_id (strip (query payload)) = true <->
   identifier_like (strip (query payload))).
Proof.
  intros Hnl. rewrite looks_like_id_iff. split; [|tauto].
  intros [H | (q' & Hq & _)]; [exact H|].
  apply strip_last in Hq. congruence.
Qed.

(** X18. The sizes of an answer of the route: no sheet has more than
    100 keyword records, all sheets together have no more than 1000, no
    sheet has more than 30 semantic records, and the semantic part is
    there exactly when it was asked for. *)
Theorem search_answer_sizes st payload kw sem :
  workbook (SHEETS st) ->
  search st payload = Ok (search_answer kw sem) ->
  (forall name records,
     dict_get name (kw_results kw) = Some records -> (length records <= 100)%nat) /\
  (zsum (map (fun records => Z.of_nat (length records)) (values (kw_results kw)))
   <= 1000)%Z /\
  (forall part name records,
     sem = Some part -> dict_get name (sem_results part) = Some records ->
     (length records <= 30)%nat) /\
  (sem = None <-> run_semantic payload = false).
Proof.
  intros Hwb H.
  destruct (SHEETS st) as [|item items] eqn:Hs; [unfold search in H; rewrite Hs in H; discriminate|].
  destruct (strip (query payload)) as [|c q] eqn:Hq;
    [unfold search in H; rewrite Hs, Hq in H; discriminate|].
  rewrite (search_unfold st payload item items c q Hs Hq) in H.
  rewrite <- Hs in Hwb.
  pose proof (keyword_search_spec (SHEETS st) (c :: q) 100%Z (Some 1000%Z) Hwb) as Hspec.
  destruct (keyword_search _ _ _ _) as [[[results counts] total]|e]; [|discriminate].
  destruct Hspec as (_ & _ & Hres).
  cbn [bind] in H. rewrite count_lines_ok in H. cbn [bind] in H.
  assert (Hnd : NoDup (keys results)).
  { rewrite Hres. apply capped_NoDup, cands_of_NoDup, Hwb. }
  destruct (capped_bounds (c :: q) 100%Z (SHEETS st) 1000%Z Hwb) as [Hper Htot];
    [lia | lia |].
  rewrite <- Hres in Hper, Htot.
  assert (Hkw : forall name records,
             dict_get name (dict_comp to_records results) = Some records ->
             (length records <= 100)%nat).
  { intros name records Hget. rewrite dict_comp_map, dict_get_map in Hget by exact Hnd.
    destruct (dict_get name results) as [t|] eqn:Ht; [|discriminate].
    injection Hget as <-. rewrite to_records_length.
    specialize (Hper name t Ht). unfold df_len in Hper. lia. }
  assert (Hsum : (zsum (map (fun records : list (dict cell) => Z.of_nat (length records))
                            (values (dict_comp to_records results))) <= 1000)%Z).
  { rewrite dict_comp_map by exact Hnd. rewrite total_rows_records. exact Htot. }
  destruct (run_semantic payload).
  - destruct (TfIdfSemantic.search (SEM st) (c :: q) 30%Z) as [out|e] eqn:Hsem;
      [|discriminate].
    cbn [bind] in H. injection H as <- <-. cbn [kw_results].
    split; [exact Hkw|]. split; [exact Hsum|]. split; [|split; discriminate].
    intros part name records [= <-]. cbn [sem_results]. intros Hget.
    assert (Hnd' : NoDup (keys out)).
    { unfold TfIdfSemantic.search in Hsem.
      apply (search_NoDup _ _ _ _ _ _ Hsem). constructor. }
    rewrite dict_comp_map, dict_get_map in Hget by exact Hnd'.
    destruct (dict_get name out) as [t|] eqn:Ht; [|discriminate].
    injection Hget as <-. rewrite to_records_length.
    unfold TfIdfSemantic.search in Hsem.
    destruct (search_fold_inv _ _ _ _ _ _ Hsem name t Ht)
      as [Hnil | (vec & X & stored & _ & _ & _ & _ & _ & _ & Hrows)]; [discriminate|].
    apply Forall2_length in Hrows. rewrite <- Hrows.
    pose proof (slice_to_bound 30%Z (rev (argsort (similarities vec X (c :: q))))). lia.
  - injection H as <- <-. cbn [kw_results].
    split; [exact Hkw|]. split; [exact Hsum|]. split; [discriminate|].
    split; reflexivity.
Qed.

(** The raises of the route, by the engine that raises. *)
Lemma search_raise_split st payload e :
  search st payload = Raise e <->
  SHEETS st <> [] /\ strip (query payload) <> [] /\
  (keyword_search (SHEETS st) (strip (query payload)) 100%Z (Some 1000%Z) = Raise e \/
   ((exists r, keyword_search (SHEETS st) (strip (query payload)) 100%Z (Some 1000%Z)
               = Ok r) /\
    run_semantic payload = true /\
    TfIdfSemantic.search (SEM st) (strip (query payload)) 30%Z = Raise e)).
Proof.
  destruct (SHEETS st) as [|item items] eqn:Hs.
  { unfold search. rewrite Hs. split; [discriminate | intros [H _]; contradiction]. }
  destruct (strip (query payload)) as [|c q] eqn:Hq.
  { unfold search. rewrite Hs, Hq.
    split; [discriminate | intros (_ & H & _); contradiction]. }
  rewrite (search_unfold st payload item items c q Hs Hq).
  rewrite <- Hs.
  destruct (keyword_search (SHEETS st) (c :: q) 100%Z (Some 1000%Z))
    as [[[results counts] total]|e'] eqn:Hks.
  - cbn [bind]. rewrite count_lines_ok. cbn [bind].
    destruct (run_semantic payload).
    + destruct (TfIdfSemantic.search (SEM st) (c :: q) 30%Z) as [out|e''] eqn:Hsem;
        cbn [bind].
      * split; [discriminate|].
        intros (_ & _ & [H | (_ & _ & H)]); discriminate.
      * split.
        -- intros [= ->]. split; [rewrite Hs; discriminate|].
           split; [discriminate|].
           right. repeat split. eexists. reflexivity.
        -- intros (_ & _ & [H | (_ & _ & H)]); [discriminate|].
           injection H as ->. reflexivity.
    + split; [discriminate|].
      intros (_ & _ & [H | (_ & H & _)]); discriminate.
  - cbn [bind]. split.
    + intros [= ->]. split; [rewrite Hs; discriminate|].
      split; [discriminate|]. left. reflexivity.
    + intros (_ & _ & [H | ((r & Hr) & _)]); [|discriminate].
      injection H as ->. reflexivity.
Qed.


(** X20. The keyword summary of an answer: a first line with the total
    of the matches before any cap, then one line for every sheet of the
    workbook, also a sheet without a match, in alphabetical order of the
    names, each with the number of rows of the sheet that match. *)
Theorem search_summary_lines st payload kw sem :
  workbook (SHEETS st) ->
  search st payload = Ok (search_answer kw sem) ->
  let q := strip (query payload) in
  let count name := match dict_get name (SHEETS st) with
                    | Some df => sheet_count q df
                    | None => 0%Z
                    end in
  kw_summary kw =
  join [Re.newline]
    ((of_string "Total keyword matches (pre-cap): " ++
      int_str (zsum (map count (keys (SHEETS st)))))
     :: map (fun name => of_string "- " ++ name ++ of_string ": " ++ int_str (count name))
            (sorted (keys (SHEETS st)))).
Proof.
  intros Hwb H.
  assert (Hs : exists item items, SHEETS st = item :: items).
  { destruct (SHEETS st) as [|item items] eqn:Hs; [|eauto].
    unfold search in H. rewrite Hs in H. discriminate. }
  destruct Hs as (item & items & Hs).
  destruct (strip (query payload)) as [|c q] eqn:Hq;
    [unfold search in H; rewrite Hs, Hq in H; discriminate|].
  rewrite (search_unfold st payload item items c q Hs Hq) in H.
  cbv zeta.
  set (count := fun name => match dict_get name (SHEETS st) with
                            | Some df => sheet_count (c :: q) df
                            | None => 0%Z
                            end).
  pose proof (keyword_search_spec (SHEETS st) (c :: q) 100%Z (Some 1000%Z) Hwb) as Hspec.
  destruct (keyword_search _ _ _ _) as [[[results counts] total]|e]; [|discriminate].
  destruct Hspec as (-> & -> & _).
  cbn [bind] in H. rewrite count_lines_ok in H. cbn [bind] in H.
  assert (Hcount : forall name, In name (keys (SHEETS st)) ->
             match dict_get name (counts_of (c :: q) (SHEETS st)) with
             | Some n => n
             | None => 0%Z
             end = count name).
  { intros name Hin. unfold count.
    destruct (dict_get name (SHEETS st)) as [df|] eqn:Hget.
    - apply dict_get_Some_In in Hget.
      rewrite (counts_of_get (c :: q) (SHEETS st) name df (proj1 Hwb) Hget). reflexivity.
    - apply dict_get_None in Hget. contradiction. }
  assert (Hsummary :
            kw_summary kw =
            join [Re.newline]
              ((of_string "Total keyword matches (pre-cap): " ++
                int_str (zsum (values (counts_of (c :: q) (SHEETS st)))))
               :: map (fun k => of_string "- " ++ k ++ of_string ": " ++
                          int_str (match dict_get k (counts_of (c :: q) (SHEETS st)) with
                                   | Some n => n
                                   | None => 0%Z
                                   end))
                      (sorted (keys (counts_of (c :: q) (SHEETS st)))))).
  { destruct (run_semantic payload).
    - destruct (TfIdfSemantic.search _ _ _); [|discriminate].
      cbn [bind] in H. injection H as <- _. reflexivity.
    - injection H as <- _. reflexivity. }
  rewrite Hsummary, keys_counts_of. f_equal. f_equal.
  - f_equal. f_equal. f_equal. unfold values, counts_of. rewrite map_map.
    unfold keys. rewrite map_map. apply map_ext_in. intros [name df] Hin. simpl.
    unfold count. rewrite (dict_get_In _ _ _ _ (proj1 Hwb) Hin). reflexivity.
  - apply map_ext_in. intros name Hin.
    apply (Permutation_in _ (sorted_perm _)) in Hin.
    rewrite (Hcount name Hin). reflexivity.
Qed.

End RouteMore.

(** ** The routes together *)

Section LoadedMore.

  Context {R : Runtime} {L : SemLib} {T : TextLib} {Ld : Loader}.

  Variable laws : SemLaws.

Lemma load_success_inv st0 raw st names :
  load_workbook st0 raw = (st, sheet_names names) ->
  TfIdfSemantic.build (SEM st0) (SHEETS st) (Some 5000%Z) = (SEM st, Ok tt).
Proof.
  unfold load_workbook.
  destruct (read_workbook_bytes raw) as [sheets|e]; [|discriminate].
  destruct (TfIdfSemantic.build (SEM st0) sheets (Some 5000%Z)) as [sem built] eqn:Hb.
  destruct built as [[]|e]; [|discriminate].
  intros [= <- _]. exact Hb.
Qed.

(** An entry of a finished build has a column [_semantic_score] exactly
    when a sheet with a row has one. *)
Lemma entries_clash (sheets : dict (DataFrame cell)) :
  snd (entries sheets (Some 5000%Z)) = Ok tt ->
  (existsb (fun p => clashes (snd p)) (fst (entries sheets (Some 5000%Z))) = true <->
   exists name df, In (name, df) sheets /\ rows df <> [] /\
                   In semantic_score (columns df)).
Proof.
  intros Hok. rewrite existsb_exists. split.
  - intros ([name e] & Hin & Hclash). cbn [snd] in Hclash.
    apply entries_In in Hin as (df & Hin & Hrows & Hne & _).
    exists name, df. split; [exact Hin|].
    unfold clashes in Hclash. rewrite Hrows in Hclash, Hne.
    cbn [use_df df_head columns] in Hclash.
    split.
    + intros H. apply Hne. unfold TfIdfSemantic.row_texts. simpl. rewrite H.
      unfold slice_to. reflexivity.
    + apply existsb_exists in Hclash as (c & Hc & Heq).
      apply pystr_eqb_eq in Heq. subst c. exact Hc.
  - intros (name & df & Hin & Hne & Hcol).
    destruct (entries_complete sheets (Some 5000%Z) name df Hok Hin) as (e & He & Hrows).
    + unfold TfIdfSemantic.row_texts. simpl. unfold slice_to. simpl.
      destruct (rows df); [contradiction | discriminate].
    + exists (name, e). split; [exact He|]. cbn [snd]. unfold clashes.
      rewrite Hrows. cbn [use_df df_head columns]. apply existsb_exists.
      exists semantic_score. split; [exact Hcol | apply pystr_eqb_refl].
Qed.


End LoadedMore.

(** ** The properties on the example workbooks *)

Lemma letters_book_NoDup : NoDup (keys letters_book).
Proof. apply keys_NoDup_dec. reflexivity. Qed.

Lemma mixed_book_NoDup : NoDup (keys mixed_book).
Proof. apply keys_NoDup_dec. reflexivity. Qed.

Lemma parts_rectangular : @rectangular pystr parts.
Proof. apply table_rectangular. reflexivity. Qed.

Section MoreExamples.

  Local Existing Instance ascii_runtime.
  Local Existing Instance term_lib.
  Local Existing Instance parsed_loader.
  Local Existing Instance ascii_text.

  Local Open Scope string_scope.

  Local Abbreviation s := of_string.

(** The route on the sheet [Parts], asked for [bolt] between spaces:
    two keyword records, and the rows [Bolt Long] and [Bolt] as the
    semantic records. *)
Example parts_route :
  exists kw part,
    search parts_state {| query := s "  bolt "; run_semantic := true |} =
    Ok (search_answer kw (Some part)) /\
    kw_summary kw =
    (s "Total keyword matches (pre-cap): 2" ++ [Re.newline] ++ s "- Parts: 2")%list /\
    sem_summary part = s "Semantic hits (top 30 per sheet): 3" /\
    dict_get (s "Parts") (kw_results kw) =
    Some [[(s "id", s "AB007"); (s "name", s "Bolt")];
          [(s "id", s "AB107"); (s "name", s "Bolt Long")]].
Proof. do 2 eexists. repeat split; reflexivity. Qed.



(** Witness of X4: two sheets under a per-sheet cap of 1, without a
    global cap. *)
Lemma keyword_search_rows_in_order_witness :
  workbook two_sheets /\
  exists df k,
    In (s "B", df) two_sheets /\
    columns (table ["name"] [["bolt"]]) = columns df /\
    rows (table ["name"] [["bolt"]]) = firstn k (filter (row_matches (s "bolt")) (rows df)) /\
    (@None Z = None -> (0 <= 1)%Z ->
     rows (table ["name"] [["bolt"]]) =
     firstn (Z.to_nat 1) (filter (row_matches (s "bolt")) (rows df))).
Proof.
  split; [exact two_sheets_workbook|].
  eapply (@keyword_search_rows_in_order ascii_runtime two_sheets (s "bolt") 1%Z None).
  - exact two_sheets_workbook.
  - reflexivity.
  - reflexivity.
Defined.

(** Witness of X5: two sheets under caps of 1 and 1; the sheet [A]
    comes first though the workbook has [B] first. *)
Lemma keyword_search_key_order_witness :
  workbook two_sheets /\
  (forall cap, Some 1%Z = Some cap -> (cap < 4)%Z ->
     Sorted lex_le (keys [(s "A", table ["name"] [["Bolt"]])]) /\
     exists k,
       keys [(s "A", table ["name"] [["Bolt"]])] =
       firstn k (sorted (keys (filter
                   (fun item => (0 <? sheet_count (s "bolt") (snd item))%Z)
                   two_sheets)))) /\
  (Some 1%Z = None \/ (exists cap, Some 1%Z = Some cap /\ (4 <= cap)%Z) ->
   keys [(s "A", table ["name"] [["Bolt"]])] =
   keys (filter (fun item => (0 <? sheet_count (s "bolt") (snd item))%Z) two_sheets)).
Proof.
  split; [exact two_sheets_workbook|].
  exact (@keyword_search_key_order ascii_runtime two_sheets (s "bolt") 1%Z
           (Some 1%Z) _ _ _ two_sheets_workbook two_sheets_capped).
Defined.

(** Witness of X6: two sheets of two matches each, a per-sheet cap of
    1 and a global cap of 2: the total of 4 is over the cap, and the two
    candidates of one row each fit under it. *)
Lemma global_cap_keeps_fitting_candidates_witness :
  workbook two_sheets /\ (1 <= 1)%Z /\
  exists cands counts total,
    keyword_search two_sheets (s "bolt") 1%Z None = Ok (cands, counts, total) /\
    (total_rows cands <= 2)%Z /\ (2 < total)%Z /\
    exists results,
      keyword_search two_sheets (s "bolt") 1%Z (Some 2%Z) = Ok (results, counts, total) /\
      (forall name, dict_get name results = dict_get name cands) /\
      ((2 < total)%Z -> keys results = sorted (keys cands)) /\
      ((total <= 2)%Z -> results = cands).
Proof.
  split; [exact two_sheets_workbook|]. split; [lia|].
  do 3 eexists.
  split; [reflexivity|].
  split; [apply Z.leb_le; reflexivity|].
  split; [apply Z.ltb_lt; reflexivity|].
  apply (@global_cap_keeps_fitting_candidates ascii_runtime two_sheets (s "bolt")
           1%Z 2%Z _ _ _ two_sheets_workbook).
  - lia.
  - reflexivity.
  - apply Z.leb_le. reflexivity.
Defined.



(** Witness of X12: the index of the sheet [Parts]. *)
Lemma index_matrix_rows_aligned_witness :
  SemLaws /\ NoDup (keys parts_book) /\
  exists X stored,
    dict_get (s "Parts")
      (TfIdfSemantic.matrices
         (fst (TfIdfSemantic.build TfIdfSemantic.init parts_book (Some 5000%Z))))
    = Some X /\
    dict_get (s "Parts")
      (TfIdfSemantic.rows
         (fst (TfIdfSemantic.build TfIdfSemantic.init parts_book (Some 5000%Z))))
    = Some stored /\
    shape0 X = length (rows stored) /\ rows stored <> [] /\
    exists vec,
      dict_get (s "Parts")
        (TfIdfSemantic.vectorizers
           (fst (TfIdfSemantic.build TfIdfSemantic.init parts_book (Some 5000%Z))))
      = Some vec /\
      fit_transform (TfIdfSemantic.row_texts stored) = Ok (vec, X).
Proof.
  split; [exact term_lib_laws|].
  split; [exact (proj1 parts_book_workbook)|].
  do 2 eexists.
  split; [reflexivity|].
  split; [reflexivity|].
  apply (@index_matrix_rows_aligned ascii_runtime term_lib term_lib_laws
           TfIdfSemantic.init parts_book (Some 5000%Z) (s "Parts") _ _
           (proj1 parts_book_workbook)); reflexivity.
Defined.

(** Witness of X13: the index of the sheet [Parts], asked for the two
    best rows. *)
Lemma search_tables_from_index_witness :
  exists out t,
    TfIdfSemantic.search (SEM parts_state) (s "bolt long") 2%Z = Ok out /\
    dict_get (s "Parts") out = Some t /\
    exists vec X stored,
      In (s "Parts", vec) (TfIdfSemantic.vectorizers (SEM parts_state)) /\
      dict_get (s "Parts") (TfIdfSemantic.matrices (SEM parts_state)) = Some X /\
      shape0 X <> 0%nat /\
      dict_get (s "Parts") (TfIdfSemantic.rows (SEM parts_state)) = Some stored /\
      ~ In semantic_score (columns stored) /\
      scored_rows vec X stored (s "bolt long")
        (slice_to 2%Z (rev (argsort (similarities vec X (s "bolt long"))))) t /\
      ((0 <= 2)%Z -> (df_len t <= 2)%Z).
Proof.
  do 2 eexists.
  split; [reflexivity|].
  split; [reflexivity|].
  eapply (@search_tables_from_index ascii_runtime term_lib (SEM parts_state)
            (s "bolt long") 2%Z); reflexivity.
Defined.



(** Witness of X17: the identifier [AB007] between spaces. *)
Lemma search_route_identifier_exact_witness :
  is_space Re.newline = true /\
  (_looks_like_id (strip (s " AB007 ")) = true <->
   identifier_like (strip (s " AB007 "))).
Proof.
  split; [reflexivity|].
  exact (@search_route_identifier_exact ascii_runtime ascii_text
           {| query := s " AB007 "; run_semantic := false |} eq_refl).
Defined.

(** Witness of X18: the route on the sheet [Parts]. *)
Lemma search_answer_sizes_witness :
  workbook (SHEETS parts_state) /\
  exists kw sem,
    search parts_state {| query := s "  bolt "; run_semantic := true |} =
    Ok (search_answer kw sem) /\
    (forall name records,
       dict_get name (kw_results kw) = Some records -> (length records <= 100)%nat) /\
    (zsum (map (fun records => Z.of_nat (length records)) (values (kw_results kw)))
     <= 1000)%Z /\
    (forall part name records,
       sem = Some part -> dict_get name (sem_results part) = Some records ->
       (length records <= 30)%nat) /\
    (sem = None <-> true = false).
Proof.
  split; [exact parts_book_workbook|].
  do 2 eexists. split; [reflexivity|].
  apply (@search_answer_sizes ascii_runtime term_lib ascii_text parts_state
           {| query := s "  bolt "; run_semantic := true |} _ _ parts_book_workbook).
  reflexivity.
Defined.


(** Witness of X20: the route on two sheets, asked for [bolt]. *)
Lemma search_summary_lines_witness :
  workbook two_sheets /\
  exists kw sem,
    search two_sheets_state {| query := s "bolt"; run_semantic := false |} =
    Ok (search_answer kw sem) /\
    kw_summary kw =
    (s "Total keyword matches (pre-cap): 4" ++ [Re.newline] ++
     s "- A: 2" ++ [Re.newline] ++ s "- B: 2")%list.
Proof.
  split; [exact two_sheets_workbook|].
  do 2 eexists. split; [reflexivity|].
  etransitivity.
  - eapply (@search_summary_lines ascii_runtime term_lib ascii_text
              two_sheets_state {| query := s "bolt"; run_semantic := false |} _ None).
    + exact two_sheets_workbook.
    + reflexivity.
  - reflexivity.
Defined.

(** Witness of X7: a workbook of one sheet without rows, asked for an
    open parenthesis. *)
Lemma keyword_search_all_empty_witness :
  workbook [(s "Empty", table ["id"] [])] /\
  all_empty [(s "Empty", table ["id"] [])] = true /\
  keyword_search [(s "Empty", table ["id"] [])] (s "(") 100%Z (Some 1000%Z) =
  Ok ([], [(s "Empty", 0%Z)], 0%Z).
Proof.
  assert (Hwb : @workbook ascii_runtime [(s "Empty", table ["id"] [])]).
  { split.
    - apply keys_NoDup_dec. reflexivity.
    - repeat constructor. }
  split; [exact Hwb|]. split; [reflexivity|].
  exact (@keyword_search_all_empty ascii_runtime [(s "Empty", table ["id"] [])]
           (s "(") 100%Z (Some 1000%Z) Hwb eq_refl).
Defined.

(** Witness of X8: two sheets of two matches each, under a global cap
    of 3. *)
Lemma global_cap_filled_witness :
  workbook two_sheets /\ (0 <= 3)%Z /\
  exists cands results,
    total_rows cands = 4%Z /\ total_rows results = 3%Z /\
    total_rows results = Z.min 3 (total_rows cands).
Proof.
  split; [exact two_sheets_workbook|]. split; [lia|].
  do 2 eexists.
  split; [|split]; cycle 2.
  - eapply (@global_cap_filled ascii_runtime two_sheets (s "bolt") 100%Z 3%Z).
    + exact two_sheets_workbook.
    + lia.
    + reflexivity.
    + reflexivity.
  - reflexivity.
  - reflexivity.
Defined.


(** Witness of X9: the identifier [AB007] in capitals and in small
    letters. *)
Lemma keyword_search_identifier_case_witness :
  _looks_like_id (s "AB007") = true /\ _looks_like_id (s "ab007") = true /\
  str_lower (s "AB007") = str_lower (s "ab007") /\
  keyword_search parts_book (s "AB007") 100%Z (Some 1000%Z) =
  keyword_search parts_book (s "ab007") 100%Z (Some 1000%Z).
Proof.
  split; [reflexivity|]. split; [reflexivity|]. split; [reflexivity|].
  exact (@keyword_search_identifier_case ascii_runtime parts_book (s "AB007")
           (s "ab007") 100%Z (Some 1000%Z) eq_refl eq_refl eq_refl).
Defined.

End MoreExamples.
